(** * FullBodyTracker (js/fullbody_working.js): a shallow embedding

    The tracker is a JavaScript class whose methods mutate [this], write to
    the DOM, paint on a 2D canvas context, print on the console and talk to
    three MediaPipe detectors.  The embedding keeps that shape:

    - JavaScript numbers are IEEE-754 binary64 values, modelled by Rocq's
      primitive [float]; [-], [*], [/], [<] are the hardware operations;
    - [this] is the record [Tracker]; the DOM elements looked up with
      [document.getElementById] form a finite map from ids to elements;
    - methods are computations in the monad [M]: they read and write the
      world, may throw, and emit a chronological trace of effects (canvas
      operations, console lines, frames sent to a detector, animation-frame
      requests);
    - whatever the browser or a detector decides (clock readings, whether a
      call rejects and with what value) is an explicit argument of the
      method that asks for it;
    - [fps] and [frameCount] hold whole numbers, kept as [N]: binary64 is
      exact on whole numbers up to [2^53], where [frameCount++] stops. *)

From Stdlib Require Import Floats QArith.
From stdpp Require Import gmap strings list pretty.

Set Warnings "-inexact-float".

(** ** Numbers *)

(** The arithmetic [flipX] needs.  The code runs at [float]; [Q] is the
    same expression read with exact arithmetic. *)
Class Arith (num : Type) := {
  sub : num -> num -> num;
  mul : num -> num -> num
}.

#[export] Instance float_arith : Arith float :=
  {| sub := PrimFloat.sub; mul := PrimFloat.mul |}.
#[export] Instance Q_arith : Arith Q :=
  {| sub := Qminus; mul := Qmult |}.

(** JavaScript truthiness of a number: [0], [-0] and [NaN] are falsy. *)
Definition truthy (v : float) : bool :=
  negb (PrimFloat.is_zero v || PrimFloat.is_nan v).

(** [a > b], [a >= b] and [a < b] on numbers ([false] as soon as one side is
    [NaN]). *)
Definition gt (a b : float) : bool := PrimFloat.ltb b a.
Definition ge (a b : float) : bool := PrimFloat.leb b a.
Definition lt (a b : float) : bool := PrimFloat.ltb a b.

(** Truthiness of an object reference: anything but [null]/[undefined]
    (an empty array is truthy). *)
Definition present {A} (o : option A) : bool :=
  match o with Some _ => true | None => false end.

(** [Math.PI]. *)
Definition Math_PI : float := 0x1.921fb54442d18p+1%float.

(** ** Data *)

Module Lm.
(** A landmark as MediaPipe delivers it.  Only pose landmarks carry
    [visibility]; reading it elsewhere gives [undefined] ([None]). *)
Record t := mk {
  x : float;
  y : float;
  z : float;
  visibility : option float
}.
End Lm.
Abbreviation Landmark := Lm.t.

(** [landmark.visibility > threshold]: [undefined > n] is [false]. *)
Definition visibility_gt (p : Landmark) (threshold : float) : bool :=
  match Lm.visibility p with
  | Some v => gt v threshold
  | None => false
  end.

Inductive Detector := Pose | FaceMesh | Hands.

(** The raw payloads handed to the [onResults] listeners.  A field the
    detector leaves out is [undefined], here [None]. *)
Record PoseResults := {
  r_poseLandmarks : option (list Landmark);
  r_poseWorldLandmarks : option (list Landmark)
}.
Record FaceResults := { multiFaceLandmarks : option (list (list Landmark)) }.
Record HandsResults := { multiHandLandmarks : option (list (list Landmark)) }.

(** A detector object: [new Pose(..)], then [setOptions], then [onResults]. *)
Record Adapter := { configured : bool; listening : bool }.

Record Video := { videoWidth : float; videoHeight : float; readyState : nat }.
Record Canvas := { width : float; height : float }.

(** The fields of [this] (constructor, lines 2-43) that some method reads or
    writes.  [fps] and [frameCount] start at 0 and change by [frameCount++],
    [this.fps = this.frameCount] and [this.frameCount = 0] only: they hold
    whole numbers between 0 and [2^53]. *)
Record Tracker := {
  fps : N;
  frameCount : N;
  lastFpsTime : float;
  targetFps : float;
  frameInterval : float;
  lastFrameTime : float;
  logInterval : float;
  lastLogTime : float;
  isTracking : bool;
  poseLandmarks : option (list Landmark);
  poseWorldLandmarks : option (list Landmark);
  faceLandmarks : option (list Landmark);
  handsLandmarks : option (list (list Landmark));
  pose : option Adapter;
  faceMesh : option Adapter;
  hands : option Adapter;
  videoElement : option Video;
  canvasElement : option Canvas;
  canvasCtx : bool;
  showPose : bool;
  showFace : bool;
  showHands : bool;
  showDebug : bool
}.

(** [new FullBodyTracker()] at clock reading [now]. *)
Definition constructor (now : float) : Tracker := {|
  fps := 0;
  frameCount := 0;
  lastFpsTime := now;
  targetFps := 30%float;
  frameInterval := (1000 / 30)%float;
  lastFrameTime := 0%float;
  logInterval := 2000%float;
  lastLogTime := 0%float;
  isTracking := false;
  poseLandmarks := None;
  poseWorldLandmarks := None;
  faceLandmarks := None;
  handsLandmarks := Some [];
  pose := None;
  faceMesh := None;
  hands := None;
  videoElement := None;
  canvasElement := None;
  canvasCtx := false;
  showPose := true;
  showFace := true;
  showHands := true;
  showDebug := true
|}.

(** Field assignments [this.f = v]. *)
Definition set_fps (v : N) (t : Tracker) : Tracker :=
  {| fps := v; frameCount := frameCount t; lastFpsTime := lastFpsTime t;
     targetFps := targetFps t; frameInterval := frameInterval t;
     lastFrameTime := lastFrameTime t; logInterval := logInterval t;
     lastLogTime := lastLogTime t; isTracking := isTracking t;
     poseLandmarks := poseLandmarks t;
     poseWorldLandmarks := poseWorldLandmarks t;
     faceLandmarks := faceLandmarks t; handsLandmarks := handsLandmarks t;
     pose := pose t; faceMesh := faceMesh t; hands := hands t;
     videoElement := videoElement t; canvasElement := canvasElement t;
     canvasCtx := canvasCtx t; showPose := showPose t;
     showFace := showFace t; showHands := showHands t;
     showDebug := showDebug t |}.
Definition set_frameCount (v : N) (t : Tracker) : Tracker :=
  {| fps := fps t; frameCount := v; lastFpsTime := lastFpsTime t;
     targetFps := targetFps t; frameInterval := frameInterval t;
     lastFrameTime := lastFrameTime t; logInterval := logInterval t;
     lastLogTime := lastLogTime t; isTracking := isTracking t;
     poseLandmarks := poseLandmarks t;
     poseWorldLandmarks := poseWorldLandmarks t;
     faceLandmarks := faceLandmarks t; handsLandmarks := handsLandmarks t;
     pose := pose t; faceMesh := faceMesh t; hands := hands t;
     videoElement := videoElement t; canvasElement := canvasElement t;
     canvasCtx := canvasCtx t; showPose := showPose t;
     showFace := showFace t; showHands := showHands t;
     showDebug := showDebug t |}.
Definition set_lastFpsTime (v : float) (t : Tracker) : Tracker :=
  {| fps := fps t; frameCount := frameCount t; lastFpsTime := v;
     targetFps := targetFps t; frameInterval := frameInterval t;
     lastFrameTime := lastFrameTime t; logInterval := logInterval t;
     lastLogTime := lastLogTime t; isTracking := isTracking t;
     poseLandmarks := poseLandmarks t;
     poseWorldLandmarks := poseWorldLandmarks t;
     faceLandmarks := faceLandmarks t; handsLandmarks := handsLandmarks t;
     pose := pose t; faceMesh := faceMesh t; hands := hands t;
     videoElement := videoElement t; canvasElement := canvasElement t;
     canvasCtx := canvasCtx t; showPose := showPose t;
     showFace := showFace t; showHands := showHands t;
     showDebug := showDebug t |}.
Definition set_lastFrameTime (v : float) (t : Tracker) : Tracker :=
  {| fps := fps t; frameCount := frameCount t; lastFpsTime := lastFpsTime t;
     targetFps := targetFps t; frameInterval := frameInterval t;
     lastFrameTime := v; logInterval := logInterval t;
     lastLogTime := lastLogTime t; isTracking := isTracking t;
     poseLandmarks := poseLandmarks t;
     poseWorldLandmarks := poseWorldLandmarks t;
     faceLandmarks := faceLandmarks t; handsLandmarks := handsLandmarks t;
     pose := pose t; faceMesh := faceMesh t; hands := hands t;
     videoElement := videoElement t; canvasElement := canvasElement t;
     canvasCtx := canvasCtx t; showPose := showPose t;
     showFace := showFace t; showHands := showHands t;
     showDebug := showDebug t |}.
Definition set_lastLogTime (v : float) (t : Tracker) : Tracker :=
  {| fps := fps t; frameCount := frameCount t; lastFpsTime := lastFpsTime t;
     targetFps := targetFps t; frameInterval := frameInterval t;
     lastFrameTime := lastFrameTime t; logInterval := logInterval t;
     lastLogTime := v; isTracking := isTracking t;
     poseLandmarks := poseLandmarks t;
     poseWorldLandmarks := poseWorldLandmarks t;
     faceLandmarks := faceLandmarks t; handsLandmarks := handsLandmarks t;
     pose := pose t; faceMesh := faceMesh t; hands := hands t;
     videoElement := videoElement t; canvasElement := canvasElement t;
     canvasCtx := canvasCtx t; showPose := showPose t;
     showFace := showFace t; showHands := showHands t;
     showDebug := showDebug t |}.
Definition set_isTracking (v : bool) (t : Tracker) : Tracker :=
  {| fps := fps t; frameCount := frameCount t; lastFpsTime := lastFpsTime t;
     targetFps := targetFps t; frameInterval := frameInterval t;
     lastFrameTime := lastFrameTime t; logInterval := logInterval t;
     lastLogTime := lastLogTime t; isTracking := v;
     poseLandmarks := poseLandmarks t;
     poseWorldLandmarks := poseWorldLandmarks t;
     faceLandmarks := faceLandmarks t; handsLandmarks := handsLandmarks t;
     pose := pose t; faceMesh := faceMesh t; hands := hands t;
     videoElement := videoElement t; canvasElement := canvasElement t;
     canvasCtx := canvasCtx t; showPose := showPose t;
     showFace := showFace t; showHands := showHands t;
     showDebug := showDebug t |}.
Definition set_poseLandmarks (v : option (list Landmark)) (t : Tracker) : Tracker :=
  {| fps := fps t; frameCount := frameCount t; lastFpsTime := lastFpsTime t;
     targetFps := targetFps t; frameInterval := frameInterval t;
     lastFrameTime := lastFrameTime t; logInterval := logInterval t;
     lastLogTime := lastLogTime t; isTracking := isTracking t;
     poseLandmarks := v; poseWorldLandmarks := poseWorldLandmarks t;
     faceLandmarks := faceLandmarks t; handsLandmarks := handsLandmarks t;
     pose := pose t; faceMesh := faceMesh t; hands := hands t;
     videoElement := videoElement t; canvasElement := canvasElement t;
     canvasCtx := canvasCtx t; showPose := showPose t;
     showFace := showFace t; showHands := showHands t;
     showDebug := showDebug t |}.
Definition set_poseWorldLandmarks (v : option (list Landmark)) (t : Tracker) : Tracker :=
  {| fps := fps t; frameCount := frameCount t; lastFpsTime := lastFpsTime t;
     targetFps := targetFps t; frameInterval := frameInterval t;
     lastFrameTime := lastFrameTime t; logInterval := logInterval t;
     lastLogTime := lastLogTime t; isTracking := isTracking t;
     poseLandmarks := poseLandmarks t; poseWorldLandmarks := v;
     faceLandmarks := faceLandmarks t; handsLandmarks := handsLandmarks t;
     pose := pose t; faceMesh := faceMesh t; hands := hands t;
     videoElement := videoElement t; canvasElement := canvasElement t;
     canvasCtx := canvasCtx t; showPose := showPose t;
     showFace := showFace t; showHands := showHands t;
     showDebug := showDebug t |}.
Definition set_faceLandmarks (v : option (list Landmark)) (t : Tracker) : Tracker :=
  {| fps := fps t; frameCount := frameCount t; lastFpsTime := lastFpsTime t;
     targetFps := targetFps t; frameInterval := frameInterval t;
     lastFrameTime := lastFrameTime t; logInterval := logInterval t;
     lastLogTime := lastLogTime t; isTracking := isTracking t;
     poseLandmarks := poseLandmarks t;
     poseWorldLandmarks := poseWorldLandmarks t; faceLandmarks := v;
     handsLandmarks := handsLandmarks t; pose := pose t;
     faceMesh := faceMesh t; hands := hands t;
     videoElement := videoElement t; canvasElement := canvasElement t;
     canvasCtx := canvasCtx t; showPose := showPose t;
     showFace := showFace t; showHands := showHands t;
     showDebug := showDebug t |}.
Definition set_handsLandmarks (v : option (list (list Landmark))) (t : Tracker) : Tracker :=
  {| fps := fps t; frameCount := frameCount t; lastFpsTime := lastFpsTime t;
     targetFps := targetFps t; frameInterval := frameInterval t;
     lastFrameTime := lastFrameTime t; logInterval := logInterval t;
     lastLogTime := lastLogTime t; isTracking := isTracking t;
     poseLandmarks := poseLandmarks t;
     poseWorldLandmarks := poseWorldLandmarks t;
     faceLandmarks := faceLandmarks t; handsLandmarks := v; pose := pose t;
     faceMesh := faceMesh t; hands := hands t;
     videoElement := videoElement t; canvasElement := canvasElement t;
     canvasCtx := canvasCtx t; showPose := showPose t;
     showFace := showFace t; showHands := showHands t;
     showDebug := showDebug t |}.
Definition set_pose (v : option Adapter) (t : Tracker) : Tracker :=
  {| fps := fps t; frameCount := frameCount t; lastFpsTime := lastFpsTime t;
     targetFps := targetFps t; frameInterval := frameInterval t;
     lastFrameTime := lastFrameTime t; logInterval := logInterval t;
     lastLogTime := lastLogTime t; isTracking := isTracking t;
     poseLandmarks := poseLandmarks t;
     poseWorldLandmarks := poseWorldLandmarks t;
     faceLandmarks := faceLandmarks t; handsLandmarks := handsLandmarks t;
     pose := v; faceMesh := faceMesh t; hands := hands t;
     videoElement := videoElement t; canvasElement := canvasElement t;
     canvasCtx := canvasCtx t; showPose := showPose t;
     showFace := showFace t; showHands := showHands t;
     showDebug := showDebug t |}.
Definition set_faceMesh (v : option Adapter) (t : Tracker) : Tracker :=
  {| fps := fps t; frameCount := frameCount t; lastFpsTime := lastFpsTime t;
     targetFps := targetFps t; frameInterval := frameInterval t;
     lastFrameTime := lastFrameTime t; logInterval := logInterval t;
     lastLogTime := lastLogTime t; isTracking := isTracking t;
     poseLandmarks := poseLandmarks t;
     poseWorldLandmarks := poseWorldLandmarks t;
     faceLandmarks := faceLandmarks t; handsLandmarks := handsLandmarks t;
     pose := pose t; faceMesh := v; hands := hands t;
     videoElement := videoElement t; canvasElement := canvasElement t;
     canvasCtx := canvasCtx t; showPose := showPose t;
     showFace := showFace t; showHands := showHands t;
     showDebug := showDebug t |}.
Definition set_hands (v : option Adapter) (t : Tracker) : Tracker :=
  {| fps := fps t; frameCount := frameCount t; lastFpsTime := lastFpsTime t;
     targetFps := targetFps t; frameInterval := frameInterval t;
     lastFrameTime := lastFrameTime t; logInterval := logInterval t;
     lastLogTime := lastLogTime t; isTracking := isTracking t;
     poseLandmarks := poseLandmarks t;
     poseWorldLandmarks := poseWorldLandmarks t;
     faceLandmarks := faceLandmarks t; handsLandmarks := handsLandmarks t;
     pose := pose t; faceMesh := faceMesh t; hands := v;
     videoElement := videoElement t; canvasElement := canvasElement t;
     canvasCtx := canvasCtx t; showPose := showPose t;
     showFace := showFace t; showHands := showHands t;
     showDebug := showDebug t |}.
Definition set_videoElement (v : option Video) (t : Tracker) : Tracker :=
  {| fps := fps t; frameCount := frameCount t; lastFpsTime := lastFpsTime t;
     targetFps := targetFps t; frameInterval := frameInterval t;
     lastFrameTime := lastFrameTime t; logInterval := logInterval t;
     lastLogTime := lastLogTime t; isTracking := isTracking t;
     poseLandmarks := poseLandmarks t;
     poseWorldLandmarks := poseWorldLandmarks t;
     faceLandmarks := faceLandmarks t; handsLandmarks := handsLandmarks t;
     pose := pose t; faceMesh := faceMesh t; hands := hands t;
     videoElement := v; canvasElement := canvasElement t;
     canvasCtx := canvasCtx t; showPose := showPose t;
     showFace := showFace t; showHands := showHands t;
     showDebug := showDebug t |}.
Definition set_canvasElement (v : option Canvas) (t : Tracker) : Tracker :=
  {| fps := fps t; frameCount := frameCount t; lastFpsTime := lastFpsTime t;
     targetFps := targetFps t; frameInterval := frameInterval t;
     lastFrameTime := lastFrameTime t; logInterval := logInterval t;
     lastLogTime := lastLogTime t; isTracking := isTracking t;
     poseLandmarks := poseLandmarks t;
     poseWorldLandmarks := poseWorldLandmarks t;
     faceLandmarks := faceLandmarks t; handsLandmarks := handsLandmarks t;
     pose := pose t; faceMesh := faceMesh t; hands := hands t;
     videoElement := videoElement t; canvasElement := v;
     canvasCtx := canvasCtx t; showPose := showPose t;
     showFace := showFace t; showHands := showHands t;
     showDebug := showDebug t |}.
Definition set_canvasCtx (v : bool) (t : Tracker) : Tracker :=
  {| fps := fps t; frameCount := frameCount t; lastFpsTime := lastFpsTime t;
     targetFps := targetFps t; frameInterval := frameInterval t;
     lastFrameTime := lastFrameTime t; logInterval := logInterval t;
     lastLogTime := lastLogTime t; isTracking := isTracking t;
     poseLandmarks := poseLandmarks t;
     poseWorldLandmarks := poseWorldLandmarks t;
     faceLandmarks := faceLandmarks t; handsLandmarks := handsLandmarks t;
     pose := pose t; faceMesh := faceMesh t; hands := hands t;
     videoElement := videoElement t; canvasElement := canvasElement t;
     canvasCtx := v; showPose := showPose t; showFace := showFace t;
     showHands := showHands t; showDebug := showDebug t |}.
Definition set_showPose (v : bool) (t : Tracker) : Tracker :=
  {| fps := fps t; frameCount := frameCount t; lastFpsTime := lastFpsTime t;
     targetFps := targetFps t; frameInterval := frameInterval t;
     lastFrameTime := lastFrameTime t; logInterval := logInterval t;
     lastLogTime := lastLogTime t; isTracking := isTracking t;
     poseLandmarks := poseLandmarks t;
     poseWorldLandmarks := poseWorldLandmarks t;
     faceLandmarks := faceLandmarks t; handsLandmarks := handsLandmarks t;
     pose := pose t; faceMesh := faceMesh t; hands := hands t;
     videoElement := videoElement t; canvasElement := canvasElement t;
     canvasCtx := canvasCtx t; showPose := v; showFace := showFace t;
     showHands := showHands t; showDebug := showDebug t |}.
Definition set_showFace (v : bool) (t : Tracker) : Tracker :=
  {| fps := fps t; frameCount := frameCount t; lastFpsTime := lastFpsTime t;
     targetFps := targetFps t; frameInterval := frameInterval t;
     lastFrameTime := lastFrameTime t; logInterval := logInterval t;
     lastLogTime := lastLogTime t; isTracking := isTracking t;
     poseLandmarks := poseLandmarks t;
     poseWorldLandmarks := poseWorldLandmarks t;
     faceLandmarks := faceLandmarks t; handsLandmarks := handsLandmarks t;
     pose := pose t; faceMesh := faceMesh t; hands := hands t;
     videoElement := videoElement t; canvasElement := canvasElement t;
     canvasCtx := canvasCtx t; showPose := showPose t; showFace := v;
     showHands := showHands t; showDebug := showDebug t |}.
Definition set_showHands (v : bool) (t : Tracker) : Tracker :=
  {| fps := fps t; frameCount := frameCount t; lastFpsTime := lastFpsTime t;
     targetFps := targetFps t; frameInterval := frameInterval t;
     lastFrameTime := lastFrameTime t; logInterval := logInterval t;
     lastLogTime := lastLogTime t; isTracking := isTracking t;
     poseLandmarks := poseLandmarks t;
     poseWorldLandmarks := poseWorldLandmarks t;
     faceLandmarks := faceLandmarks t; handsLandmarks := handsLandmarks t;
     pose := pose t; faceMesh := faceMesh t; hands := hands t;
     videoElement := videoElement t; canvasElement := canvasElement t;
     canvasCtx := canvasCtx t; showPose := showPose t;
     showFace := showFace t; showHands := v; showDebug := showDebug t |}.

(** ** The world, effects and the method monad *)

(** What the code touches of a DOM element: [textContent] and
    [style.color]. *)
Record Element := { textContent : string; color : string }.

(** [this] and the elements [document.getElementById] can find. *)
Record World := { this : Tracker; document : gmap string Element }.

Inductive LogType := LogInfo | LogWarning | LogError | LogSuccess.

Module Ctx.
(** Calls and property writes on the [CanvasRenderingContext2D]. *)
Inductive op :=
| set_strokeStyle (c : string)
| set_lineWidth (w : float)
| set_fillStyle (c : string)
| set_font (f : string)
| clearRect (x y w h : float)
| save
| scale (sx sy : float)
| translate (tx ty : float)
| drawImage (x y w h : float)
| restore
| beginPath
| moveTo (x y : float)
| lineTo (x y : float)
| stroke
| arc (x y r a0 a1 : float)
| fill
| fillText (text : string) (x y : float).
End Ctx.

Inductive Effect :=
| Paint (o : Ctx.op)
| Console (type : LogType) (message : string)
| Send (d : Detector)
| RequestAnimationFrame
| FirstFrame
| ErrorModal (message : string)
| HideLoading.

(** What a [throw] or a rejected promise hands to a [catch] clause.  The
    code looks at a caught value in one way only, [error.message] put into a
    template literal (lines 90-92, 136, 168, 201, 242, 575), or throws the
    value again (line 138).  On [null] and [undefined] that read throws a
    [TypeError]; on any other value it gives the text the template shows:
    the message of an [Error], and [undefined] for a value without one. *)
Inductive Thrown :=
| Exception (message : string)
| ThrownNull
| ThrownUndefined.

(** A method either returns or throws. *)
Inductive Res (A : Type) := Ok (a : A) | Throw (error : Thrown).
Arguments Ok {A} a.
Arguments Throw {A} error.

(** A method: from the world before to its completion, the world after
    (mutations made before a throw stay) and the effects in order. *)
Definition M (A : Type) : Type := World -> Res A * World * list Effect.

#[export] Instance M_ret : MRet M := fun A a w => (Ok a, w, []).
#[export] Instance M_bind : MBind M := fun A B k m w =>
  match m w with
  | (Ok a, w1, e1) => let '(r, w2, e2) := k a w1 in (r, w2, e1 ++ e2)
  | (Throw error, w1, e1) => (Throw error, w1, e1)
  end.

(** [throw error], and [throw new Error(message)]; a [TypeError] raised by
    the engine is thrown the same way. *)
Definition throw_value {A} (error : Thrown) : M A := fun w => (Throw error, w, []).
Definition throw {A} (message : string) : M A := throw_value (Exception message).

(** [try { body } catch (error) { handler(error) }]. *)
Definition try_catch {A} (body : M A) (handler : Thrown -> M A) : M A := fun w =>
  match body w with
  | (Ok a, w1, e1) => (Ok a, w1, e1)
  | (Throw error, w1, e1) => let '(r, w2, e2) := handler error w1 in (r, w2, e1 ++ e2)
  end.

Definition emit (e : Effect) : M unit := fun w => (Ok tt, w, [e]).
Definition paint (ops : list Ctx.op) : M unit := fun w => (Ok tt, w, Paint <$> ops).
Definition getThis : M Tracker := fun w => (Ok (this w), w, []).
Definition assign (f : Tracker -> Tracker) : M unit := fun w =>
  (Ok tt, {| this := f (this w); document := document w |}, []).
Definition when (b : bool) (m : M unit) : M unit := if b then m else mret tt.

(** Reading a property of [null] throws a [TypeError]. *)
Definition null_read (property : string) : string :=
  "Cannot read properties of null (reading '" +:+ property +:+ "')".
Definition null_write (property : string) : string :=
  "Cannot set properties of null (setting '" +:+ property +:+ "')".
Definition undefined_read (property : string) : string :=
  "Cannot read properties of undefined (reading '" +:+ property +:+ "')".

(** [error.message] inside a template literal, in a [catch] clause. *)
Definition error_message (error : Thrown) : M string :=
  match error with
  | Exception message => mret message
  | ThrownNull => throw (null_read "message")
  | ThrownUndefined => throw (undefined_read "message")
  end.

(** The parts of an execution. *)
Definition result {A} (r : Res A * World * list Effect) : Res A := r.1.1.
Definition world {A} (r : Res A * World * list Effect) : World := r.1.2.
Definition effects {A} (r : Res A * World * list Effect) : list Effect := r.2.

(** ** Logging and the status display *)

(** [log(message, type)], lines 612-631.  The console line is the message
    behind a wall-clock timestamp and a marker chosen by [type]; the effect
    records the console method and the message. *)
Definition log (message : string) (type : LogType) : M unit :=
  t ← getThis;
  if negb (showDebug t) then mret tt else emit (Console type message).

Definition status_color (status : string) : string :=
  if String.eqb status "active" || String.eqb status "detected" then "#00FF00"
  else if String.eqb status "error" then "#FF0000" else "#FFFF00".

(** [document.getElementById(id)] and the writes to the element found. *)
Definition getElementById (id : string) : M (option Element) := fun w =>
  (Ok (document w !! id), w, []).
Definition set_element (id : string) (el : Element) : M unit := fun w =>
  (Ok tt, {| this := this w; document := <[id := el]> (document w) |}, []).

(** [updateStatus(type, status)], lines 603-610. *)
Definition updateStatus (type status : string) : M unit :=
  let id := type +:+ "-status" in
  statusElement ← getElementById id;
  match statusElement with
  | Some _ =>
      set_element id {| textContent := status; color := status_color status |}
  | None => mret tt
  end.

(** [updateTrackingStatus()], lines 528-536.  The three statuses are
    computed before the first is pushed; [this.handsLandmarks.length] throws
    on [null]. *)
Definition updateTrackingStatus : M unit :=
  t ← getThis;
  let poseStatus := if present (poseLandmarks t) then "detected" else "searching" in
  let faceStatus := if present (faceLandmarks t) then "detected" else "searching" in
  match handsLandmarks t with
  | None => throw (null_read "length")
  | Some hs =>
      let handsStatus :=
        if bool_decide (0 < length hs) then "detected" else "searching" in
      updateStatus "pose" poseStatus;;
      updateStatus "face" faceStatus;;
      updateStatus "hands" handsStatus
  end.

(** ** Drawing *)

(** [flipX(x, width)], lines 297-299. *)
Definition flipX {num} `{Arith num} (x width : num) : num := sub width x.

(** The canvas reads every draw method starts with: [this.canvasElement.width]
    and [.height], then the first use of [ctx]. *)
Definition canvas_size : M Canvas :=
  t ← getThis;
  match canvasElement t with
  | Some c => mret c
  | None => throw (null_read "width")
  end.
Definition require_ctx (message : string) : M unit :=
  t ← getThis;
  if canvasCtx t then mret tt else throw message.

Section Overlay.
Variables width height : float.

Definition px (p : Landmark) : float := flipX (Lm.x p * width)%float width.
Definition py (p : Landmark) : float := (Lm.y p * height)%float.

(** [beginPath; moveTo; lineTo; stroke] between two landmarks. *)
Definition segment (startPoint endPoint : Landmark) : list Ctx.op :=
  [Ctx.beginPath;
   Ctx.moveTo (px startPoint) (py startPoint);
   Ctx.lineTo (px endPoint) (py endPoint);
   Ctx.stroke].

(** [beginPath; arc; fill] at a landmark. *)
Definition dot (landmark : Landmark) (radius : float) : list Ctx.op :=
  [Ctx.beginPath;
   Ctx.arc (px landmark) (py landmark) radius 0 (2 * Math_PI);
   Ctx.fill].

(** The debug label of a key point, lines 379-388 and 486-495. *)
Definition label (font : string) (offset : float) (restore : string)
    (landmark : Landmark) (index : nat) : list Ctx.op :=
  [Ctx.set_fillStyle "white";
   Ctx.set_font font;
   Ctx.fillText (pretty index) (px landmark + offset) (py landmark - offset);
   Ctx.set_fillStyle restore].

(** *** Pose, lines 332-391 *)

Definition pose_connections : list (nat * nat) :=
  [(11, 12); (11, 13); (13, 15); (12, 14); (14, 16);
   (11, 23); (12, 24); (23, 24);
   (23, 25); (25, 27); (27, 29); (29, 31);
   (24, 26); (26, 28); (28, 30); (30, 32);
   (15, 17); (15, 19); (15, 21);
   (16, 18); (16, 20); (16, 22)].

(** The body of [connections.forEach], lines 354-365. *)
Definition pose_connection (landmarks : list Landmark) (c : nat * nat)
    : list Ctx.op :=
  match landmarks !! c.1, landmarks !! c.2 with
  | Some startPoint, Some endPoint =>
      if visibility_gt startPoint 0.3 && visibility_gt endPoint 0.3
      then segment startPoint endPoint
      else []
  | _, _ => []
  end.

(** The body of [this.poseLandmarks.forEach], lines 368-390. *)
Definition pose_point (debug : bool) (index : nat) (landmark : Landmark)
    : list Ctx.op :=
  if visibility_gt landmark 0.3 then
    dot landmark 6 ++
    (if debug && bool_decide (index ∈ [0; 11; 12; 23; 24])
     then label "12px Arial" 10 "#00FF00" landmark index
     else [])
  else [].

Definition pose_ops (debug : bool) (landmarks : list Landmark) : list Ctx.op :=
  [Ctx.set_strokeStyle "#00FF00"; Ctx.set_lineWidth 3;
   Ctx.set_fillStyle "#00FF00"] ++
  mjoin (pose_connection landmarks <$> pose_connections) ++
  mjoin (imap (pose_point debug) landmarks).

(** *** Face, lines 393-437 *)

Definition faceContours : list (nat * nat) :=
  [(10, 338); (338, 297); (297, 332); (332, 284); (284, 251); (251, 389);
   (389, 356); (356, 454); (454, 323); (323, 361); (361, 288); (288, 397);
   (397, 365); (365, 379); (379, 378); (378, 400); (400, 377); (377, 152);
   (152, 148); (148, 176); (176, 149); (149, 150); (150, 136); (136, 172);
   (172, 58); (58, 132); (132, 93); (93, 234); (234, 127); (127, 162);
   (162, 21); (21, 54); (54, 103); (103, 67); (67, 109); (109, 10)].

(** [0, 1, ..., 467]. *)
Definition keyLandmarks : list nat := seq 0 468.

Definition plain_connection (landmarks : list Landmark) (c : nat * nat)
    : list Ctx.op :=
  match landmarks !! c.1, landmarks !! c.2 with
  | Some startPoint, Some endPoint => segment startPoint endPoint
  | _, _ => []
  end.

Definition face_point (landmarks : list Landmark) (index : nat)
    : list Ctx.op :=
  match landmarks !! index with
  | Some landmark => dot landmark 2
  | None => []
  end.

Definition face_ops (landmarks : list Landmark) : list Ctx.op :=
  [Ctx.set_strokeStyle "#FFD700"; Ctx.set_lineWidth 1;
   Ctx.set_fillStyle "#FFD700"] ++
  mjoin (plain_connection landmarks <$> faceContours) ++
  mjoin (face_point landmarks <$> keyLandmarks).

(** *** Hands, lines 439-498 *)

Definition hand_connections : list (nat * nat) :=
  [(0, 1); (1, 2); (2, 3); (3, 4);
   (0, 5); (5, 6); (6, 7); (7, 8);
   (0, 9); (9, 10); (10, 11); (11, 12);
   (0, 13); (13, 14); (14, 15); (15, 16);
   (0, 17); (17, 18); (18, 19); (19, 20);
   (5, 9); (9, 13); (13, 17)].

Definition hand_point (debug : bool) (handColor : string) (index : nat)
    (landmark : Landmark) : list Ctx.op :=
  dot landmark 4 ++
  (if debug && bool_decide (index ∈ [0; 4; 8; 12; 16; 20])
   then label "10px Arial" 8 handColor landmark index
   else []).

(** The body of [this.handsLandmarks.forEach], lines 446-497. *)
Definition hand_ops (debug : bool) (handIndex : nat)
    (handLandmarks : list Landmark) : list Ctx.op :=
  let handColor := if bool_decide (handIndex = 0) then "#FF6B6B" else "#4ECDC4" in
  [Ctx.set_strokeStyle handColor; Ctx.set_lineWidth 2;
   Ctx.set_fillStyle handColor] ++
  mjoin (plain_connection handLandmarks <$> hand_connections) ++
  mjoin (imap (hand_point debug handColor) handLandmarks).

Definition hands_ops (debug : bool) (hs : list (list Landmark)) : list Ctx.op :=
  mjoin (imap (hand_ops debug) hs).
End Overlay.

(** [drawPoseLandmarks()], lines 332-391. *)
Definition drawPoseLandmarks : M unit :=
  t ← getThis;
  match poseLandmarks t with
  | Some landmarks =>
      if showPose t then
        c ← canvas_size;
        require_ctx (null_write "strokeStyle");;
        paint (pose_ops (width c) (height c) (showDebug t) landmarks)
      else mret tt
  | None => mret tt
  end.

(** [drawFaceLandmarks()], lines 393-437. *)
Definition drawFaceLandmarks : M unit :=
  t ← getThis;
  match faceLandmarks t with
  | Some landmarks =>
      if showFace t then
        c ← canvas_size;
        require_ctx (null_write "strokeStyle");;
        paint (face_ops (width c) (height c) landmarks)
      else mret tt
  | None => mret tt
  end.

(** [drawHandsLandmarks()], lines 439-498.  With no hand in the array the
    context is never used. *)
Definition drawHandsLandmarks : M unit :=
  t ← getThis;
  match handsLandmarks t with
  | Some hs =>
      if showHands t then
        c ← canvas_size;
        when (bool_decide (0 < length hs)) (require_ctx (null_write "strokeStyle"));;
        paint (hands_ops (width c) (height c) (showDebug t) hs)
      else mret tt
  | None => mret tt
  end.

(** ** Detector completions, lines 248-294 *)

(** [logPoseData()], [logFaceData()], [logHandsData()], lines 584-601. *)
Definition logPoseData : M unit :=
  t ← getThis;
  match poseLandmarks t with
  | Some landmarks =>
      if showDebug t then
        let visibleLandmarks :=
          length (filter (fun lm => visibility_gt lm 0.3 = true) landmarks) in
        log ("🏃 Pose: " +:+ pretty visibleLandmarks +:+ "/" +:+
             pretty (length landmarks) +:+ " landmarks visible") LogInfo
      else mret tt
  | None => mret tt
  end.

Definition logFaceData : M unit :=
  t ← getThis;
  match faceLandmarks t with
  | Some landmarks =>
      if showDebug t then
        log ("👤 Face: " +:+ pretty (length landmarks) +:+ " landmarks detected")
            LogInfo
      else mret tt
  | None => mret tt
  end.

Definition logHandsData : M unit :=
  t ← getThis;
  match handsLandmarks t with
  | Some hs =>
      if showDebug t then
        log ("✋ Hands: " +:+ pretty (length hs) +:+ " hand(s) detected") LogInfo
      else mret tt
  | None => mret tt
  end.

(** [onPoseResults(results)], lines 248-264; [now] is what [Date.now()]
    returns on line 259. *)
Definition onPoseResults (results : PoseResults) (now : float) : M unit :=
  assign (set_poseLandmarks (r_poseLandmarks results));;
  assign (set_poseWorldLandmarks (r_poseWorldLandmarks results));;
  t ← getThis;
  when (showPose t) drawPoseLandmarks;;
  updateTrackingStatus;;
  t ← getThis;
  when (ge (now - lastLogTime t) (logInterval t))
       (logPoseData;; assign (set_lastLogTime now)).

(** [results.multiFaceLandmarks?.[0] || null]. *)
Definition first_face (results : FaceResults) : option (list Landmark) :=
  match multiFaceLandmarks results with
  | Some faces => faces !! 0
  | None => None
  end.

(** [onFaceResults(results)], lines 266-279. *)
Definition onFaceResults (results : FaceResults) (now : float) : M unit :=
  assign (set_faceLandmarks (first_face results));;
  t ← getThis;
  when (showFace t && present (faceLandmarks t)) drawFaceLandmarks;;
  t ← getThis;
  when (ge (now - lastLogTime t) (logInterval t) && present (faceLandmarks t))
       (logFaceData;; assign (set_lastLogTime now)).

(** [this.handsLandmarks.length > 0]. *)
Definition hands_nonempty : M bool :=
  t ← getThis;
  match handsLandmarks t with
  | Some hs => mret (bool_decide (0 < length hs))
  | None => throw (null_read "length")
  end.

(** [onHandsResults(results)], lines 281-294: the cache becomes
    [results.multiHandLandmarks || []]. *)
Definition onHandsResults (results : HandsResults) (now : float) : M unit :=
  assign (set_handsLandmarks (Some (default [] (multiHandLandmarks results))));;
  t ← getThis;
  some ← (if showHands t then hands_nonempty else mret false);
  when some drawHandsLandmarks;;
  t ← getThis;
  some ← (if ge (now - lastLogTime t) (logInterval t) then hands_nonempty
          else mret false);
  when some (logHandsData;; assign (set_lastLogTime now)).

(** ** Rendering the video frame, lines 301-330 and 500-526 *)

(** [n++] on a number that holds the whole number [n]: below [2^53] the sum
    is exact; [2^53 + 1] is not a binary64 value and rounds back to [2^53],
    where the count stays. *)
Definition increment (n : N) : N :=
  if (n <? 9007199254740992)%N then (n + 1)%N else n.

(** [updateFPS()], lines 500-514; [now] is its [Date.now()]. *)
Definition updateFPS (now : float) : M unit :=
  assign (fun t => set_frameCount (increment (frameCount t)) t);;
  t ← getThis;
  when (ge (now - lastFpsTime t) 1000)
    (assign (set_fps (frameCount t));;
     assign (set_frameCount 0);;
     assign (set_lastFpsTime now);;
     fpsDisplay ← getElementById "fps-display";
     match fpsDisplay with
     | Some el =>
         set_element "fps-display"
           {| textContent := pretty (frameCount t); color := color el |}
     | None => mret tt
     end).

(** [resizeCanvas()], lines 516-526. *)
Definition resizeCanvas : M unit :=
  t ← getThis;
  match videoElement t, canvasElement t with
  | Some video, Some _ =>
      when (truthy (videoWidth video) && truthy (videoHeight video))
        (assign (set_canvasElement
           (Some {| width := videoWidth video; height := videoHeight video |})))
  | _, _ => mret tt
  end.

(** [renderFrame()], lines 301-330. *)
Definition renderFrame (fpsNow : float) : M unit :=
  t ← getThis;
  match videoElement t with
  | None => mret tt
  | Some video =>
      if negb (truthy (videoWidth video)) then mret tt else
      resizeCanvas;;
      require_ctx (null_read "clearRect");;
      c ← canvas_size;
      paint [Ctx.clearRect 0 0 (width c) (height c);
             Ctx.save;
             Ctx.scale (-1) 1;
             Ctx.translate (- width c) 0;
             Ctx.drawImage 0 0 (width c) (height c);
             Ctx.restore];;
      updateFPS fpsNow
  end.

(** ** The frame loop, lines 538-582 *)

(** What the environment decides during one run of [processFrame]: the two
    clock readings, and for each detector whether [send] rejects. *)
Record TickEnv := {
  now : float;
  fpsNow : float;
  rejects : Detector -> option Thrown
}.

(** [await detector.send({ image: this.videoElement })]: the call, then
    what the promise settles to. *)
Definition settle (env : TickEnv) (d : Detector) : M unit :=
  match rejects env d with
  | Some error => throw_value error
  | None => mret tt
  end.
Definition send (env : TickEnv) (d : Detector) : M unit :=
  emit (Send d);; settle env d.

(** The [try] block of [processFrame], lines 556-573. *)
Definition frame_body (env : TickEnv) : M unit :=
  t ← getThis;
  match videoElement t with
  | Some video =>
      when (bool_decide (2 ≤ readyState video))
        (renderFrame (fpsNow env);;
         t ← getThis;
         when (present (pose t) && showPose t) (send env Pose);;
         t ← getThis;
         when (present (faceMesh t) && showFace t) (send env FaceMesh);;
         t ← getThis;
         when (present (hands t) && showHands t) (send env Hands))
  | None => mret tt
  end.

(** The [catch] clause of [processFrame], lines 574-576.  The argument of
    [log] is evaluated first: a caught [null] or [undefined] makes the
    clause itself throw. *)
Definition frame_catch (error : Thrown) : M unit :=
  message ← error_message error;
  log ("⚠️ Frame processing error: " +:+ message) LogWarning.

(** [processFrame], lines 542-579, from its call to its end. *)
Definition processFrame (env : TickEnv) : M unit :=
  t ← getThis;
  if negb (isTracking t) then mret tt else
  if lt (now env - lastFrameTime t) (frameInterval t) then
    emit RequestAnimationFrame
  else
    assign (set_lastFrameTime (now env));;
    try_catch (frame_body env) frame_catch;;
    emit RequestAnimationFrame.

(** [processFrame] is [async]: a call runs at once up to its first [await],
    which is the first [send] it makes (line 563, 567 or 571), and goes on
    when that [send] settles.  [first_send] makes that call and tells which
    detector is awaited; without a detector to send to, nothing is awaited
    and the call runs to its end at once. *)
Definition first_send : M (option Detector) :=
  t ← getThis;
  if present (pose t) && showPose t then emit (Send Pose);; mret (Some Pose)
  else if present (faceMesh t) && showFace t
  then emit (Send FaceMesh);; mret (Some FaceMesh)
  else if present (hands t) && showHands t
  then emit (Send Hands);; mret (Some Hands)
  else mret None.

(** The [try] block up to the first [await]. *)
Definition frame_body_start (env : TickEnv) : M (option Detector) :=
  t ← getThis;
  match videoElement t with
  | Some video =>
      if bool_decide (2 ≤ readyState video)
      then renderFrame (fpsNow env);; first_send
      else mret None
  | None => mret None
  end.

(** A call of [processFrame] up to its first [await]: the detector awaited,
    or [None] when the call has run to its end. *)
Definition processFrame_start (env : TickEnv) : M (option Detector) :=
  t ← getThis;
  if negb (isTracking t) then mret None else
  if lt (now env - lastFrameTime t) (frameInterval t) then
    emit RequestAnimationFrame;; mret None
  else
    assign (set_lastFrameTime (now env));;
    awaited ← try_catch (frame_body_start env)
                        (fun error => frame_catch error;; mret None);
    match awaited with
    | Some d => mret (Some d)
    | None => emit RequestAnimationFrame;; mret None
    end.

(** The [try] block from the moment the awaited [send] to [d] settles. *)
Definition frame_body_rest (env : TickEnv) (d : Detector) : M unit :=
  settle env d;;
  match d with
  | Pose =>
      t ← getThis;
      when (present (faceMesh t) && showFace t) (send env FaceMesh);;
      t ← getThis;
      when (present (hands t) && showHands t) (send env Hands)
  | FaceMesh =>
      t ← getThis;
      when (present (hands t) && showHands t) (send env Hands)
  | Hands => mret tt
  end.

(** The rest of a call of [processFrame] that awaited the [send] to [d]. *)
Definition processFrame_rest (env : TickEnv) (d : Detector) : M unit :=
  try_catch (frame_body_rest env d) frame_catch;;
  emit RequestAnimationFrame.

(** [startOptimizedTracking()], lines 538-582.  The call of [processFrame]
    on line 581, recorded as [FirstFrame], runs up to its first [await]
    before [startOptimizedTracking] returns; [env] is what the browser
    decides during that call. *)
Definition startOptimizedTracking (env : TickEnv) : M unit :=
  assign (set_isTracking true);;
  log "🎯 Starting optimized tracking loop..." LogInfo;;
  emit FirstFrame;;
  processFrame_start env;;
  mret tt.

(** ** Initialisation, lines 50-246 *)

(** Where the setup of a detector can fail: the constructor (the detector's
    script or assets did not load), [setOptions], or [onResults]. *)
Inductive Stage := AtNew | AtSetOptions | AtOnResults.

Definition fails_at (failure : option (Stage * Thrown)) (s : Stage)
    : option Thrown :=
  match failure with
  | Some (AtNew, m) => match s with AtNew => Some m | _ => None end
  | Some (AtSetOptions, m) => match s with AtSetOptions => Some m | _ => None end
  | Some (AtOnResults, m) => match s with AtOnResults => Some m | _ => None end
  | None => None
  end.

(** The three calls every [setupX] makes inside its [try]: [this.d = new
    D(..)], [this.d.setOptions(..)], [this.d.onResults(..)]. *)
Definition install (set : option Adapter -> Tracker -> Tracker)
    (failure : option (Stage * Thrown)) : M unit :=
  match fails_at failure AtNew with
  | Some m => throw_value m
  | None => assign (set (Some {| configured := false; listening := false |}))
  end;;
  match fails_at failure AtSetOptions with
  | Some m => throw_value m
  | None => assign (set (Some {| configured := true; listening := false |}))
  end;;
  match fails_at failure AtOnResults with
  | Some m => throw_value m
  | None => assign (set (Some {| configured := true; listening := true |}))
  end.

(** The detector field when [install] fails at the given stage: what it
    held before when the constructor throws, the new object otherwise. *)
Definition staged (s : Stage) (before : option Adapter) : option Adapter :=
  match s with
  | AtNew => before
  | AtSetOptions => Some {| configured := false; listening := false |}
  | AtOnResults => Some {| configured := true; listening := false |}
  end.

(** [setupPose()], lines 111-140: the [catch] rethrows. *)
Definition setupPose (failure : option (Stage * Thrown)) : M unit :=
  try_catch
    (log "🔧 Setting up MediaPipe Pose..." LogInfo;;
     install set_pose failure;;
     log "✅ MediaPipe Pose initialized" LogInfo;;
     updateStatus "pose" "active")
    (fun error =>
       message ← error_message error;
       log ("❌ Pose initialization failed: " +:+ message) LogError;;
       updateStatus "pose" "error";;
       throw_value error).

(** [setupFaceMesh()], lines 142-173 (the 100 ms pause changes nothing
    here). *)
Definition setupFaceMesh (failure : option (Stage * Thrown)) : M unit :=
  try_catch
    (log "🔧 Setting up MediaPipe FaceMesh..." LogInfo;;
     install set_faceMesh failure;;
     log "✅ MediaPipe FaceMesh initialized" LogInfo;;
     updateStatus "face" "active")
    (fun error =>
       message ← error_message error;
       log ("⚠️ FaceMesh initialization failed: " +:+ message +:+
            ". Continuing without face tracking.") LogInfo;;
       assign (set_faceMesh None);;
       assign (set_showFace false);;
       updateStatus "face" "error").

(** [setupHands()], lines 175-206. *)
Definition setupHands (failure : option (Stage * Thrown)) : M unit :=
  try_catch
    (log "🔧 Setting up MediaPipe Hands..." LogInfo;;
     install set_hands failure;;
     log "✅ MediaPipe Hands initialized" LogInfo;;
     updateStatus "hands" "active")
    (fun error =>
       message ← error_message error;
       log ("⚠️ Hands initialization failed: " +:+ message +:+
            ". Continuing without hands tracking.") LogInfo;;
       assign (set_hands None);;
       assign (set_showHands false);;
       updateStatus "hands" "error").

(** What the page, the browser and the detectors' library decide during
    [init].  [getUserMedia] is the browser's: it rejects with a
    [DOMException] or a [TypeError], which has a message. *)
Record InitEnv := {
  dom_complete : bool;               (* document.readyState === 'complete' *)
  canvas : option Canvas;            (* getElementById('tracking-canvas') *)
  context2d : bool;                  (* getContext('2d') is not null *)
  setup_failure : Detector -> option (Stage * Thrown);
  camera_failure : option string;    (* getUserMedia rejects *)
  camera : Video;                    (* the video once its metadata loaded *)
  first_tick : TickEnv               (* during the call on line 581 *)
}.

(** [setupMediaPipeSequentially()], lines 96-109. *)
Definition setupMediaPipeSequentially (env : InitEnv) : M unit :=
  log "🔧 Setting up MediaPipe modules sequentially..." LogInfo;;
  setupPose (setup_failure env Pose);;
  setupFaceMesh (setup_failure env FaceMesh);;
  setupHands (setup_failure env Hands);;
  log "✅ All MediaPipe modules initialized" LogInfo.

(** [startCamera()], lines 208-246. *)
Definition startCamera (env : InitEnv) : M unit :=
  log "📹 Starting camera..." LogInfo;;
  try_catch
    (match camera_failure env with
     | Some m => throw m
     | None => mret tt
     end;;
     log "Camera permissions granted" LogInfo;;
     t ← getThis;
     match videoElement t with
     | Some _ => assign (set_videoElement (Some (camera env)))
     | None => throw (null_write "autoplay")
     end;;
     log "✅ Camera started successfully" LogInfo;;
     updateStatus "camera" "active")
    (fun error =>
       message ← error_message error;
       log ("❌ Camera start failed: " +:+ message) LogError;;
       updateStatus "camera" "error";;
       throw "Unable to access webcam. Please ensure it is connected and permissions are granted.").

Definition dquote : string := String (Ascii.ascii_of_nat 34) EmptyString.

(** [init()], lines 50-94.  When the document is not complete yet, [init]
    logs that it waits and goes on when the [load] event arrives. *)
Definition init (env : InitEnv) : M unit :=
  log "🚀 Initializing Full Body & Face Tracker..." LogInfo;;
  try_catch
    (when (negb (dom_complete env))
       (log "⏳ Waiting for DOM to load..." LogInfo);;
     match canvas env with
     | Some c => assign (set_canvasElement (Some c))
     | None =>
         throw ("Canvas element " +:+ dquote +:+ "tracking-canvas" +:+ dquote
                +:+ " not found. Please check HTML structure.")
     end;;
     assign (set_canvasCtx (context2d env));;
     assign (set_videoElement
               (Some {| videoWidth := 0; videoHeight := 0; readyState := 0 |}));;
     setupMediaPipeSequentially env;;
     startCamera env;;
     startOptimizedTracking (first_tick env);;
     emit HideLoading;;
     log "✅ Full body tracking started" LogInfo)
    (fun error =>
       message ← error_message error;
       log ("❌ Initialization failed: " +:+ message) LogError;;
       updateStatus "camera" "error";;
       emit (ErrorModal message)).

(** ** The session: what can happen after [init] *)

Definition show_flag (d : Detector) : Tracker -> bool :=
  match d with Pose => showPose | FaceMesh => showFace | Hands => showHands end.
Definition set_show (d : Detector) : bool -> Tracker -> Tracker :=
  match d with
  | Pose => set_showPose | FaceMesh => set_showFace | Hands => set_showHands
  end.
Definition adapter (d : Detector) : Tracker -> option Adapter :=
  match d with Pose => pose | FaceMesh => faceMesh | Hands => hands end.

Inductive Event :=
| Tick (env : TickEnv)                          (* a later call of processFrame *)
| PoseDone (results : PoseResults) (now : float)
| FaceDone (results : FaceResults) (now : float)
| HandsDone (results : HandsResults) (now : float)
| VideoChanged (video : Video)                  (* the camera delivers *)
| Toggled (d : Detector) (on : bool).           (* the page's module buttons *)

Definition step (ev : Event) : M unit :=
  match ev with
  | Tick env => processFrame env
  | PoseDone results now => onPoseResults results now
  | FaceDone results now => onFaceResults results now
  | HandsDone results now => onHandsResults results now
  | VideoChanged video =>
      t ← getThis;
      when (present (videoElement t)) (assign (set_videoElement (Some video)))
  | Toggled d on => assign (set_show d on)
  end.

(** Events run one after the other; an exception escaping a listener is
    reported by the browser and the page goes on. *)
Fixpoint run (evs : list Event) (w : World) : World * list Effect :=
  match evs with
  | [] => (w, [])
  | ev :: rest =>
      let '(_, w1, e1) := step ev w in
      let '(w2, e2) := run rest w1 in
      (w2, e1 ++ e2)
  end.

(** ** Notions the properties are stated with *)

(** What [updateStatus] does to the page. *)
Definition push_status (type status : string) (doc : gmap string Element)
    : gmap string Element :=
  match doc !! (type +:+ "-status") with
  | Some _ =>
      <[type +:+ "-status" :=
          {| textContent := status; color := status_color status |}]> doc
  | None => doc
  end.



(** A page just loaded: [new FullBodyTracker()] and the page's elements. *)
Definition new_page (now : float) (doc : gmap string Element) : World :=
  {| this := constructor now; document := doc |}.

(** The worlds a session goes through: [init] on a new page, then any
    events. *)
Definition reachable (w : World) : Prop :=
  ∃ now doc env evs, w = (run evs (world (init env (new_page now doc)))).1.

(** The status shown for a module: the text of its status element. *)
Definition status_name (d : Detector) : string :=
  match d with Pose => "pose" | FaceMesh => "face" | Hands => "hands" end.
Definition status_of (d : Detector) (w : World) : option string :=
  textContent <$> document w !! (status_name d +:+ "-status").

(** A pose landmark passes the drawing threshold: [visibility > 0.3]. *)
Definition visible (p : Landmark) : Prop :=
  ∃ v, Lm.visibility p = Some v ∧ (0.3 <? v)%float = true.

(** Both endpoints of a connection exist and pass the threshold. *)
Definition both_visible (landmarks : list Landmark) (c : nat * nat) : Prop :=
  ∃ startPoint endPoint,
    landmarks !! c.1 = Some startPoint ∧ landmarks !! c.2 = Some endPoint ∧
    visible startPoint ∧ visible endPoint.

Definition is_paint (e : Effect) : bool :=
  match e with Paint _ => true | _ => false end.
Definition is_send (e : Effect) : bool :=
  match e with Send _ => true | _ => false end.

(** A run of [processFrame] rendered or dispatched. *)
Definition renders_or_dispatches (es : list Effect) : bool :=
  existsb (fun e => is_paint e || is_send e) es.

(** The runs of [processFrame], among those at the given clock readings,
    that rendered or dispatched. *)
Fixpoint accepted_ticks (ticks : list TickEnv) (w : World) : list float :=
  match ticks with
  | [] => []
  | env :: rest =>
      let r := processFrame env w in
      (if renders_or_dispatches (effects r) then [now env] else []) ++
      accepted_ticks rest (world r)
  end.

(** A run of [processFrame] at clock reading [n] during which nothing
    rejects. *)
Definition quiet_tick (n : float) : TickEnv :=
  {| now := n; fpsNow := n; rejects := fun _ => None |}.




(** A whole pixel column as a number. *)
Definition pixel (n : nat) : float :=
  PrimFloat.of_uint63 (Uint63.of_Z (Z.of_nat n)).


Definition ready : Adapter := {| configured := true; listening := true |}.





#[export] Instance Detector_eq_dec : EqDecision Detector.
Proof. solve_decision. Defined.

(** A page with the four status elements and the rate display, still
    loading when [init] is called (the script calls it on
    [DOMContentLoaded]), a camera that delivers 640x480 frames, the setup
    failures given, and a simulated clock that stands at 0 throughout
    [init], as in the spec's scheduler scenario (ticks at 0, 10, 20 and
    40 ms): the call of [processFrame] that [init] makes, at 0, is then
    stopped by the rate limit. *)
Definition placeholder : Element :=
  {| textContent := "..."; color := EmptyString |}.
Definition page : gmap string Element :=
  list_to_map
    [("camera-status", placeholder); ("pose-status", placeholder);
     ("face-status", placeholder); ("hands-status", placeholder);
     ("fps-display", placeholder)].
Definition studio (failure : Detector → option (Stage * Thrown)) : InitEnv :=
  {| dom_complete := false;
     canvas := Some {| width := 300; height := 150 |};
     context2d := true;
     setup_failure := failure;
     camera_failure := None;
     camera := {| videoWidth := 640; videoHeight := 480; readyState := 4 |};
     first_tick := quiet_tick 0 |}.
Definition no_failure : Detector → option (Stage * Thrown) := λ _, None.
Definition fails (d : Detector) (message : string)
    : Detector → option (Stage * Thrown) :=
  λ d', if decide (d' = d) then Some (AtNew, Exception message) else None.

(** The session right after a successful [init]. *)
Definition started : World := world (init (studio no_failure) (new_page 0 page)).

(** The session right after an [init] during which the Hands constructor
    threw. *)
Definition started_without_hands : World :=
  world (init (studio (fails Hands "Hands is not defined")) (new_page 0 page)).

Definition sample_point : Landmark :=
  Lm.mk 0.5 0.5 0 (Some 0.9%float).

(** ** Notions the proofs are organised with *)

(** The double mirror of the column [fp] on a canvas [fW] wide gives [fp]
    back, bit for bit. *)
Definition mirror_round_trip (fW fp : float) : bool :=
  PrimFloat.Leibniz.eqb (flipX (flipX fp fW) fW) fp.

(** [inv P Q m]: started where the tracker satisfies [P], the method [m]
    leaves a tracker that satisfies [P], whether it returns or throws, and
    every effect it emits satisfies [Q]. *)
Definition inv {A} (P : Tracker → Prop) (Q : Effect → Prop) (m : M A) : Prop :=
  ∀ w, P (this w) → P (this (world (m w))) ∧ Forall Q (effects (m w)).

(** [keeps_page m]: the method [m] writes to no element of the page. *)
Definition keeps_page {A} (m : M A) : Prop :=
  ∀ w, document (world (m w)) = document w.

(** [keeps_element id m]: the method [m] leaves the element [id] of the page
    as it is. *)
Definition keeps_element {A} (id : string) (m : M A) : Prop :=
  ∀ w, document (world (m w)) !! id = document w !! id.

(** What a method may emit and write, as conditions on [Q] and [P]. *)
Definition may_log (Q : Effect → Prop) : Prop :=
  ∀ type message, Q (Console type message).
Definition may_paint (Q : Effect → Prop) : Prop := ∀ o, Q (Paint o).
Definition stable (P : Tracker → Prop) (f : Tracker → Tracker) : Prop :=
  ∀ t, P t → P (f t).

(** A field that none of the assignments made during a session touches,
    the page's module buttons apart. *)
Definition session_constant {X} (f : Tracker → X) : Prop :=
  (∀ v t, f (set_poseLandmarks v t) = f t) ∧
  (∀ v t, f (set_poseWorldLandmarks v t) = f t) ∧
  (∀ v t, f (set_faceLandmarks v t) = f t) ∧
  (∀ v t, f (set_handsLandmarks v t) = f t) ∧
  (∀ v t, f (set_lastLogTime v t) = f t) ∧
  (∀ v t, f (set_canvasElement v t) = f t) ∧
  (∀ v t, f (set_frameCount v t) = f t) ∧
  (∀ v t, f (set_fps v t) = f t) ∧
  (∀ v t, f (set_lastFpsTime v t) = f t) ∧
  (∀ v t, f (set_lastFrameTime v t) = f t) ∧
  (∀ v t, f (set_videoElement v t) = f t) ∧
  (∀ d v t, f (set_show d v t) = f t).

(** [raises_errors m]: whatever [m] throws has a message. *)
Definition raises_errors {A} (m : M A) : Prop :=
  ∀ w, match result (m w) with
       | Throw error => ∃ message, error = Exception message
       | Ok _ => True
       end.

(** The world and the trace of the call of [processFrame] that
    [startOptimizedTracking] makes in the world [w], up to its first
    [await]. *)
Definition tracking (w : World) : World :=
  {| this := set_isTracking true (this w); document := document w |}.
Definition after_first_call (env : TickEnv) (w : World) : World :=
  world (processFrame_start env (tracking w)).
Definition first_call_effects (env : TickEnv) (w : World) : list Effect :=
  effects (processFrame_start env (tracking w)).

(** A field that none of the assignments of a tick touches. *)
Definition tick_constant {X} (f : Tracker → X) : Prop :=
  (∀ v t, f (set_canvasElement v t) = f t) ∧
  (∀ v t, f (set_frameCount v t) = f t) ∧
  (∀ v t, f (set_fps v t) = f t) ∧
  (∀ v t, f (set_lastFpsTime v t) = f t) ∧
  (∀ v t, f (set_lastFrameTime v t) = f t).

(** A field that none of the assignments of [init] touches, those of the
    call of [processFrame] it makes included. *)
Definition init_constant {X} (f : Tracker → X) : Prop :=
  (∀ v t, f (set_canvasElement v t) = f t) ∧
  (∀ v t, f (set_canvasCtx v t) = f t) ∧
  (∀ v t, f (set_videoElement v t) = f t) ∧
  (∀ v t, f (set_pose v t) = f t) ∧
  (∀ v t, f (set_faceMesh v t) = f t) ∧
  (∀ v t, f (set_hands v t) = f t) ∧
  (∀ v t, f (set_showFace v t) = f t) ∧
  (∀ v t, f (set_showHands v t) = f t) ∧
  (∀ v t, f (set_isTracking v t) = f t) ∧
  tick_constant f.

(** Sample payloads. *)
Definition one_face : FaceResults :=
  {| multiFaceLandmarks := Some [replicate 468 sample_point] |}.
Definition one_hand : HandsResults :=
  {| multiHandLandmarks := Some [replicate 21 sample_point] |}.
Definition a_pose : PoseResults :=
  {| r_poseLandmarks := Some (replicate 33 sample_point);
     r_poseWorldLandmarks := Some (replicate 33 sample_point) |}.
Definition no_pose : PoseResults :=
  {| r_poseLandmarks := None; r_poseWorldLandmarks := None |}.

(** ** The error modal and the loading screen, lines 635-672 and 689-694 *)

(** The element [error-modal] once it exists: its [style.display] and the
    message written into its [innerHTML] when it was created. *)
Record Modal := { display : string; modal_message : string }.

(** [showErrorModal(message)], lines 642-672: the modal is created with the
    message the first time; later calls only set [display] to [flex]. *)
Definition showErrorModal (message : string) (modal : option Modal)
    : option Modal :=
  match modal with
  | None => Some {| display := "flex"; modal_message := message |}
  | Some m => Some {| display := "flex"; modal_message := modal_message m |}
  end.

(** [closeErrorModal()], lines 689-694. *)
Definition closeErrorModal (modal : option Modal) : option Modal :=
  match modal with
  | Some m => Some {| display := "none"; modal_message := modal_message m |}
  | None => None
  end.

(** What happens to the modal: an error is reported, or the user closes it. *)
Inductive ModalOp := Report (message : string) | Dismiss.

Definition modal_step (modal : option Modal) (o : ModalOp) : option Modal :=
  match o with
  | Report message => showErrorModal message modal
  | Dismiss => closeErrorModal modal
  end.

(** ** Counting what an overlay paints *)

Definition is_arc (o : Ctx.op) : bool :=
  match o with Ctx.arc _ _ _ _ _ => true | _ => false end.
Definition is_text (o : Ctx.op) : bool :=
  match o with Ctx.fillText _ _ _ | Ctx.set_font _ => true | _ => false end.

(** The dots among some canvas operations. *)
Definition dots (ops : list Ctx.op) : nat := length (filter (λ o, is_arc o = true) ops).

(** The landmarks [logPoseData] counts as visible, line 587. *)
Definition visibleLandmarks (landmarks : list Landmark) : nat :=
  length (filter (λ lm, visibility_gt lm 0.3 = true) landmarks).

(** The world after [renderFrame] ran [updateFPS] at each of the clock
    readings in turn. *)
Definition count_frames (nows : list float) (w : World) : World :=
  foldl (λ w n, world (updateFPS n w)) w nows.

(** ** Which detectors a tick sends the frame to *)

(** [this.d && this.showD], lines 562, 566 and 570. *)
Definition wanted (t : Tracker) (d : Detector) : bool :=
  present (adapter d t) && show_flag d t.

(** The order of the three [send] calls, lines 562-572. *)
Definition dispatch_order : list Detector := [Pose; FaceMesh; Hands].

(** Going through the detectors in order: each wanted one is sent the frame,
    and the first that rejects it ends the round. *)
Fixpoint dispatch_to (env : TickEnv) (t : Tracker) (ds : list Detector)
    : list Detector :=
  match ds with
  | [] => []
  | d :: rest =>
      if wanted t d then
        d :: match rejects env d with
             | Some _ => []
             | None => dispatch_to env t rest
             end
      else dispatch_to env t rest
  end.

(** [later d d']: the [send] to [d'] comes after the one to [d]. *)
Definition later (d d' : Detector) : bool :=
  match d, d' with
  | Pose, FaceMesh | Pose, Hands | FaceMesh, Hands => true
  | _, _ => false
  end.

(** The line [log] prints when the [try] block of a tick throws. *)
Definition frame_warning (t : Tracker) (failure : option string) : list Effect :=
  match failure with
  | Some message =>
      if showDebug t
      then [Console LogWarning ("⚠️ Frame processing error: " +:+ message)]
      else []
  | None => []
  end.

(** The six canvas calls of [renderFrame] on a canvas [W] by [H]. *)
Definition video_layer (W H : float) : list Ctx.op :=
  [Ctx.clearRect 0 0 W H; Ctx.save; Ctx.scale (-1) 1;
   Ctx.translate (- W) 0; Ctx.drawImage 0 0 W H; Ctx.restore].

(** [post P R m]: started where the tracker satisfies [P], if the method [m]
    returns, it leaves a tracker that satisfies [R]. *)
Definition post {A} (P R : Tracker → Prop) (m : M A) : Prop :=
  ∀ w, P (this w) → ∀ a, result (m w) = Ok a → R (this (world (m w))).

(** The log clock reads [last] and the interval is [interval]. *)
Definition log_clock (last interval : float) (t : Tracker) : Prop :=
  lastLogTime t = last ∧ logInterval t = interval.

Definition is_console (e : Effect) : bool :=
  match e with Console _ _ => true | _ => false end.

(** [showDebug] is a public field: no method writes it, a script of the page
    may. *)
Definition set_showDebug (v : bool) (t : Tracker) : Tracker :=
  {| fps := fps t; frameCount := frameCount t; lastFpsTime := lastFpsTime t;
     targetFps := targetFps t;
     lastFrameTime := lastFrameTime t; frameInterval := frameInterval t;
     lastLogTime := lastLogTime t; logInterval := logInterval t;
     isTracking := isTracking t;
     poseLandmarks := poseLandmarks t;
     poseWorldLandmarks := poseWorldLandmarks t;
     faceLandmarks := faceLandmarks t;
     handsLandmarks := handsLandmarks t;
     pose := pose t; faceMesh := faceMesh t; hands := hands t;
     videoElement := videoElement t; canvasElement := canvasElement t;
     canvasCtx := canvasCtx t;
     showPose := showPose t; showFace := showFace t;
     showHands := showHands t; showDebug := v |}.

(** A canvas operation that writes text, as an effect. *)
Definition is_label (e : Effect) : bool :=
  match e with Paint o => is_text o | _ => false end.

(** * Properties *)

(** ** The mirror transform *)

Lemma flipX_float (x width : float) : flipX x width = (width - x)%float.
Proof. reflexivity. Qed.

(** Over exact arithmetic the mirror undoes itself. *)
Lemma flipX_involutive_Q (x width : Q) : flipX (flipX x width) width == x.
Proof. unfold flipX; simpl. ring. Qed.

(** Every whole pixel column of a canvas up to 1280 wide (the widest video
    [startCamera] asks for) comes back exactly, checked column by column. *)
Lemma mirror_round_trip_all :
  let columns := pixel <$> seq 0 1281 in
  forallb (fun W => forallb (mirror_round_trip (pixel W)) (take (S W) columns))
          (seq 0 1281) = true.
Proof. vm_compute. reflexivity. Qed.

Lemma flipX_involutive_pixel (W p : nat) :
  p ≤ W → W ≤ 1280 →
  flipX (flipX (pixel p) (pixel W)) (pixel W) = pixel p.
Proof.
  intros Hp HW.
  pose proof mirror_round_trip_all as Hall. cbv zeta in Hall.
  rewrite forallb_forall in Hall.
  specialize (Hall W). rewrite in_seq in Hall.
  assert (Hrow : forallb (mirror_round_trip (pixel W))
                   (take (S W) (pixel <$> seq 0 1281)) = true)
    by (apply Hall; lia).
  rewrite <- fmap_take, take_seq, forallb_forall in Hrow.
  apply FloatAxioms.Leibniz.eqb_spec, Hrow.
  apply in_map, in_seq. lia.
Qed.

(** C1 (as amended).  [flipX(x*W, W)] is [W - x*W].  Applied twice it gives
    [x*W] back when the arithmetic is exact, and in binary64 for every whole
    pixel column of a canvas up to 1280 wide. *)
Theorem flipX_mirror :
  (∀ x W : float, flipX (mul x W) W = (W - x * W)%float) ∧
  (∀ x W : Q, flipX (flipX (mul x W) W) W == mul x W) ∧
  (∀ W p : nat, p ≤ W → W ≤ 1280 →
     flipX (flipX (pixel p) (pixel W)) (pixel W) = pixel p).
Proof.
  split; [ intros; reflexivity | split ].
  - intros x W. apply flipX_involutive_Q.
  - apply flipX_involutive_pixel.
Qed.

Lemma flipX_mirror_witness :
  flipX (flipX (pixel 100) (pixel 640)) (pixel 640) = pixel 100.
Proof. apply (proj2 (proj2 flipX_mirror)); lia. Defined.

(** C1 (as stated) fails in binary64: at [x = 0.001] on a canvas 640 wide,
    [x*W] is 0.64 and the double mirror gives 0.63999999999998636. *)
Lemma flipX_twice_not_identity :
  let x := 0.001%float in
  let W := 640%float in
  (0 <=? x)%float = true ∧ (x <=? 1)%float = true ∧
  flipX (flipX (mul x W) W) W ≠ mul x W.
Proof.
  cbv zeta. split; [ reflexivity | split; [ reflexivity | ] ].
  intros H.
  apply (f_equal (fun v => PrimFloat.eqb v (0.001 * 640)%float)) in H.
  vm_compute in H. discriminate.
Qed.

(** ** Reasoning about methods *)

Section Rules.
Context (P : Tracker → Prop) (Q : Effect → Prop).

Lemma inv_ret {A} (a : A) : inv P Q (mret a).
Proof. intros w Hw. split; [ exact Hw | constructor ]. Qed.

Lemma inv_throw {A} message : inv P Q (throw (A:=A) message).
Proof. intros w Hw. split; [ exact Hw | constructor ]. Qed.

Lemma inv_throw_value {A} error : inv P Q (throw_value (A:=A) error).
Proof. intros w Hw. split; [ exact Hw | constructor ]. Qed.

Lemma inv_error_message error : inv P Q (error_message error).
Proof. intros w Hw. destruct error; (split; [ exact Hw | constructor ]). Qed.

Lemma inv_emit e : Q e → inv P Q (emit e).
Proof. intros He w Hw. split; [ exact Hw | repeat constructor; exact He ]. Qed.

Lemma inv_paint ops : (∀ o, Q (Paint o)) → inv P Q (paint ops).
Proof.
  intros Hq w Hw. split; [ exact Hw | ].
  unfold paint, effects; simpl. apply Forall_fmap, Forall_true. intros o. apply Hq.
Qed.

Lemma inv_assign f : (∀ t, P t → P (f t)) → inv P Q (assign f).
Proof. intros Hf w Hw. split; [ apply Hf, Hw | constructor ]. Qed.

Lemma inv_bind {A B} (m : M A) (k : A → M B) :
  inv P Q m → (∀ a, inv P Q (k a)) → inv P Q (m ≫= k).
Proof.
  intros Hm Hk w Hw. specialize (Hm w Hw).
  unfold mbind, M_bind, world, effects in *.
  destruct (m w) as [[[a|message] w1] e1]; simpl in *; [ | exact Hm ].
  destruct Hm as [Hw1 He1]. specialize (Hk a w1 Hw1).
  unfold world, effects in Hk.
  destruct (k a w1) as [[r w2] e2]; simpl in *.
  destruct Hk as [Hw2 He2]. split; [ exact Hw2 | ].
  apply Forall_app; split; assumption.
Qed.

(** After [t ← getThis] the value read satisfies [P]. *)
Lemma inv_getThis {B} (k : Tracker → M B) :
  (∀ t, P t → inv P Q (k t)) → inv P Q (getThis ≫= k).
Proof.
  intros Hk w Hw. specialize (Hk (this w) Hw w Hw).
  unfold mbind, M_bind, getThis, world, effects in *; simpl.
  destruct (k (this w) w) as [[r w2] e2]; simpl in *. exact Hk.
Qed.

Lemma inv_try_catch {A} (body : M A) (handler : Thrown → M A) :
  inv P Q body → (∀ error, inv P Q (handler error)) →
  inv P Q (try_catch body handler).
Proof.
  intros Hm Hk w Hw. specialize (Hm w Hw).
  unfold try_catch, world, effects in *.
  destruct (body w) as [[[a|message] w1] e1]; simpl in *; [ exact Hm | ].
  destruct Hm as [Hw1 He1]. specialize (Hk message w1 Hw1).
  unfold world, effects in Hk.
  destruct (handler message w1) as [[r w2] e2]; simpl in *.
  destruct Hk as [Hw2 He2]. split; [ exact Hw2 | ].
  apply Forall_app; split; assumption.
Qed.

Lemma inv_when b (m : M unit) : inv P Q m → inv P Q (when b m).
Proof. intros Hm. destruct b; [ exact Hm | apply inv_ret ]. Qed.

Lemma inv_getElementById id : inv P Q (getElementById id).
Proof. intros w Hw. split; [ exact Hw | constructor ]. Qed.

Lemma inv_set_element id el : inv P Q (set_element id el).
Proof. intros w Hw. split; [ exact Hw | constructor ]. Qed.
End Rules.

(** One step of a proof of [inv]: follow the shape of the method. *)
Ltac inv_step :=
  first
    [ apply inv_ret
    | apply inv_throw
    | apply inv_throw_value
    | apply inv_error_message
    | apply inv_getElementById
    | apply inv_set_element
    | apply inv_getThis; intros ? ?
    | apply inv_bind; [ | intros ? ]
    | apply inv_try_catch; [ | intros ? ]
    | apply inv_when
    | match goal with
      | |- inv _ _ (match ?x with _ => _ end) => destruct x eqn:?
      end ].

(** What each method keeps, given what it may write and emit. *)
Section Footprints.
Context (P : Tracker → Prop) (Q : Effect → Prop).

Lemma inv_log message type : may_log Q → inv P Q (log message type).
Proof.
  intros Hq. unfold log. repeat inv_step. apply inv_emit, Hq.
Qed.

Lemma inv_updateStatus type status : inv P Q (updateStatus type status).
Proof. unfold updateStatus. repeat inv_step. Qed.

Lemma inv_updateTrackingStatus : inv P Q updateTrackingStatus.
Proof.
  unfold updateTrackingStatus.
  repeat first [ apply inv_updateStatus | inv_step ].
Qed.

Lemma inv_canvas_size : inv P Q canvas_size.
Proof. unfold canvas_size. repeat inv_step. Qed.

Lemma inv_require_ctx message : inv P Q (require_ctx message).
Proof. unfold require_ctx. repeat inv_step. Qed.

Lemma inv_drawPoseLandmarks : may_paint Q → inv P Q drawPoseLandmarks.
Proof.
  intros Hq. unfold drawPoseLandmarks.
  repeat first [ apply inv_canvas_size | apply inv_require_ctx
               | apply inv_paint, Hq | inv_step ].
Qed.

Lemma inv_drawFaceLandmarks : may_paint Q → inv P Q drawFaceLandmarks.
Proof.
  intros Hq. unfold drawFaceLandmarks.
  repeat first [ apply inv_canvas_size | apply inv_require_ctx
               | apply inv_paint, Hq | inv_step ].
Qed.

Lemma inv_drawHandsLandmarks : may_paint Q → inv P Q drawHandsLandmarks.
Proof.
  intros Hq. unfold drawHandsLandmarks.
  repeat first [ apply inv_canvas_size | apply inv_require_ctx
               | apply inv_paint, Hq | inv_step ].
Qed.

Lemma inv_logPoseData : may_log Q → inv P Q logPoseData.
Proof.
  intros Hq. unfold logPoseData. repeat first [ apply inv_log, Hq | inv_step ].
Qed.

Lemma inv_logFaceData : may_log Q → inv P Q logFaceData.
Proof.
  intros Hq. unfold logFaceData. repeat first [ apply inv_log, Hq | inv_step ].
Qed.

Lemma inv_logHandsData : may_log Q → inv P Q logHandsData.
Proof.
  intros Hq. unfold logHandsData. repeat first [ apply inv_log, Hq | inv_step ].
Qed.

Lemma inv_hands_nonempty : inv P Q hands_nonempty.
Proof. unfold hands_nonempty. repeat inv_step. Qed.

(** The completion listeners write their cache and [lastLogTime]. *)
Lemma inv_onPoseResults results now :
  may_log Q → may_paint Q →
  (∀ v, stable P (set_poseLandmarks v)) →
  (∀ v, stable P (set_poseWorldLandmarks v)) →
  (∀ v, stable P (set_lastLogTime v)) →
  inv P Q (onPoseResults results now).
Proof.
  intros Hl Hp H1 H2 H3. unfold stable in *. unfold onPoseResults.
  repeat first [ apply inv_assign; auto
               | apply inv_drawPoseLandmarks, Hp
               | apply inv_updateTrackingStatus
               | apply inv_logPoseData, Hl
               | inv_step ].
Qed.

Lemma inv_onFaceResults results now :
  may_log Q → may_paint Q →
  (∀ v, stable P (set_faceLandmarks v)) →
  (∀ v, stable P (set_lastLogTime v)) →
  inv P Q (onFaceResults results now).
Proof.
  intros Hl Hp H1 H2. unfold stable in *. unfold onFaceResults.
  repeat first [ apply inv_assign; auto
               | apply inv_drawFaceLandmarks, Hp
               | apply inv_logFaceData, Hl
               | inv_step ].
Qed.

Lemma inv_onHandsResults results now :
  may_log Q → may_paint Q →
  (∀ v, stable P (set_handsLandmarks v)) →
  (∀ v, stable P (set_lastLogTime v)) →
  inv P Q (onHandsResults results now).
Proof.
  intros Hl Hp H1 H2. unfold stable in *. unfold onHandsResults.
  repeat first [ apply inv_assign; auto
               | apply inv_drawHandsLandmarks, Hp
               | apply inv_hands_nonempty
               | apply inv_logHandsData, Hl
               | inv_step ].
Qed.

(** [renderFrame] writes the canvas size and the frame counters. *)
Lemma inv_updateFPS now :
  (∀ v, stable P (set_frameCount v)) → (∀ v, stable P (set_fps v)) →
  (∀ v, stable P (set_lastFpsTime v)) →
  inv P Q (updateFPS now).
Proof.
  intros H1 H2 H3. unfold stable in *. unfold updateFPS.
  repeat first [ apply inv_assign; solve [ auto | intros t; apply H1 ]
               | inv_step ].
Qed.

Lemma inv_resizeCanvas :
  (∀ c, stable P (set_canvasElement (Some c))) → inv P Q resizeCanvas.
Proof.
  intros H1. unfold stable in *. unfold resizeCanvas.
  repeat first [ apply inv_assign; auto | inv_step ].
Qed.

Lemma inv_renderFrame now :
  may_paint Q →
  (∀ c, stable P (set_canvasElement (Some c))) →
  (∀ v, stable P (set_frameCount v)) → (∀ v, stable P (set_fps v)) →
  (∀ v, stable P (set_lastFpsTime v)) →
  inv P Q (renderFrame now).
Proof.
  intros Hp H0 H1 H2 H3. unfold renderFrame.
  repeat first [ apply inv_resizeCanvas, H0
               | apply inv_require_ctx | apply inv_canvas_size
               | apply inv_paint, Hp
               | apply inv_updateFPS; assumption
               | inv_step ].
Qed.
End Footprints.

Section Loop.
Context (P : Tracker → Prop) (Q : Effect → Prop).

Lemma inv_settle env d : inv P Q (settle env d).
Proof. unfold settle. repeat inv_step. Qed.

Lemma inv_send env d : Q (Send d) → inv P Q (send env d).
Proof.
  intros Hq. unfold send.
  repeat first [ apply inv_emit, Hq | apply inv_settle | inv_step ].
Qed.

Lemma inv_ret_bind {A B} (a : A) (k : A → M B) :
  inv P Q (k a) → inv P Q (mret a ≫= k).
Proof.
  intros Hk w Hw. specialize (Hk w Hw).
  unfold mbind, M_bind, mret, M_ret, world, effects in *; simpl.
  destruct (k a w) as [[r w2] e2]; simpl in *. exact Hk.
Qed.

(** The [try] block when every detector may be sent to. *)
Lemma inv_frame_body env :
  may_paint Q → (∀ d, Q (Send d)) →
  (∀ c, stable P (set_canvasElement (Some c))) →
  (∀ v, stable P (set_frameCount v)) → (∀ v, stable P (set_fps v)) →
  (∀ v, stable P (set_lastFpsTime v)) →
  inv P Q (frame_body env).
Proof.
  intros Hp Hs H0 H1 H2 H3. unfold frame_body.
  repeat first [ apply inv_renderFrame; assumption
               | apply inv_send, Hs
               | inv_step ].
Qed.

Lemma inv_processFrame env :
  inv P Q (frame_body env) →
  may_log Q → Q RequestAnimationFrame →
  (∀ v, stable P (set_lastFrameTime v)) →
  inv P Q (processFrame env).
Proof.
  intros Hbody Hl Hr H1. unfold stable in *. unfold processFrame.
  repeat first [ apply inv_assign; auto
               | apply inv_emit, Hr
               | exact Hbody
               | apply inv_log, Hl
               | inv_step ].
Qed.

(** The two parts of a call of [processFrame]. *)
Lemma inv_frame_catch error : may_log Q → inv P Q (frame_catch error).
Proof.
  intros Hl. unfold frame_catch.
  repeat first [ apply inv_log, Hl | inv_step ].
Qed.

Lemma inv_first_send : (∀ d, Q (Send d)) → inv P Q first_send.
Proof.
  intros Hs. unfold first_send.
  apply inv_getThis; intros t _.
  repeat match goal with
         | |- inv _ _ (if ?b then _ else _) => destruct b
         end;
    repeat first [ apply inv_emit, Hs | inv_step ].
Qed.

Lemma inv_frame_body_start env :
  may_paint Q → (∀ d, Q (Send d)) →
  (∀ c, stable P (set_canvasElement (Some c))) →
  (∀ v, stable P (set_frameCount v)) → (∀ v, stable P (set_fps v)) →
  (∀ v, stable P (set_lastFpsTime v)) →
  inv P Q (frame_body_start env).
Proof.
  intros Hp Hs H0 H1 H2 H3. unfold frame_body_start.
  apply inv_getThis; intros t _.
  destruct (videoElement t) as [video|]; [ | apply inv_ret ].
  destruct (bool_decide (2 ≤ readyState video)); [ | apply inv_ret ].
  apply inv_bind; [ apply inv_renderFrame; assumption | intros _ ].
  apply inv_first_send, Hs.
Qed.

Lemma inv_processFrame_start env :
  inv P Q (frame_body_start env) →
  may_log Q → Q RequestAnimationFrame →
  (∀ v, stable P (set_lastFrameTime v)) →
  inv P Q (processFrame_start env).
Proof.
  intros Hbody Hl Hr H1. unfold stable in *. unfold processFrame_start.
  apply inv_getThis; intros t _.
  destruct (negb (isTracking t)); [ apply inv_ret | ].
  destruct (lt _ _).
  { apply inv_bind; [ apply inv_emit, Hr | intros _; apply inv_ret ]. }
  apply inv_bind; [ apply inv_assign; auto | intros _ ].
  apply inv_bind.
  - apply inv_try_catch; [ exact Hbody | intros error ].
    apply inv_bind; [ apply inv_frame_catch, Hl | intros _; apply inv_ret ].
  - intros [d|]; [ apply inv_ret | ].
    apply inv_bind; [ apply inv_emit, Hr | intros _; apply inv_ret ].
Qed.

Lemma inv_frame_body_rest env d :
  (∀ d', Q (Send d')) → inv P Q (frame_body_rest env d).
Proof.
  intros Hs. unfold frame_body_rest.
  apply inv_bind; [ apply inv_settle | intros _ ].
  destruct d; repeat first [ apply inv_send, Hs | inv_step ].
Qed.

Lemma inv_processFrame_rest env d :
  (∀ d', Q (Send d')) → may_log Q → Q RequestAnimationFrame →
  inv P Q (processFrame_rest env d).
Proof.
  intros Hs Hl Hr. unfold processFrame_rest.
  apply inv_bind; [ | intros _; apply inv_emit, Hr ].
  apply inv_try_catch; [ apply inv_frame_body_rest, Hs | intros error ].
  apply inv_frame_catch, Hl.
Qed.

(** Events, one after the other. *)
Lemma inv_run :
  (∀ ev, inv P Q (step ev)) →
  ∀ evs w, P (this w) → P (this (run evs w).1) ∧ Forall Q (run evs w).2.
Proof.
  intros Hstep evs. induction evs as [|ev rest IH]; intros w Hw; simpl.
  - split; [ exact Hw | constructor ].
  - specialize (Hstep ev w Hw). unfold world, effects in Hstep.
    destruct (step ev w) as [[r w1] e1]; simpl in Hstep.
    destruct Hstep as [Hw1 He1]. specialize (IH w1 Hw1).
    destruct (run rest w1) as [w2 e2]; simpl in *.
    destruct IH as [Hw2 He2]. split; [ exact Hw2 | ].
    apply Forall_app; split; assumption.
Qed.
End Loop.

(** *** What no event changes *)

Ltac session_constant :=
  unfold session_constant; repeat split; intros;
  repeat match goal with d : Detector |- _ => destruct d end; reflexivity.


Lemma showDebug_session_constant : session_constant showDebug.
Proof. session_constant. Qed.

Lemma isTracking_session_constant : session_constant isTracking.
Proof. session_constant. Qed.

(** An event keeps the value of such a field, provided the effects it may
    emit are allowed and whatever it sends is. *)
Lemma inv_step_constant {X} (f : Tracker → X) (x : X) (Q : Effect → Prop) ev :
  session_constant f →
  may_log Q → may_paint Q → Q RequestAnimationFrame →
  (∀ env, inv (λ t, f t = x) Q (frame_body env)) →
  inv (λ t, f t = x) Q (step ev).
Proof.
  intros (H1 & H2 & H3 & H4 & H5 & H6 & H7 & H8 & H9 & H10 & H11 & H12)
         Hl Hp Hr Hbody.
  destruct ev as [env|results now|results now|results now|video|d on]; simpl.
  - apply inv_processFrame; auto.
    intros v t Ht. rewrite H10. exact Ht.
  - apply inv_onPoseResults; auto; intros v t Ht;
      [ rewrite H1 | rewrite H2 | rewrite H5 ]; exact Ht.
  - apply inv_onFaceResults; auto; intros v t Ht;
      [ rewrite H3 | rewrite H5 ]; exact Ht.
  - apply inv_onHandsResults; auto; intros v t Ht;
      [ rewrite H4 | rewrite H5 ]; exact Ht.
  - repeat first [ apply inv_assign; intros ? Hx; rewrite H11; exact Hx
                 | inv_step ].
  - apply inv_assign. intros t Ht. rewrite H12. exact Ht.
Qed.

(** ** Running methods *)

Lemma bind_run {A B} (m : M A) (k : A → M B) w :
  (m ≫= k) w =
  match m w with
  | (Ok a, w1, e1) => let '(r, w2, e2) := k a w1 in (r, w2, e1 ++ e2)
  | (Throw message, w1, e1) => (Throw message, w1, e1)
  end.
Proof. reflexivity. Qed.

Lemma updateStatus_run type status w :
  updateStatus type status w =
  (Ok tt,
   {| this := this w; document := push_status type status (document w) |},
   []).
Proof.
  unfold updateStatus, push_status, getElementById, set_element, mbind, M_bind.
  simpl. destruct (document w !! (type +:+ "-status")); simpl; [ reflexivity | ].
  destruct w; reflexivity.
Qed.

Lemma log_run message type w :
  log message type w =
  (Ok tt, w, if showDebug (this w) then [Console type message] else []).
Proof.
  unfold log, mbind, M_bind, getThis; simpl.
  destruct (showDebug (this w)); reflexivity.
Qed.

Lemma when_log_run b message type w :
  when b (log message type) w =
  (Ok tt, w, if b && showDebug (this w) then [Console type message] else []).
Proof. destruct b; [ apply log_run | reflexivity ]. Qed.

Lemma install_run set w :
  install set None w =
  (Ok tt,
   {| this := set (Some {| configured := true; listening := true |})
                (set (Some {| configured := true; listening := false |})
                   (set (Some {| configured := false; listening := false |})
                      (this w)));
      document := document w |},
   []).
Proof. reflexivity. Qed.

Lemma install_pose_fails_run stage error w :
  install set_pose (Some (stage, error)) w =
  (Throw error,
   {| this := set_pose (staged stage (pose (this w))) (this w);
      document := document w |},
   []).
Proof. destruct stage, w as [[] ?]; reflexivity. Qed.

Lemma install_faceMesh_fails_run stage error w :
  install set_faceMesh (Some (stage, error)) w =
  (Throw error,
   {| this := set_faceMesh (staged stage (faceMesh (this w))) (this w);
      document := document w |},
   []).
Proof. destruct stage, w as [[] ?]; reflexivity. Qed.

Lemma install_hands_fails_run stage error w :
  install set_hands (Some (stage, error)) w =
  (Throw error,
   {| this := set_hands (staged stage (hands (this w))) (this w);
      document := document w |},
   []).
Proof. destruct stage, w as [[] ?]; reflexivity. Qed.

Lemma try_catch_run {A} (body : M A) handler w :
  try_catch body handler w =
  match body w with
  | (Ok a, w1, e1) => (Ok a, w1, e1)
  | (Throw message, w1, e1) =>
      let '(r, w2, e2) := handler message w1 in (r, w2, e1 ++ e2)
  end.
Proof. reflexivity. Qed.

Lemma assign_run f w :
  assign f w = (Ok tt, {| this := f (this w); document := document w |}, []).
Proof. reflexivity. Qed.

Lemma emit_run e w : emit e w = (Ok tt, w, [e]).
Proof. reflexivity. Qed.

Lemma throw_run {A} message w :
  throw (A:=A) message w = (Throw (Exception message), w, []).
Proof. reflexivity. Qed.

Lemma throw_value_run {A} error w :
  throw_value (A:=A) error w = (Throw error, w, []).
Proof. reflexivity. Qed.

Lemma error_message_run message w :
  error_message (Exception message) w = (Ok message, w, []).
Proof. reflexivity. Qed.

Lemma error_message_null_run w :
  error_message ThrownNull w = (Throw (Exception (null_read "message")), w, []).
Proof. reflexivity. Qed.

Lemma error_message_undefined_run w :
  error_message ThrownUndefined w =
  (Throw (Exception (undefined_read "message")), w, []).
Proof. reflexivity. Qed.

Lemma ret_run {A} (a : A) w : (mret a : M A) w = (Ok a, w, []).
Proof. reflexivity. Qed.

Lemma getThis_run w : getThis w = (Ok (this w), w, []).
Proof. reflexivity. Qed.

(** Unfold the next method call of the hypothesis [H] and reduce the record
    projections it exposes; [updateStatus] is kept as [push_status] on the
    page. *)
Ltac run_rewrite_in H :=
  first [ rewrite bind_run in H | rewrite try_catch_run in H
        | rewrite when_log_run in H
        | rewrite install_run in H | rewrite install_pose_fails_run in H
        | rewrite install_faceMesh_fails_run in H
        | rewrite install_hands_fails_run in H
        | rewrite log_run in H | rewrite updateStatus_run in H
        | rewrite assign_run in H | rewrite emit_run in H
        | rewrite throw_run in H | rewrite throw_value_run in H
        | rewrite error_message_run in H
        | rewrite error_message_null_run in H
        | rewrite error_message_undefined_run in H
        | rewrite getThis_run in H
        | rewrite ret_run in H ].

Ltac run_reduce_in H :=
  cbv beta iota zeta delta
    [this document world result effects fst snd new_page constructor
     fps frameCount lastFpsTime targetFps frameInterval lastFrameTime
     logInterval lastLogTime isTracking poseLandmarks poseWorldLandmarks
     faceLandmarks handsLandmarks pose faceMesh hands videoElement
     canvasElement canvasCtx showPose showFace showHands showDebug
     set_pose set_faceMesh set_hands set_showFace set_showHands
     set_videoElement set_canvasElement set_canvasCtx set_isTracking
     set_lastFrameTime
     dom_complete canvas context2d setup_failure camera_failure camera
     first_tick negb app] in H.

Ltac run_step_in H := run_rewrite_in H; run_reduce_in H.

Lemma lookup_push_status type status doc id :
  push_status type status doc !! id =
  if decide (id = type +:+ "-status")
  then match doc !! id with
       | Some _ => Some {| textContent := status; color := status_color status |}
       | None => None
       end
  else doc !! id.
Proof.
  unfold push_status. case_decide as Hid.
  - subst id. destruct (doc !! (type +:+ "-status")) eqn:Hdoc.
    + apply lookup_insert_eq.
    + exact Hdoc.
  - destruct (doc !! (type +:+ "-status")); [ | reflexivity ].
    apply lookup_insert_ne. congruence.
Qed.

(** An assignment establishes [P]; what follows keeps it. *)
Lemma inv_after_assign {B} (P : Tracker → Prop) (Q : Effect → Prop) f
    (k : unit → M B) :
  (∀ t, P (f t)) → inv P Q (k tt) →
  ∀ w, P (this (world ((assign f ≫= k) w))) ∧
       Forall Q (effects ((assign f ≫= k) w)).
Proof.
  intros Hf Hk w. rewrite bind_run. unfold assign.
  specialize (Hk {| this := f (this w); document := document w |} (Hf _)).
  unfold world, effects in *.
  destruct (k tt _) as [[r w2] e2]; simpl in *. exact Hk.
Qed.

(** ** The status display *)

(** C9.  With no status element for the module on the page, pushing a
    status returns normally and changes nothing: no element is written, no
    effect is emitted. *)
Theorem updateStatus_absent_element (type status : string) (w : World) :
  document w !! (type +:+ "-status") = None →
  updateStatus type status w = (Ok tt, w, []).
Proof.
  intros Habsent. rewrite updateStatus_run. unfold push_status.
  rewrite Habsent. destruct w; reflexivity.
Qed.

Lemma updateStatus_absent_element_witness :
  updateStatus "hands" "error" (new_page 0 ∅) = (Ok tt, new_page 0 ∅, []).
Proof. apply updateStatus_absent_element. reflexivity. Defined.

(** Pushing a status never throws, element or not. *)
Lemma updateStatus_returns type status w :
  result (updateStatus type status w) = Ok tt.
Proof. rewrite updateStatus_run. reflexivity. Qed.

Lemma updateTrackingStatus_returns w hs :
  handsLandmarks (this w) = Some hs → result (updateTrackingStatus w) = Ok tt.
Proof.
  intros Hhs. unfold updateTrackingStatus, mbind, M_bind, getThis; simpl.
  rewrite Hhs. rewrite !updateStatus_run. reflexivity.
Qed.

(** ** The caches after a completion *)

Lemma onHandsResults_cache results now w :
  handsLandmarks (this (world (onHandsResults results now w))) =
  Some (default [] (multiHandLandmarks results)).
Proof.
  unfold onHandsResults.
  apply (inv_after_assign
           (λ t, handsLandmarks t = Some (default [] (multiHandLandmarks results)))
           (λ _, True)); [ reflexivity | ].
  repeat first [ apply inv_hands_nonempty
               | apply inv_drawHandsLandmarks; intros ?; exact I
               | apply inv_logHandsData; intros ? ?; exact I
               | apply inv_assign; intros ? Hx; exact Hx
               | inv_step ].
Qed.

Lemma onFaceResults_cache results now w :
  faceLandmarks (this (world (onFaceResults results now w))) = first_face results.
Proof.
  unfold onFaceResults.
  apply (inv_after_assign (λ t, faceLandmarks t = first_face results) (λ _, True));
    [ reflexivity | ].
  repeat first [ apply inv_drawFaceLandmarks; intros ?; exact I
               | apply inv_logFaceData; intros ? ?; exact I
               | apply inv_assign; intros ? Hx; exact Hx
               | inv_step ].
Qed.

(** C10.  After a hands completion the cache is an array: the payload's
    array, or the empty array when the payload has none; reading its length
    in [updateTrackingStatus] then never throws.  After a face completion
    the cache is the first face of the payload, or [null] when there is
    none. *)
Theorem completion_caches (hands_payload : HandsResults)
    (face_payload : FaceResults) (now : float) (w : World) :
  let wh := world (onHandsResults hands_payload now w) in
  let wf := world (onFaceResults face_payload now w) in
  handsLandmarks (this wh) =
    match multiHandLandmarks hands_payload with
    | Some found => Some found
    | None => Some []
    end ∧
  result (updateTrackingStatus wh) = Ok tt ∧
  faceLandmarks (this wf) =
    match multiFaceLandmarks face_payload with
    | Some (face :: _) => Some face
    | _ => None
    end.
Proof.
  cbv zeta. split; [ | split ].
  - rewrite onHandsResults_cache.
    destruct (multiHandLandmarks hands_payload); reflexivity.
  - eapply updateTrackingStatus_returns, onHandsResults_cache.
  - rewrite onFaceResults_cache. unfold first_face.
    destruct (multiFaceLandmarks face_payload) as [[|face faces]|]; reflexivity.
Qed.

(** ** The pose skeleton *)

Lemma visibility_gt_visible p : visibility_gt p 0.3 = true ↔ visible p.
Proof.
  unfold visibility_gt, visible, gt. destruct (Lm.visibility p) as [v|].
  - split; [ intros Hv; exists v; split; [ reflexivity | exact Hv ] | ].
    intros (v' & Heq & Hv). injection Heq as <-. exact Hv.
  - split; [ discriminate | ]. intros (v' & Heq & _). discriminate.
Qed.

(** The body of the loop over the connections: for two visible endpoints
    the four canvas calls of lines 360-363, with the mirrored columns
    written out; nothing otherwise. *)
Lemma pose_connection_spec (W H : float) (landmarks : list Landmark)
    (c : nat * nat) :
  (both_visible landmarks c →
   ∃ startPoint endPoint,
     landmarks !! c.1 = Some startPoint ∧ landmarks !! c.2 = Some endPoint ∧
     pose_connection W H landmarks c =
     [Ctx.beginPath;
      Ctx.moveTo (W - Lm.x startPoint * W) (Lm.y startPoint * H);
      Ctx.lineTo (W - Lm.x endPoint * W) (Lm.y endPoint * H);
      Ctx.stroke]) ∧
  (¬ both_visible landmarks c → pose_connection W H landmarks c = []) ∧
  (∀ startPoint endPoint,
     landmarks !! c.1 = Some startPoint → landmarks !! c.2 = Some endPoint →
     Lm.visibility startPoint = Some 0.3%float ∨
     Lm.visibility endPoint = Some 0.3%float →
     pose_connection W H landmarks c = []).
Proof.
  unfold pose_connection, both_visible. repeat split.
  - intros (a & b & Ha & Hb & Hva & Hvb). exists a, b.
    rewrite Ha, Hb. apply visibility_gt_visible in Hva, Hvb.
    rewrite Hva, Hvb. repeat split.
  - intros Hnot.
    destruct (landmarks !! c.1) as [a|]; [ | reflexivity ].
    destruct (landmarks !! c.2) as [b|]; [ | reflexivity ].
    destruct (visibility_gt a 0.3) eqn:Ha; [ | reflexivity ].
    destruct (visibility_gt b 0.3) eqn:Hb; [ | reflexivity ].
    exfalso. apply Hnot. exists a, b.
    rewrite <- !visibility_gt_visible. auto.
  - intros a b -> -> [Hv|Hv]; unfold visibility_gt; rewrite Hv.
    + reflexivity.
    + destruct (match Lm.visibility a with Some v => gt v 0.3 | None => false end);
        reflexivity.
Qed.

(** What [drawPoseLandmarks] paints when the overlay is on and the canvas is
    there. *)
Lemma drawPoseLandmarks_run w cv :
  showPose (this w) = true → canvasElement (this w) = Some cv →
  canvasCtx (this w) = true →
  drawPoseLandmarks w =
  (Ok tt, w,
   match poseLandmarks (this w) with
   | Some landmarks =>
       Paint <$> pose_ops (width cv) (height cv) (showDebug (this w)) landmarks
   | None => []
   end).
Proof.
  intros Hshow Hcv Hctx.
  unfold drawPoseLandmarks, canvas_size, require_ctx, mbind, M_bind, getThis.
  simpl. destruct (poseLandmarks (this w)); [ | reflexivity ].
  rewrite Hshow; simpl. rewrite Hcv; simpl. rewrite Hctx; simpl. reflexivity.
Qed.

(** C2.  With the pose overlay on, [drawPoseLandmarks] paints nothing for an
    absent pose result; for a present one it paints the three style
    settings, then what the loop body gives for each connection of the fixed
    list in turn, then the key points.  For a connection of the list, when
    both endpoints exist and both have a visibility strictly above 0.3, the
    body draws the segment: [beginPath], [moveTo] the mirrored start point,
    [lineTo] the mirrored end point, [stroke]; otherwise it draws nothing,
    and an endpoint whose visibility is exactly 0.3 is such a case. *)
Theorem pose_connection_drawn_iff (w : World) (cv : Canvas) (c : nat * nat) :
  showPose (this w) = true → canvasElement (this w) = Some cv →
  canvasCtx (this w) = true → c ∈ pose_connections →
  let W := width cv in
  let H := height cv in
  match poseLandmarks (this w) with
  | None => effects (drawPoseLandmarks w) = []
  | Some landmarks =>
      effects (drawPoseLandmarks w) =
        Paint <$>
          ([Ctx.set_strokeStyle "#00FF00"; Ctx.set_lineWidth 3;
            Ctx.set_fillStyle "#00FF00"] ++
           mjoin (pose_connection W H landmarks <$> pose_connections) ++
           mjoin (imap (pose_point W H (showDebug (this w))) landmarks)) ∧
      (both_visible landmarks c →
       ∃ startPoint endPoint,
         landmarks !! c.1 = Some startPoint ∧
         landmarks !! c.2 = Some endPoint ∧
         pose_connection W H landmarks c =
         [Ctx.beginPath;
          Ctx.moveTo (W - Lm.x startPoint * W) (Lm.y startPoint * H);
          Ctx.lineTo (W - Lm.x endPoint * W) (Lm.y endPoint * H);
          Ctx.stroke]) ∧
      (¬ both_visible landmarks c → pose_connection W H landmarks c = []) ∧
      (∀ startPoint endPoint,
         landmarks !! c.1 = Some startPoint → landmarks !! c.2 = Some endPoint →
         Lm.visibility startPoint = Some 0.3%float ∨
         Lm.visibility endPoint = Some 0.3%float →
         pose_connection W H landmarks c = [])
  end.
Proof.
  intros Hshow Hcv Hctx _. cbv zeta.
  rewrite (drawPoseLandmarks_run w cv Hshow Hcv Hctx).
  destruct (poseLandmarks (this w)) as [landmarks|]; [ | reflexivity ].
  split; [ reflexivity | apply pose_connection_spec ].
Qed.

Lemma pose_connection_drawn_iff_witness :
  let p := Lm.mk 0.25 0.5 0 (Some 0.9%float) in
  let q := Lm.mk 0.5 0.5 0 (Some 0.3%float) in
  (∃ startPoint endPoint,
     replicate 33 p !! 11 = Some startPoint ∧
     replicate 33 p !! 12 = Some endPoint ∧
     pose_connection 640 480 (replicate 33 p) (11, 12) =
     [Ctx.beginPath;
      Ctx.moveTo (640 - Lm.x startPoint * 640) (Lm.y startPoint * 480);
      Ctx.lineTo (640 - Lm.x endPoint * 640) (Lm.y endPoint * 480);
      Ctx.stroke]) ∧
  pose_connection 640 480 (replicate 33 q) (11, 12) = [].
Proof.
  cbv zeta. split.
  - pose proof (pose_connection_drawn_iff
                  {| this := set_poseLandmarks
                               (Some (replicate 33 (Lm.mk 0.25 0.5 0 (Some 0.9%float))))
                               (set_canvasElement
                                  (Some {| width := 640; height := 480 |})
                                  (this started));
                     document := page |}
                  {| width := 640; height := 480 |} (11, 12)) as Hspec.
    simpl in Hspec.
    refine (proj1 (proj2 (Hspec _ _ _ _)) _).
    + reflexivity.
    + reflexivity.
    + reflexivity.
    + constructor.
    + exists (Lm.mk 0.25 0.5 0 (Some 0.9%float)),
             (Lm.mk 0.25 0.5 0 (Some 0.9%float)).
      repeat split; eexists; split; reflexivity.
  - pose proof (pose_connection_drawn_iff
                  {| this := set_poseLandmarks
                               (Some (replicate 33 (Lm.mk 0.5 0.5 0 (Some 0.3%float))))
                               (set_canvasElement
                                  (Some {| width := 640; height := 480 |})
                                  (this started));
                     document := page |}
                  {| width := 640; height := 480 |} (11, 12)) as Hspec.
    simpl in Hspec.
    refine (proj2 (proj2 (proj2 (Hspec _ _ _ _))) _ _ _ _ _).
    + reflexivity.
    + reflexivity.
    + reflexivity.
    + constructor.
    + reflexivity.
    + reflexivity.
    + left. reflexivity.
Defined.

(** ** A tick that comes too early *)

(** A tick that comes too early reschedules itself and does nothing else. *)
Lemma processFrame_skips env w :
  isTracking (this w) = true →
  lt (now env - lastFrameTime (this w)) (frameInterval (this w)) = true →
  processFrame env w = (Ok tt, w, [RequestAnimationFrame]).
Proof.
  intros Htracking Hearly.
  unfold processFrame, mbind, M_bind, getThis; simpl.
  rewrite Htracking; simpl. rewrite Hearly. reflexivity.
Qed.

(** ** Methods that leave the page alone *)

Lemma keeps_page_ret {A} (a : A) : keeps_page (mret a).
Proof. intros w. reflexivity. Qed.

Lemma keeps_page_throw {A} message : keeps_page (throw (A:=A) message).
Proof. intros w. reflexivity. Qed.

Lemma keeps_page_emit e : keeps_page (emit e).
Proof. intros w. reflexivity. Qed.

Lemma keeps_page_paint ops : keeps_page (paint ops).
Proof. intros w. reflexivity. Qed.

Lemma keeps_page_assign f : keeps_page (assign f).
Proof. intros w. reflexivity. Qed.

Lemma keeps_page_getThis : keeps_page getThis.
Proof. intros w. reflexivity. Qed.

Lemma keeps_page_bind {A B} (m : M A) (k : A → M B) :
  keeps_page m → (∀ a, keeps_page (k a)) → keeps_page (m ≫= k).
Proof.
  intros Hm Hk w. specialize (Hm w). rewrite bind_run. unfold world in *.
  destruct (m w) as [[[a|message] w1] e1]; simpl in *; [ | exact Hm ].
  specialize (Hk a w1). unfold world in Hk.
  destruct (k a w1) as [[r w2] e2]; simpl in *. congruence.
Qed.

Lemma keeps_page_when b (m : M unit) : keeps_page m → keeps_page (when b m).
Proof. intros Hm. destruct b; [ exact Hm | apply keeps_page_ret ]. Qed.

Ltac keeps_page_step :=
  first
    [ apply keeps_page_ret | apply keeps_page_throw | apply keeps_page_emit
    | apply keeps_page_paint | apply keeps_page_assign
    | apply keeps_page_getThis
    | apply keeps_page_bind; [ | intros ? ]
    | apply keeps_page_when
    | match goal with
      | |- keeps_page (match ?x with _ => _ end) => destruct x
      end ].

Lemma keeps_page_log message type : keeps_page (log message type).
Proof. unfold log. repeat keeps_page_step. Qed.

Lemma keeps_page_drawFaceLandmarks : keeps_page drawFaceLandmarks.
Proof.
  unfold drawFaceLandmarks, canvas_size, require_ctx. repeat keeps_page_step.
Qed.

Lemma keeps_page_drawHandsLandmarks : keeps_page drawHandsLandmarks.
Proof.
  unfold drawHandsLandmarks, canvas_size, require_ctx. repeat keeps_page_step.
Qed.

(** Whatever the payload, a face completion writes no status. *)
Lemma keeps_page_onFaceResults results now :
  keeps_page (onFaceResults results now).
Proof.
  unfold onFaceResults, logFaceData.
  repeat first [ apply keeps_page_drawFaceLandmarks | apply keeps_page_log
               | keeps_page_step ].
Qed.

(** Whatever the payload, a hands completion writes no status. *)
Lemma keeps_page_onHandsResults results now :
  keeps_page (onHandsResults results now).
Proof.
  unfold onHandsResults, logHandsData, hands_nonempty.
  repeat first [ apply keeps_page_drawHandsLandmarks | apply keeps_page_log
               | keeps_page_step ].
Qed.

(** [updateTrackingStatus] writes what the caches say over whatever the
    status element showed, [error] included. *)
Lemma updateTrackingStatus_overwrites w hs :
  handsLandmarks (this w) = Some hs → is_Some (status_of Hands w) →
  status_of Hands (world (updateTrackingStatus w)) =
  Some (if bool_decide (0 < length hs) then "detected" else "searching").
Proof.
  intros Hhs [el Hel].
  unfold updateTrackingStatus, mbind, M_bind, getThis; simpl.
  rewrite Hhs. rewrite !updateStatus_run.
  unfold status_of in *. cbn [document world fst snd status_name] in *.
  rewrite !lookup_push_status.
  repeat (case_decide; try discriminate); try congruence;
    (destruct (_ !! _); [ reflexivity | discriminate ]).
Qed.

(** ** Status after a completion *)

(** C5 (the code at the failing input).  After a successful [init] the face
    and hands statuses read [active].  A face completion that carries a face
    fills the cache and leaves the face status as it was, and so does a hands
    completion that carries a hand with the hands status; only a pose
    completion recomputes the statuses. *)
Theorem face_and_hands_completions_push_no_status :
  let wf := world (onFaceResults one_face 5000 started) in
  let wh := world (onHandsResults one_hand 5000 started) in
  let wp := world (onPoseResults a_pose 5000 wh) in
  (present (faceLandmarks (this wf)) = true ∧
   status_of FaceMesh wf = Some "active") ∧
  (handsLandmarks (this wh) = Some [replicate 21 sample_point] ∧
   status_of Hands wh = Some "active") ∧
  (status_of Pose wp = Some "detected" ∧ status_of Hands wp = Some "detected").
Proof. cbv zeta. repeat apply conj; vm_compute; reflexivity. Qed.

(** C6 (the code at the failing input).  When the Hands constructor throws
    during [init] the hands status reads [error]; the first pose completion,
    here one that carries no pose, turns it into [searching]. *)
Theorem error_status_overwritten :
  let w := world (onPoseResults no_pose 5000 started_without_hands) in
  status_of Hands started_without_hands = Some "error" ∧
  showHands (this started_without_hands) = false ∧
  hands (this started_without_hands) = None ∧
  status_of Hands w = Some "searching".
Proof. cbv zeta. repeat apply conj; vm_compute; reflexivity. Qed.

(** ** A module that is switched off *)

Lemma Forall_no_paint_log : may_log (λ e, is_paint e = false).
Proof. intros type message. reflexivity. Qed.

Lemma drawPoseLandmarks_off w :
  showPose (this w) = false → drawPoseLandmarks w = (Ok tt, w, []).
Proof.
  intros Hoff. unfold drawPoseLandmarks, mbind, M_bind, getThis; simpl.
  rewrite Hoff. destruct (poseLandmarks (this w)); reflexivity.
Qed.

Lemma drawFaceLandmarks_off w :
  showFace (this w) = false → drawFaceLandmarks w = (Ok tt, w, []).
Proof.
  intros Hoff. unfold drawFaceLandmarks, mbind, M_bind, getThis; simpl.
  rewrite Hoff. destruct (faceLandmarks (this w)); reflexivity.
Qed.

Lemma drawHandsLandmarks_off w :
  showHands (this w) = false → drawHandsLandmarks w = (Ok tt, w, []).
Proof.
  intros Hoff. unfold drawHandsLandmarks, mbind, M_bind, getThis; simpl.
  rewrite Hoff. destruct (handsLandmarks (this w)); reflexivity.
Qed.

Lemma onPoseResults_off results now :
  inv (λ t, showPose t = false) (λ e, is_paint e = false)
      (onPoseResults results now).
Proof.
  unfold onPoseResults.
  apply inv_bind; [ apply inv_assign; intros t Ht; exact Ht | intros _ ].
  apply inv_bind; [ apply inv_assign; intros t Ht; exact Ht | intros _ ].
  apply inv_getThis; intros t Ht. rewrite Ht.
  apply inv_bind; [ apply inv_ret | intros _ ].
  repeat first [ apply inv_updateTrackingStatus
               | apply inv_logPoseData, Forall_no_paint_log
               | apply inv_assign; intros ? Hx; exact Hx
               | inv_step ].
Qed.

Lemma onFaceResults_off results now :
  inv (λ t, showFace t = false) (λ e, is_paint e = false)
      (onFaceResults results now).
Proof.
  unfold onFaceResults.
  apply inv_bind; [ apply inv_assign; intros t Ht; exact Ht | intros _ ].
  apply inv_getThis; intros t Ht. rewrite Ht.
  apply inv_bind; [ apply inv_ret | intros _ ].
  repeat first [ apply inv_logFaceData, Forall_no_paint_log
               | apply inv_assign; intros ? Hx; exact Hx
               | inv_step ].
Qed.

Lemma onHandsResults_off results now :
  inv (λ t, showHands t = false) (λ e, is_paint e = false)
      (onHandsResults results now).
Proof.
  unfold onHandsResults.
  apply inv_bind; [ apply inv_assign; intros t Ht; exact Ht | intros _ ].
  apply inv_getThis; intros t Ht. rewrite Ht.
  apply inv_ret_bind.
  apply inv_bind; [ apply inv_ret | intros _ ].
  repeat first [ apply inv_hands_nonempty
               | apply inv_logHandsData, Forall_no_paint_log
               | apply inv_assign; intros ? Hx; exact Hx
               | inv_step ].
Qed.

(** C3.  With a module's flag off, its draw method returns at once without
    touching the canvas, whatever its cache holds, and the module's
    completion listener paints nothing, whatever the payload. *)
Theorem disabled_module_draws_nothing (w : World) :
  (showPose (this w) = false →
     drawPoseLandmarks w = (Ok tt, w, []) ∧
     ∀ results now,
       Forall (λ e, is_paint e = false) (effects (onPoseResults results now w))) ∧
  (showFace (this w) = false →
     drawFaceLandmarks w = (Ok tt, w, []) ∧
     ∀ results now,
       Forall (λ e, is_paint e = false) (effects (onFaceResults results now w))) ∧
  (showHands (this w) = false →
     drawHandsLandmarks w = (Ok tt, w, []) ∧
     ∀ results now,
       Forall (λ e, is_paint e = false) (effects (onHandsResults results now w))).
Proof.
  repeat split.
  - apply drawPoseLandmarks_off; assumption.
  - intros results now. apply (onPoseResults_off results now w). assumption.
  - apply drawFaceLandmarks_off; assumption.
  - intros results now. apply (onFaceResults_off results now w). assumption.
  - apply drawHandsLandmarks_off; assumption.
  - intros results now. apply (onHandsResults_off results now w). assumption.
Qed.

Lemma disabled_module_draws_nothing_witness :
  let w := {| this := set_showHands false (this started); document := page |} in
  drawHandsLandmarks w = (Ok tt, w, []) ∧
  Forall (λ e, is_paint e = false) (effects (onHandsResults one_hand 5000 w)).
Proof.
  cbv zeta.
  destruct (proj2 (proj2 (disabled_module_draws_nothing
              {| this := set_showHands false (this started); document := page |})))
    as [Hdraw Hlisten]; [ reflexivity | ].
  split; [ exact Hdraw | apply Hlisten ].
Defined.

(** ** No frame for a detector that is not there *)

Section NoAdapter.
Context (d : Detector).
Local Abbreviation P := (λ t : Tracker, adapter d t = None).
Local Abbreviation Q := (λ e : Effect, e ≠ Send d).




End NoAdapter.

(** ** What [init] does not change *)

Section Init.
Context {X} (f : Tracker → X) (x : X) (Hf : init_constant f).
Local Abbreviation P := (λ t : Tracker, f t = x).
Local Abbreviation Q := (λ _ : Effect, True).

Ltac init_step :=
  first [ apply inv_log; intros ? ?; exact I
        | apply inv_updateStatus
        | apply inv_emit; exact I
        | apply inv_assign; intros ? Hx; cbv beta in *;
          destruct Hf as (H1 & H2 & H3 & H4 & H5 & H6 & H7 & H8 & H9 & _);
          first [ rewrite H1 | rewrite H2 | rewrite H3 | rewrite H4 | rewrite H5
                | rewrite H6 | rewrite H7 | rewrite H8 | rewrite H9 ];
          exact Hx
        | inv_step ].

Lemma inv_install set failure :
  (∀ v t, f (set v t) = f t) → inv P Q (install set failure).
Proof.
  intros Hset. unfold install.
  repeat first [ apply inv_assign; intros ? Hx; cbv beta in *; rewrite Hset; exact Hx
               | inv_step ].
Qed.

Lemma inv_setupPose failure : inv P Q (setupPose failure).
Proof.
  unfold setupPose.
  repeat first [ apply inv_install, Hf | init_step ].
Qed.

Lemma inv_setupFaceMesh failure : inv P Q (setupFaceMesh failure).
Proof.
  unfold setupFaceMesh.
  repeat first [ apply inv_install, Hf | init_step ].
Qed.

Lemma inv_setupHands failure : inv P Q (setupHands failure).
Proof.
  unfold setupHands.
  repeat first [ apply inv_install, Hf | init_step ].
Qed.

Lemma inv_startCamera env : inv P Q (startCamera env).
Proof. unfold startCamera. repeat init_step. Qed.

Lemma inv_first_call env : inv P Q (processFrame_start env).
Proof.
  destruct Hf as (_ & _ & _ & _ & _ & _ & _ & _ & _ & H1 & H2 & H3 & H4 & H5).
  apply inv_processFrame_start;
    [ apply inv_frame_body_start;
        [ intros ?; exact I | intros ?; exact I | intros v t Ht; cbv beta in *.. ];
        [ rewrite H1 | rewrite H2 | rewrite H3 | rewrite H4 ]; exact Ht
    | intros ? ?; exact I | exact I
    | intros v t Ht; cbv beta in *; rewrite H5; exact Ht ].
Qed.

Lemma inv_startOptimizedTracking env : inv P Q (startOptimizedTracking env).
Proof.
  unfold startOptimizedTracking.
  repeat first [ apply inv_first_call | init_step ].
Qed.

Lemma inv_init env : inv P Q (init env).
Proof.
  unfold init, setupMediaPipeSequentially.
  repeat first [ apply inv_setupPose | apply inv_setupFaceMesh
               | apply inv_setupHands | apply inv_startCamera
               | apply inv_startOptimizedTracking | init_step ].
Qed.
End Init.

Lemma showDebug_init_constant : init_constant showDebug.
Proof. unfold init_constant, tick_constant. repeat split; reflexivity. Qed.

Lemma reachable_init env now0 doc : reachable (world (init env (new_page now0 doc))).
Proof. exists now0, doc, env, []. reflexivity. Qed.

(** Nothing in a session turns the debug log off. *)
Lemma reachable_showDebug w : reachable w → showDebug (this w) = true.
Proof.
  intros (now0 & doc & env & evs & ->).
  apply (inv_run (λ t, showDebug t = true) (λ _, True)).
  - intros ev. apply inv_step_constant.
    + apply showDebug_session_constant.
    + intros ? ?. exact I.
    + intros ?. exact I.
    + exact I.
    + intros env'.
      pose proof showDebug_session_constant
        as (_ & _ & _ & _ & _ & H6 & H7 & H8 & H9 & _).
      apply inv_frame_body;
        [ intros ?; exact I | intros ?; exact I | intros v t Ht.. ];
        [ rewrite H6 | rewrite H7 | rewrite H8 | rewrite H9 ]; exact Ht.
  - apply (inv_init showDebug true showDebug_init_constant env
             (new_page now0 doc)). reflexivity.
Qed.

(** ** Exceptions during a tick *)

Lemma isTracking_frame_body env b :
  inv (λ t, isTracking t = b) (λ _, True) (frame_body env).
Proof.
  pose proof isTracking_session_constant
    as (_ & _ & _ & _ & _ & H6 & H7 & H8 & H9 & _).
  apply inv_frame_body;
    [ intros ?; exact I | intros ?; exact I | intros v t Ht.. ];
    [ rewrite H6 | rewrite H7 | rewrite H8 | rewrite H9 ]; exact Ht.
Qed.

Lemma showDebug_frame_body env b :
  inv (λ t, showDebug t = b) (λ _, True) (frame_body env).
Proof.
  pose proof showDebug_session_constant
    as (_ & _ & _ & _ & _ & H6 & H7 & H8 & H9 & _).
  apply inv_frame_body;
    [ intros ?; exact I | intros ?; exact I | intros v t Ht.. ];
    [ rewrite H6 | rewrite H7 | rewrite H8 | rewrite H9 ]; exact Ht.
Qed.

(** A tick that passes the rate limit: the [try] block runs on the world with
    the new [lastFrameTime].  A caught value that has a message goes to
    [log] as a warning, and then, throw or not, the next animation frame is
    requested.  A caught [null] or [undefined] makes the [catch] clause
    throw: the call ends there. *)
Lemma processFrame_accepted env w :
  isTracking (this w) = true →
  lt (now env - lastFrameTime (this w)) (frameInterval (this w)) = false →
  let w1 := {| this := set_lastFrameTime (now env) (this w);
               document := document w |} in
  processFrame env w =
  match frame_body env w1 with
  | (Ok _, w2, e2) => (Ok tt, w2, e2 ++ [RequestAnimationFrame])
  | (Throw (Exception message), w2, e2) =>
      (Ok tt, w2,
       e2 ++
       (if showDebug (this w2)
        then [Console LogWarning ("⚠️ Frame processing error: " +:+ message)]
        else []) ++
       [RequestAnimationFrame])
  | (Throw ThrownNull, w2, e2) =>
      (Throw (Exception (null_read "message")), w2, e2)
  | (Throw ThrownUndefined, w2, e2) =>
      (Throw (Exception (undefined_read "message")), w2, e2)
  end.
Proof.
  intros Htracking Hdue w1.
  unfold processFrame. rewrite bind_run, getThis_run. cbv beta iota zeta.
  rewrite Htracking. change (negb true) with false. rewrite Hdue. cbv iota.
  rewrite bind_run, assign_run. cbv beta iota zeta.
  rewrite bind_run, try_catch_run. fold w1. unfold frame_catch.
  destruct (frame_body env w1) as [[[[]|[message| |]] w2] e2].
  - rewrite emit_run. reflexivity.
  - rewrite bind_run, error_message_run. cbv beta iota zeta.
    rewrite log_run, emit_run. simpl. rewrite <- app_assoc. reflexivity.
  - rewrite bind_run. unfold error_message. rewrite throw_run.
    cbv beta iota zeta. rewrite app_nil_r. reflexivity.
  - rewrite bind_run. unfold error_message. rewrite throw_run.
    cbv beta iota zeta. rewrite app_nil_r. reflexivity.
Qed.

(** The [try] block paints and sends, and does nothing else. *)
Lemma frame_body_effects env w :
  Forall (λ e, is_paint e || is_send e = true) (effects (frame_body env w)).
Proof.
  apply (inv_frame_body (λ _, True) (λ e, is_paint e || is_send e = true));
    [ intros ?; reflexivity | intros ?; reflexivity
    | intros ? ? ?; exact I .. | exact I ].
Qed.

(** X22.  In a session, when the [try] block of an accepted tick throws a
    value that has a message, the exception does not leave [processFrame]:
    the tick returns normally, the message is logged as a warning after what
    the block had emitted, the next animation frame is requested last, and
    the tracking flag, the only thing the next tick checks before the rate
    limit, is still on. *)
Theorem tick_exception_contained (w : World) (env : TickEnv) (message : string) :
  reachable w → isTracking (this w) = true →
  lt (now env - lastFrameTime (this w)) (frameInterval (this w)) = false →
  let w1 := world (assign (set_lastFrameTime (now env)) w) in
  result (frame_body env w1) = Throw (Exception message) →
  let r := processFrame env w in
  result r = Ok tt ∧
  effects r =
    effects (frame_body env w1) ++
    [Console LogWarning ("⚠️ Frame processing error: " +:+ message);
     RequestAnimationFrame] ∧
  isTracking (this (world r)) = true.
Proof.
  intros Hreach Htracking Hdue w1 Hthrow r.
  pose proof (reachable_showDebug w Hreach) as Hdebug.
  destruct (showDebug_frame_body env true w1 Hdebug) as [Hdebug2 _].
  destruct (isTracking_frame_body env true w1 Htracking) as [Htracking2 _].
  subst r. rewrite (processFrame_accepted env w Htracking Hdue).
  change {| this := set_lastFrameTime (now env) (this w);
            document := document w |} with w1.
  unfold result, world, effects in *.
  destruct (frame_body env w1) as [[res w2] e2]; simpl in *.
  subst res. simpl. rewrite Hdebug2. auto.
Qed.

Lemma tick_exception_contained_witness :
  let env := {| now := 1000; fpsNow := 1000;
                rejects := λ d, match d with
                                | FaceMesh =>
                                    Some (Exception "face_mesh: model not loaded")
                                | _ => None
                                end |} in
  result (processFrame env started) = Ok tt ∧
  isTracking (this (world (processFrame env started))) = true.
Proof.
  cbv zeta.
  destruct (tick_exception_contained started
              {| now := 1000; fpsNow := 1000;
                 rejects := λ d, match d with
                                 | FaceMesh =>
                                     Some (Exception "face_mesh: model not loaded")
                                 | _ => None
                                 end |}
              "face_mesh: model not loaded") as (Hok & _ & Hon).
  - exact (reachable_init (studio no_failure) 0%float page).
  - vm_compute. reflexivity.
  - vm_compute. reflexivity.
  - vm_compute. reflexivity.
  - split; [ exact Hok | exact Hon ].
Defined.

(** X23.  When the [try] block of an accepted tick throws [null] or
    [undefined], the [catch] clause throws on reading [error.message]: the
    call of [processFrame] ends with that [TypeError], nothing is logged,
    and the next animation frame is not requested. *)
Theorem tick_exception_escapes (w : World) (env : TickEnv) :
  isTracking (this w) = true →
  lt (now env - lastFrameTime (this w)) (frameInterval (this w)) = false →
  let w1 := world (assign (set_lastFrameTime (now env)) w) in
  result (frame_body env w1) = Throw ThrownNull ∨
  result (frame_body env w1) = Throw ThrownUndefined →
  let r := processFrame env w in
  (∃ message, result r = Throw (Exception message)) ∧
  effects r = effects (frame_body env w1) ∧
  Forall (λ e, is_console e = false) (effects r) ∧
  RequestAnimationFrame ∉ effects r.
Proof.
  intros Htracking Hdue w1 Hthrow r.
  pose proof (frame_body_effects env w1) as Hbody.
  assert (Heff : (∃ message, result r = Throw (Exception message)) ∧
                 effects r = effects (frame_body env w1)).
  { subst r. rewrite (processFrame_accepted env w Htracking Hdue).
    change {| this := set_lastFrameTime (now env) (this w);
              document := document w |} with w1.
    unfold result, effects in *.
    destruct (frame_body env w1) as [[res w2] e2]; cbn [fst snd] in *.
    destruct Hthrow as [-> | ->]; (split; [ eexists | ]; reflexivity). }
  destruct Heff as [Hres Heff]. rewrite Heff.
  split; [ exact Hres | split; [ reflexivity | split ] ].
  - eapply Forall_impl; [ exact Hbody | ].
    intros [] He; try reflexivity; discriminate He.
  - intros Hin. rewrite Forall_forall in Hbody.
    specialize (Hbody _ Hin). discriminate Hbody.
Qed.

Lemma tick_exception_escapes_witness :
  RequestAnimationFrame ∉
  effects (processFrame
             {| now := 1000; fpsNow := 1000;
                rejects := λ d, match d with
                                | Pose => Some ThrownUndefined
                                | _ => None
                                end |} started).
Proof.
  refine (proj2 (proj2 (proj2 (tick_exception_escapes started
            {| now := 1000; fpsNow := 1000;
               rejects := λ d, match d with
                               | Pose => Some ThrownUndefined
                               | _ => None
                               end |} _ _ _)))).
  - vm_compute. reflexivity.
  - vm_compute. reflexivity.
  - right. vm_compute. reflexivity.
Defined.

(** C8 (the code at the failing input).  After a successful [init], on a
    tick at one second the [send] to the pose detector rejects with
    [undefined].  The video has been painted and the frame sent to pose;
    the [catch] clause then throws instead of logging: the call ends with a
    [TypeError], the face and hands detectors get no frame, and the next
    animation frame is not requested, although tracking is still on. *)
Theorem rejection_without_message_stops_loop :
  let tick := {| now := 1000; fpsNow := 1000;
                 rejects := λ d, match d with
                                 | Pose => Some ThrownUndefined
                                 | _ => None
                                 end |} in
  let r := processFrame tick started in
  isTracking (this started) = true ∧
  result r = Throw (Exception (undefined_read "message")) ∧
  effects r = (Paint <$> video_layer 640 480) ++ [Send Pose] ∧
  isTracking (this (world r)) = true.
Proof. cbv zeta. repeat apply conj; vm_compute; reflexivity. Qed.

(** ** The call of [processFrame] that [init] makes *)

Section RaisesErrors.
Lemma raises_errors_ret {A} (a : A) : raises_errors (mret a).
Proof. intros w. exact I. Qed.

Lemma raises_errors_throw {A} message : raises_errors (throw (A:=A) message).
Proof. intros w. eexists. reflexivity. Qed.

Lemma raises_errors_emit e : raises_errors (emit e).
Proof. intros w. exact I. Qed.

Lemma raises_errors_paint ops : raises_errors (paint ops).
Proof. intros w. exact I. Qed.

Lemma raises_errors_assign f : raises_errors (assign f).
Proof. intros w. exact I. Qed.

Lemma raises_errors_getThis : raises_errors getThis.
Proof. intros w. exact I. Qed.

Lemma raises_errors_getElementById id : raises_errors (getElementById id).
Proof. intros w. exact I. Qed.

Lemma raises_errors_set_element id el : raises_errors (set_element id el).
Proof. intros w. exact I. Qed.

Lemma raises_errors_bind {A B} (m : M A) (k : A → M B) :
  raises_errors m → (∀ a, raises_errors (k a)) → raises_errors (m ≫= k).
Proof.
  intros Hm Hk w. specialize (Hm w). rewrite bind_run. unfold result in *.
  destruct (m w) as [[[a|error] w1] e1]; cbn [fst snd] in *; [ | exact Hm ].
  specialize (Hk a w1). unfold result in Hk.
  destruct (k a w1) as [[r w2] e2]; cbn [fst snd] in *. exact Hk.
Qed.

Lemma raises_errors_when b (m : M unit) :
  raises_errors m → raises_errors (when b m).
Proof. intros Hm. destruct b; [ exact Hm | apply raises_errors_ret ]. Qed.
End RaisesErrors.

Ltac raises_errors_step :=
  first
    [ apply raises_errors_ret | apply raises_errors_throw
    | apply raises_errors_emit | apply raises_errors_paint
    | apply raises_errors_assign | apply raises_errors_getThis
    | apply raises_errors_getElementById | apply raises_errors_set_element
    | apply raises_errors_bind; [ | intros ? ]
    | apply raises_errors_when
    | match goal with
      | |- raises_errors (match ?x with _ => _ end) => destruct x
      end ].

Lemma raises_errors_renderFrame fpsNow : raises_errors (renderFrame fpsNow).
Proof.
  unfold renderFrame, resizeCanvas, require_ctx, canvas_size, updateFPS.
  repeat raises_errors_step.
Qed.

Lemma raises_errors_frame_body_start env : raises_errors (frame_body_start env).
Proof.
  unfold frame_body_start, first_send.
  repeat first [ apply raises_errors_renderFrame | raises_errors_step ].
Qed.

(** The call that [init] makes never throws before its first [await]: what
    the rendering throws is a [TypeError], and the [catch] clause logs it. *)
Lemma processFrame_start_returns env w :
  ∃ awaited, result (processFrame_start env w) = Ok awaited.
Proof.
  unfold processFrame_start. rewrite bind_run, getThis_run.
  cbv beta iota zeta.
  destruct (negb (isTracking (this w))); [ eexists; reflexivity | ].
  destruct (lt _ _).
  { rewrite bind_run, emit_run. eexists. reflexivity. }
  rewrite bind_run, assign_run. cbv beta iota zeta.
  rewrite bind_run, try_catch_run.
  pose proof (raises_errors_frame_body_start env
                {| this := set_lastFrameTime (now env) (this w);
                   document := document w |}) as Hbody.
  unfold result in *.
  destruct (frame_body_start env _) as [[[[d|]|error] w2] e2];
    cbn [fst snd] in Hbody.
  - eexists. reflexivity.
  - rewrite bind_run, emit_run. eexists. reflexivity.
  - destruct Hbody as [message ->]. unfold frame_catch.
    rewrite bind_run, bind_run, error_message_run. cbv beta iota zeta.
    rewrite log_run. cbv beta iota zeta.
    rewrite ret_run. cbv beta iota zeta.
    rewrite bind_run, emit_run. eexists. reflexivity.
Qed.

Lemma startOptimizedTracking_run env w :
  startOptimizedTracking env w =
  (Ok tt, after_first_call env w,
   (if showDebug (this w)
    then [Console LogInfo "🎯 Starting optimized tracking loop..."]
    else []) ++
   FirstFrame :: first_call_effects env w).
Proof.
  unfold startOptimizedTracking, after_first_call, first_call_effects.
  rewrite bind_run, assign_run. cbv beta iota zeta. fold (tracking w).
  rewrite bind_run, log_run. cbv beta iota zeta.
  rewrite bind_run, emit_run. cbv beta iota zeta. rewrite bind_run.
  destruct (processFrame_start_returns env (tracking w)) as [awaited Hok].
  unfold result, world, effects in *.
  destruct (processFrame_start env (tracking w)) as [[res w2] e2].
  cbn [fst snd] in *. subst res. rewrite ret_run. cbv beta iota zeta.
  rewrite app_nil_r. reflexivity.
Qed.

(** What holds before that call, and is kept by what a tick assigns, holds
    after it. *)
Lemma after_first_call_inv (P : Tracker → Prop) env w :
  (∀ c, stable P (set_canvasElement (Some c))) →
  (∀ v, stable P (set_frameCount v)) → (∀ v, stable P (set_fps v)) →
  (∀ v, stable P (set_lastFpsTime v)) →
  (∀ v, stable P (set_lastFrameTime v)) →
  P (set_isTracking true (this w)) → P (this (after_first_call env w)).
Proof.
  intros H1 H2 H3 H4 H5 Hw.
  apply (inv_processFrame_start P (λ _, True)); try assumption.
  - apply inv_frame_body_start; try assumption; intros ?; exact I.
  - intros ? ?. exact I.
  - exact I.
Qed.

Lemma after_first_call_constant {X} (f : Tracker → X) env w :
  tick_constant f →
  f (this (after_first_call env w)) = f (set_isTracking true (this w)).
Proof.
  intros (H1 & H2 & H3 & H4 & H5).
  apply (after_first_call_inv (λ t, f t = f (set_isTracking true (this w))));
    try reflexivity; intros v t Ht;
    [ rewrite H1 | rewrite H2 | rewrite H3 | rewrite H4 | rewrite H5 ];
    exact Ht.
Qed.

Lemma after_first_call_showDebug env w :
  showDebug (this (after_first_call env w)) = showDebug (this w).
Proof.
  rewrite (after_first_call_constant showDebug); [ reflexivity | ].
  unfold tick_constant. repeat split; reflexivity.
Qed.

(** *** The page during that call *)

Section KeepsElement.
Context (id : string).

Lemma keeps_element_page {A} (m : M A) : keeps_page m → keeps_element id m.
Proof. intros Hm w. rewrite Hm. reflexivity. Qed.

Lemma keeps_element_bind {A B} (m : M A) (k : A → M B) :
  keeps_element id m → (∀ a, keeps_element id (k a)) →
  keeps_element id (m ≫= k).
Proof.
  intros Hm Hk w. specialize (Hm w). rewrite bind_run. unfold world in *.
  destruct (m w) as [[[a|error] w1] e1]; cbn [fst snd] in *; [ | exact Hm ].
  specialize (Hk a w1). unfold world in Hk.
  destruct (k a w1) as [[r w2] e2]; cbn [fst snd] in *. congruence.
Qed.

Lemma keeps_element_try_catch {A} (body : M A) handler :
  keeps_element id body → (∀ error, keeps_element id (handler error)) →
  keeps_element id (try_catch body handler).
Proof.
  intros Hm Hk w. specialize (Hm w). rewrite try_catch_run. unfold world in *.
  destruct (body w) as [[[a|error] w1] e1]; cbn [fst snd] in *; [ exact Hm | ].
  specialize (Hk error w1). unfold world in Hk.
  destruct (handler error w1) as [[r w2] e2]; cbn [fst snd] in *. congruence.
Qed.

Lemma keeps_element_when b (m : M unit) :
  keeps_element id m → keeps_element id (when b m).
Proof. intros Hm. destruct b; [ exact Hm | intros w; reflexivity ]. Qed.

Lemma keeps_element_set_element id' el :
  id ≠ id' → keeps_element id (set_element id' el).
Proof.
  intros Hne w. unfold set_element, world. cbn [fst snd document].
  apply lookup_insert_ne. congruence.
Qed.
End KeepsElement.

Ltac keeps_element_step :=
  first
    [ apply keeps_element_page; first
        [ apply keeps_page_ret | apply keeps_page_throw | apply keeps_page_emit
        | apply keeps_page_paint | apply keeps_page_assign
        | apply keeps_page_getThis | apply keeps_page_log ]
    | apply keeps_element_set_element; assumption
    | apply keeps_element_bind; [ | intros ? ]
    | apply keeps_element_try_catch; [ | intros ? ]
    | apply keeps_element_when
    | match goal with
      | |- keeps_element _ (match ?x with _ => _ end) => destruct x
      end ].

Lemma keeps_element_processFrame_start id env :
  id ≠ "fps-display" → keeps_element id (processFrame_start env).
Proof.
  intros Hid.
  unfold processFrame_start, frame_body_start, first_send, frame_catch,
    error_message, renderFrame, resizeCanvas, require_ctx, canvas_size,
    updateFPS, getElementById.
  repeat first [ keeps_element_step | intros w; reflexivity ].
Qed.

Lemma after_first_call_document env w id :
  id ≠ "fps-display" →
  document (after_first_call env w) !! id = document w !! id.
Proof.
  intros Hid. unfold after_first_call.
  rewrite (keeps_element_processFrame_start id env Hid). reflexivity.
Qed.

(** * Rendering, the loop and initialisation *)

(** ** Rendering the video frame *)

Lemma updateFPS_run now w :
  updateFPS now w =
  (Ok tt,
   (if ge (now - lastFpsTime (this w)) 1000 then
      {| this := set_lastFpsTime now
                   (set_frameCount 0
                      (set_fps (increment (frameCount (this w)))
                         (set_frameCount (increment (frameCount (this w)))
                                         (this w))));
         document :=
           match document w !! "fps-display" with
           | Some el =>
               <["fps-display" :=
                   {| textContent := pretty (increment (frameCount (this w)));
                      color := color el |}]> (document w)
           | None => document w
           end |}
    else
      {| this := set_frameCount (increment (frameCount (this w))) (this w);
         document := document w |}),
   []).
Proof.
  unfold updateFPS, getElementById, set_element, when.
  rewrite bind_run, assign_run. cbv beta iota zeta.
  rewrite bind_run, getThis_run. cbv beta iota zeta. cbn [this document].
  change (lastFpsTime (set_frameCount (increment (frameCount (this w))) (this w)))
    with (lastFpsTime (this w)).
  destruct (ge (now - lastFpsTime (this w)) 1000); [ | reflexivity ].
  repeat (rewrite bind_run, assign_run; cbv beta iota zeta; cbn [this document]).
  rewrite bind_run. cbv beta iota zeta. cbn [this document].
  destruct (document w !! "fps-display"); reflexivity.
Qed.

(** X1.  Without a video element, or while the video reports no width,
    [renderFrame] does nothing: no canvas operation, no frame counted, the
    canvas keeps its size. *)
Theorem renderFrame_without_video (fpsNow : float) (w : World) :
  match videoElement (this w) with
  | None => True
  | Some video => truthy (videoWidth video) = false
  end →
  renderFrame fpsNow w = (Ok tt, w, []).
Proof.
  intros Hvideo. unfold renderFrame. rewrite bind_run, getThis_run.
  cbv beta iota zeta.
  destruct (videoElement (this w)) as [video|]; [ | reflexivity ].
  rewrite Hvideo. reflexivity.
Qed.

Lemma renderFrame_without_video_witness :
  renderFrame 16 (new_page 0 page) = (Ok tt, new_page 0 page, []).
Proof. apply renderFrame_without_video. exact I. Defined.

(** [renderFrame] when everything it needs is there. *)
Lemma renderFrame_ready fpsNow w video cv :
  videoElement (this w) = Some video →
  truthy (videoWidth video) = true → truthy (videoHeight video) = true →
  canvasElement (this w) = Some cv → canvasCtx (this w) = true →
  let r := renderFrame fpsNow w in
  result r = Ok tt ∧
  effects r = Paint <$> video_layer (videoWidth video) (videoHeight video) ∧
  canvasElement (this (world r)) =
    Some {| width := videoWidth video; height := videoHeight video |}.
Proof.
  intros Hvideo Hw Hh Hcv Hctx. cbv zeta.
  unfold renderFrame, resizeCanvas, canvas_size, require_ctx, when.
  rewrite bind_run, getThis_run. cbv beta iota zeta. rewrite Hvideo, Hw.
  cbv beta iota zeta delta [negb].
  rewrite bind_run, bind_run, getThis_run. cbv beta iota zeta.
  rewrite Hvideo, Hcv, Hw, Hh. cbv beta iota zeta delta [andb].
  rewrite assign_run. cbv beta iota zeta.
  rewrite bind_run, bind_run, getThis_run. cbv beta iota zeta.
  cbn [this canvasCtx set_canvasElement]. rewrite Hctx.
  rewrite ret_run. cbv beta iota zeta.
  rewrite bind_run, bind_run, getThis_run. cbv beta iota zeta.
  cbn [this canvasElement set_canvasElement]. rewrite ret_run.
  cbv beta iota zeta. rewrite bind_run. unfold paint. cbv beta iota zeta.
  rewrite updateFPS_run. cbn [this document width height].
  destruct (ge _ _); repeat split.
Qed.

(** [renderFrame] without a 2D context: the first use of [this.canvasCtx]
    throws before anything is painted or counted. *)
Lemma renderFrame_no_context fpsNow w video :
  videoElement (this w) = Some video → truthy (videoWidth video) = true →
  canvasCtx (this w) = false →
  let r := renderFrame fpsNow w in
  result r = Throw (Exception (null_read "clearRect")) ∧ effects r = [] ∧
  showDebug (this (world r)) = showDebug (this w).
Proof.
  intros Hvideo Hw Hctx. cbv zeta.
  unfold renderFrame, resizeCanvas, require_ctx, when.
  rewrite bind_run, getThis_run. cbv beta iota zeta. rewrite Hvideo, Hw.
  cbv beta iota zeta delta [negb].
  rewrite bind_run, bind_run, getThis_run. cbv beta iota zeta.
  rewrite Hvideo.
  destruct (canvasElement (this w)) as [cv|];
    [ destruct (truthy (videoWidth video) && truthy (videoHeight video));
      [ rewrite assign_run | rewrite ret_run ]
    | rewrite ret_run ];
    cbv beta iota zeta; rewrite bind_run, bind_run, getThis_run;
    cbv beta iota zeta; cbn [this canvasCtx set_canvasElement];
    rewrite Hctx, throw_run; repeat split.
Qed.

(** X2.  With a context, a canvas and a video that reports a width and a
    height, [renderFrame] gives the canvas the video's resolution and paints
    exactly: clear, save, scale(-1, 1), translate(-width, 0), the video over
    the whole canvas, restore. *)
Theorem renderFrame_mirrors_video (fpsNow : float) (w : World)
    (video : Video) (cv : Canvas) :
  videoElement (this w) = Some video →
  truthy (videoWidth video) = true → truthy (videoHeight video) = true →
  canvasElement (this w) = Some cv → canvasCtx (this w) = true →
  let W := videoWidth video in
  let H := videoHeight video in
  let r := renderFrame fpsNow w in
  result r = Ok tt ∧
  effects r =
    Paint <$> [Ctx.clearRect 0 0 W H; Ctx.save; Ctx.scale (-1) 1;
               Ctx.translate (- W) 0; Ctx.drawImage 0 0 W H; Ctx.restore] ∧
  canvasElement (this (world r)) = Some {| width := W; height := H |}.
Proof. exact (renderFrame_ready fpsNow w video cv). Qed.

Lemma renderFrame_mirrors_video_witness :
  canvasElement (this (world (renderFrame 1000 started))) =
  Some {| width := 640; height := 480 |}.
Proof.
  refine (proj2 (proj2 (renderFrame_mirrors_video 1000 started
            {| videoWidth := 640; videoHeight := 480; readyState := 4 |}
            {| width := 300; height := 150 |} _ _ _ _ _)));
    vm_compute; reflexivity.
Defined.

(** ** The rate display *)

(** Counting up from [n], [k] times. *)
Lemma increment_le n : (n ≤ 9007199254740992 → increment n ≤ 9007199254740992)%N.
Proof.
  intros Hn. unfold increment.
  destruct (N.ltb_spec n 9007199254740992); lia.
Qed.

Lemma increment_min n :
  (n ≤ 9007199254740992 → increment n = N.min (n + 1) 9007199254740992)%N.
Proof.
  intros Hn. unfold increment.
  destruct (N.ltb_spec n 9007199254740992); lia.
Qed.

Lemma count_frames_within_window nows : ∀ w,
  (frameCount (this w) ≤ 9007199254740992)%N →
  Forall (λ n, ge (n - lastFpsTime (this w)) 1000 = false) nows →
  let w1 := count_frames nows w in
  frameCount (this w1) =
    N.min (frameCount (this w) + N.of_nat (length nows)) 9007199254740992 ∧
  fps (this w1) = fps (this w) ∧
  lastFpsTime (this w1) = lastFpsTime (this w) ∧
  document w1 = document w.
Proof.
  induction nows as [|n rest IH]; intros w Hle Hall; cbv zeta.
  - simpl. rewrite N.add_0_r, N.min_l by exact Hle. auto.
  - apply Forall_cons in Hall as [Hn Hrest].
    unfold count_frames in *. simpl foldl.
    rewrite updateFPS_run, Hn. cbn [world fst snd].
    specialize (IH {| this := set_frameCount (increment (frameCount (this w)))
                                             (this w);
                      document := document w |}
                   (increment_le _ Hle) Hrest).
    cbv zeta in IH. cbn [this document] in IH.
    destruct IH as (Hcount & Hfps & Hlast & Hdoc).
    rewrite Hcount, Hfps, Hlast, Hdoc. cbn [frameCount set_frameCount].
    rewrite (increment_min _ Hle). repeat split.
    change (length (n :: rest)) with (S (length rest)). lia.
Qed.

(** X3.  The rate shown is the number of frames rendered since the last
    one shown: after any number of [updateFPS] calls within a second of
    [lastFpsTime], the first call a second or more after it publishes the
    frames counted so far plus one as [fps], writes that number into the
    [fps-display] element if the page has one, and starts a new count from
    that clock reading.  The count is a binary64 number: it stops at [2^53],
    which no [frameCount++] moves. *)
Theorem updateFPS_counts_frames (nows : list float) (last : float) (w : World) :
  (frameCount (this w) ≤ 9007199254740992)%N →
  Forall (λ n, ge (n - lastFpsTime (this w)) 1000 = false) nows →
  ge (last - lastFpsTime (this w)) 1000 = true →
  let w2 := world (updateFPS last (count_frames nows w)) in
  let shown := N.min (frameCount (this w) + N.of_nat (length nows) + 1)
                     9007199254740992 in
  fps (this w2) = shown ∧ frameCount (this w2) = 0%N ∧
  lastFpsTime (this w2) = last ∧
  (is_Some (document w !! "fps-display") →
   textContent <$> document w2 !! "fps-display" = Some (pretty shown)).
Proof.
  intros Hle Hwithin Hdue. cbv zeta.
  destruct (count_frames_within_window nows w Hle Hwithin)
    as (Hcount & _ & Hlast & Hdoc).
  assert (Hshown :
            increment (frameCount (this (count_frames nows w))) =
            N.min (frameCount (this w) + N.of_nat (length nows) + 1)
                  9007199254740992).
  { rewrite increment_min by (rewrite Hcount; lia). rewrite Hcount. lia. }
  rewrite updateFPS_run, Hlast, Hdue, Hshown, Hdoc. cbn [world fst snd this].
  repeat split.
  intros [el Hel]. cbn [document]. rewrite Hel, lookup_insert_eq. reflexivity.
Qed.

Lemma updateFPS_counts_frames_witness :
  fps (this (world (updateFPS 1001 (count_frames [16; 33; 50]%float started)))) = 4%N.
Proof.
  refine (proj1 (updateFPS_counts_frames [16; 33; 50]%float 1001 started _ _ _)).
  - vm_compute. discriminate.
  - repeat constructor.
  - reflexivity.
Defined.

(** The counters of a session stay whole numbers that binary64 holds
    exactly. *)
Lemma counters_in_range w :
  reachable w →
  (frameCount (this w) ≤ 9007199254740992 ∧ fps (this w) ≤ 9007199254740992)%N.
Proof.
  intros (now0 & doc & env & evs & ->).
  set (P := λ t : Tracker,
         (frameCount t ≤ 9007199254740992 ∧ fps t ≤ 9007199254740992)%N).
  assert (Hupdate : ∀ n, inv P (λ _, True) (updateFPS n)).
  { intros n w HP. rewrite updateFPS_run. unfold world, effects.
    cbn [fst snd]. split; [ | constructor ].
    destruct HP as [Hc Hf]. pose proof (increment_le _ Hc).
    destruct (ge _ _); split; cbn; lia. }
  assert (Hrender : ∀ n, inv P (λ _, True) (renderFrame n)).
  { intros n. unfold renderFrame, resizeCanvas.
    repeat first [ apply Hupdate | apply inv_require_ctx | apply inv_canvas_size
                 | apply inv_paint; intros ?; exact I
                 | apply inv_assign; intros ? Hx; exact Hx
                 | inv_step ]. }
  assert (Hbody : ∀ tick, inv P (λ _, True) (frame_body tick)).
  { intros tick. unfold frame_body.
    repeat first [ apply Hrender | apply inv_send; exact I | inv_step ]. }
  assert (Hstart : ∀ tick, inv P (λ _, True) (processFrame_start tick)).
  { intros tick. apply inv_processFrame_start;
      [ | intros ? ?; exact I | exact I | intros v t Ht; exact Ht ].
    unfold frame_body_start.
    repeat first [ apply Hrender | apply inv_first_send; intros ?; exact I
                 | inv_step ]. }
  apply (inv_run P (λ _, True)).
  - intros ev.
    destruct ev as [tick|results n|results n|results n|video|d on]; simpl.
    + apply inv_processFrame;
        [ apply Hbody | intros ? ?; exact I | exact I | intros v t Ht; exact Ht ].
    + apply inv_onPoseResults;
        [ intros ? ?; exact I | intros ?; exact I | intros v t Ht; exact Ht .. ].
    + apply inv_onFaceResults;
        [ intros ? ?; exact I | intros ?; exact I | intros v t Ht; exact Ht .. ].
    + apply inv_onHandsResults;
        [ intros ? ?; exact I | intros ?; exact I | intros v t Ht; exact Ht .. ].
    + repeat first [ apply inv_assign; intros ? Hx; exact Hx | inv_step ].
    + apply inv_assign. intros t Ht. destruct d; exact Ht.
  - assert (Hinit : inv P (λ _, True) (init env)).
    { unfold init, setupMediaPipeSequentially, setupPose, setupFaceMesh,
        setupHands, startCamera, startOptimizedTracking, install.
      repeat first [ apply Hstart
                   | apply inv_log; intros ? ?; exact I
                   | apply inv_updateStatus
                   | apply inv_emit; exact I
                   | apply inv_assign; intros ? Hx; exact Hx
                   | inv_step ]. }
    apply (Hinit (new_page now0 doc)). split; cbn; lia.
Qed.

(** ** A tick before the camera delivers *)

(** X4.  A tick that passes the rate limit while the video is not ready
    ([readyState] below 2, or no video element) renders nothing and sends
    nothing, but it counts as accepted: [lastFrameTime] moves to its clock
    reading, and the next animation frame is requested. *)
Theorem unready_video_consumes_tick (env : TickEnv) (w : World) :
  isTracking (this w) = true →
  lt (now env - lastFrameTime (this w)) (frameInterval (this w)) = false →
  match videoElement (this w) with
  | Some video => readyState video < 2
  | None => True
  end →
  processFrame env w =
  (Ok tt,
   {| this := set_lastFrameTime (now env) (this w); document := document w |},
   [RequestAnimationFrame]).
Proof.
  intros Htracking Hdue Hvideo.
  rewrite (processFrame_accepted env w Htracking Hdue). cbv zeta.
  unfold frame_body. rewrite bind_run, getThis_run. cbv beta iota zeta.
  cbn [this videoElement set_lastFrameTime].
  destruct (videoElement (this w)) as [video|]; [ | reflexivity ].
  rewrite bool_decide_false by lia. reflexivity.
Qed.

Lemma unready_video_consumes_tick_witness :
  let w := {| this := set_videoElement
                        (Some {| videoWidth := 0; videoHeight := 0; readyState := 1 |})
                        (this started);
              document := page |} in
  effects (processFrame (quiet_tick 1000) w) = [RequestAnimationFrame].
Proof.
  cbv zeta. rewrite unready_video_consumes_tick.
  - reflexivity.
  - reflexivity.
  - vm_compute. reflexivity.
  - simpl. lia.
Defined.

(** ** Writing a status *)

(** X5.  When the page has the status element of the module, [updateStatus]
    writes the status text and its colour (green for [active] and
    [detected], red for [error], yellow otherwise) into that element and
    into no other, and leaves the tracker as it was. *)
Theorem updateStatus_writes_one_element (type status : string) (w : World) :
  is_Some (document w !! (type +:+ "-status")) →
  let w' := world (updateStatus type status w) in
  document w' !! (type +:+ "-status") =
    Some {| textContent := status;
            color := if bool_decide (status = "active" ∨ status = "detected")
                     then "#00FF00"
                     else if bool_decide (status = "error") then "#FF0000"
                     else "#FFFF00" |} ∧
  (∀ id, id ≠ type +:+ "-status" → document w' !! id = document w !! id) ∧
  this w' = this w.
Proof.
  intros [el Hel]. cbv zeta. rewrite updateStatus_run. cbn [world fst snd document this].
  repeat split.
  - rewrite lookup_push_status, decide_True, Hel by reflexivity.
    do 2 f_equal. unfold status_color.
    destruct (String.eqb_spec status "active") as [->|Hna]; [ reflexivity | ].
    destruct (String.eqb_spec status "detected") as [->|Hnd]; [ reflexivity | ].
    rewrite bool_decide_false by (intros [?|?]; congruence). simpl.
    destruct (String.eqb_spec status "error") as [->|Hne]; [ reflexivity | ].
    rewrite bool_decide_false by congruence. reflexivity.
  - intros id Hid. rewrite lookup_push_status, decide_False by exact Hid.
    reflexivity.
Qed.

Lemma updateStatus_writes_one_element_witness :
  document (world (updateStatus "camera" "error" started)) !! "pose-status" =
  document started !! "pose-status".
Proof.
  refine (proj1 (proj2 (updateStatus_writes_one_element "camera" "error" started _))
            "pose-status" _).
  - vm_compute. eexists. reflexivity.
  - discriminate.
Defined.

(** ** What a tick sends *)

(** [renderFrame] touches neither the detectors nor the flags. *)
Lemma renderFrame_keeps {X} (f : Tracker → X) fpsNow w :
  (∀ v t, f (set_canvasElement v t) = f t) →
  (∀ v t, f (set_frameCount v t) = f t) →
  (∀ v t, f (set_fps v t) = f t) →
  (∀ v t, f (set_lastFpsTime v t) = f t) →
  f (this (world (renderFrame fpsNow w))) = f (this w).
Proof.
  intros H6 H7 H8 H9.
  apply (inv_renderFrame (λ t, f t = f (this w)) (λ _, True));
    [ intros ?; exact I | intros v t Ht.. | reflexivity ];
    [ rewrite H6 | rewrite H7 | rewrite H8 | rewrite H9 ]; exact Ht.
Qed.

Lemma renderFrame_keeps_wanted fpsNow w d :
  wanted (this (world (renderFrame fpsNow w))) d = wanted (this w) d.
Proof.
  unfold wanted.
  rewrite (renderFrame_keeps (adapter d)), (renderFrame_keeps (show_flag d));
    try reflexivity; intros; destruct d; reflexivity.
Qed.

Lemma renderFrame_sends_nothing fpsNow w :
  Forall (λ e, is_send e = false) (effects (renderFrame fpsNow w)).
Proof.
  apply (inv_renderFrame (λ _, True) (λ e, is_send e = false));
    [ intros ?; reflexivity | intros ? ? ?; exact I .. | exact I ].
Qed.

(** The three guarded [send] calls of the [try] block. *)
Lemma dispatch_run env w :
  (t ← getThis;
   when (present (pose t) && showPose t) (send env Pose);;
   t ← getThis;
   when (present (faceMesh t) && showFace t) (send env FaceMesh);;
   t ← getThis;
   when (present (hands t) && showHands t) (send env Hands)) w =
  (match last (dispatch_to env (this w) dispatch_order) ≫= rejects env with
   | Some message => Throw message
   | None => Ok tt
   end,
   w, Send <$> dispatch_to env (this w) dispatch_order).
Proof.
  unfold dispatch_order, dispatch_to, wanted, send, settle, when.
  cbn [adapter show_flag].
  rewrite bind_run, getThis_run. cbv beta iota zeta.
  destruct (present (pose (this w)) && showPose (this w));
    [ rewrite bind_run, bind_run, emit_run; cbv beta iota zeta;
      destruct (rejects env Pose) as [m|] eqn:Hp;
        [ rewrite throw_value_run; cbn; rewrite Hp; reflexivity
        | rewrite ret_run; cbv beta iota zeta ]
    | rewrite bind_run, ret_run; cbv beta iota zeta ];
  rewrite bind_run, getThis_run; cbv beta iota zeta;
  (destruct (present (faceMesh (this w)) && showFace (this w));
    [ rewrite bind_run, bind_run, emit_run; cbv beta iota zeta;
      destruct (rejects env FaceMesh) as [m|] eqn:Hf;
        [ rewrite throw_value_run; cbn; rewrite Hf; reflexivity
        | rewrite ret_run; cbv beta iota zeta ]
    | rewrite bind_run, ret_run; cbv beta iota zeta ]);
  rewrite bind_run, getThis_run; cbv beta iota zeta;
  (destruct (present (hands (this w)) && showHands (this w));
    [ rewrite bind_run, emit_run; cbv beta iota zeta;
      destruct (rejects env Hands) as [m|] eqn:Hh;
        [ rewrite throw_value_run | rewrite ret_run ]
    | rewrite ret_run ]);
  cbn; rewrite ?Hp, ?Hf, ?Hh; reflexivity.
Qed.

(** The [try] block, in terms of [renderFrame] and the detectors sent to. *)
Lemma frame_body_run env w :
  frame_body env w =
  match videoElement (this w) with
  | Some video =>
      if bool_decide (2 ≤ readyState video) then
        match renderFrame (fpsNow env) w with
        | (Ok _, w1, e1) =>
            let sent := dispatch_to env (this w) dispatch_order in
            (match last sent ≫= rejects env with
             | Some message => Throw message
             | None => Ok tt
             end, w1, e1 ++ (Send <$> sent))
        | (Throw message, w1, e1) => (Throw message, w1, e1)
        end
      else (Ok tt, w, [])
  | None => (Ok tt, w, [])
  end.
Proof.
  unfold frame_body. rewrite bind_run, getThis_run. cbv beta iota zeta.
  destruct (videoElement (this w)) as [video|]; [ | reflexivity ].
  destruct (bool_decide (2 ≤ readyState video)); [ | reflexivity ].
  unfold when at 1. rewrite bind_run.
  pose proof (renderFrame_keeps_wanted (fpsNow env) w) as Hkeep.
  unfold world in Hkeep.
  destruct (renderFrame (fpsNow env) w) as [[[[]|message] w1] e1];
    [ | reflexivity ].
  cbv beta iota zeta. rewrite dispatch_run. cbn [fst snd] in Hkeep.
  assert (Hsame : dispatch_to env (this w1) dispatch_order =
                  dispatch_to env (this w) dispatch_order).
  { unfold dispatch_order, dispatch_to. rewrite !Hkeep. reflexivity. }
  rewrite Hsame. reflexivity.
Qed.

Lemma elem_of_dispatch_to env t d ds :
  d ∈ dispatch_to env t ds → d ∈ ds ∧ wanted t d = true.
Proof.
  induction ds as [|d' rest IH]; simpl; [ intros H; inversion H | ].
  destruct (wanted t d') eqn:Hw.
  - intros Hin. apply elem_of_cons in Hin as [->|Hin].
    + split; [ left | exact Hw ].
    + destruct (rejects env d'); [ inversion Hin | ].
      destruct (IH Hin) as [? ?]. split; [ right | ]; assumption.
  - intros Hin. destruct (IH Hin) as [? ?]. split; [ right | ]; assumption.
Qed.

(** What an accepted tick emits, whatever happens in it. *)
Lemma processFrame_effects env w :
  isTracking (this w) = true →
  lt (now env - lastFrameTime (this w)) (frameInterval (this w)) = false →
  let w1 := {| this := set_lastFrameTime (now env) (this w);
               document := document w |} in
  ∃ tail,
    effects (processFrame env w) = effects (frame_body env w1) ++ tail ∧
    Forall (λ e, is_send e = false) tail.
Proof.
  intros Htracking Hdue w1.
  rewrite (processFrame_accepted env w Htracking Hdue). fold w1.
  unfold effects.
  destruct (frame_body env w1) as [[[[]|[message| |]] w2] e2]; cbn [snd].
  - eexists. split; [ reflexivity | repeat constructor ].
  - eexists. split; [ reflexivity | ].
    destruct (showDebug (this w2)); repeat constructor.
  - exists []. split; [ rewrite app_nil_r; reflexivity | constructor ].
  - exists []. split; [ rewrite app_nil_r; reflexivity | constructor ].
Qed.

(** A frame sent on a tick was sent by the dispatch round of that tick. *)
Lemma sent_in_dispatch env w d :
  Send d ∈ effects (processFrame env w) →
  isTracking (this w) = true ∧
  lt (now env - lastFrameTime (this w)) (frameInterval (this w)) = false ∧
  d ∈ dispatch_to env (this w) dispatch_order ∧
  ∃ video, videoElement (this w) = Some video ∧ 2 ≤ readyState video.
Proof.
  intros Hsent.
  destruct (isTracking (this w)) eqn:Htracking; cycle 1.
  { unfold processFrame in Hsent. rewrite bind_run, getThis_run in Hsent.
    cbv beta iota zeta in Hsent. rewrite Htracking in Hsent.
    cbn in Hsent. inversion Hsent. }
  destruct (lt (now env - lastFrameTime (this w)) (frameInterval (this w)))
    eqn:Hdue.
  { rewrite processFrame_skips in Hsent by assumption.
    cbn in Hsent. apply list_elem_of_singleton in Hsent. discriminate. }
  destruct (processFrame_effects env w Htracking Hdue) as (tail & Heff & Htail).
  rewrite Heff in Hsent. clear Heff.
  apply elem_of_app in Hsent as [Hsent|Hsent]; cycle 1.
  { rewrite Forall_forall in Htail. apply Htail in Hsent. discriminate. }
  rewrite frame_body_run in Hsent. cbn [this videoElement set_lastFrameTime] in Hsent.
  destruct (videoElement (this w)) as [video|]; [ | inversion Hsent ].
  case_bool_decide as Hready; [ | inversion Hsent ].
  pose proof (renderFrame_sends_nothing (fpsNow env)
                {| this := set_lastFrameTime (now env) (this w);
                   document := document w |}) as Hrender.
  unfold effects in *.
  destruct (renderFrame _ _) as [[[[]|message] w2] e2]; cbn [snd] in *.
  - apply elem_of_app in Hsent as [Hsent|Hsent].
    + rewrite Forall_forall in Hrender. apply Hrender in Hsent. discriminate.
    + apply list_elem_of_fmap in Hsent as (d' & [= <-] & Hin).
      repeat split; try reflexivity; [ exact Hin | eauto ].
  - rewrite Forall_forall in Hrender. apply Hrender in Hsent. discriminate.
Qed.

(** X6.  A frame goes only to a detector that exists and is switched on, and
    only on a tick that is accepted while tracking is on and the video is
    ready. *)
Theorem frame_sent_only_if_wanted (env : TickEnv) (w : World) (d : Detector) :
  Send d ∈ effects (processFrame env w) →
  isTracking (this w) = true ∧
  lt (now env - lastFrameTime (this w)) (frameInterval (this w)) = false ∧
  wanted (this w) d = true ∧
  ∃ video, videoElement (this w) = Some video ∧ 2 ≤ readyState video.
Proof.
  intros Hsent.
  destruct (sent_in_dispatch env w d Hsent) as (Ht & Hdue & Hin & Hvideo).
  apply elem_of_dispatch_to in Hin as [_ Hw]. auto.
Qed.

Lemma frame_sent_only_if_wanted_witness :
  wanted (this started) Pose = true.
Proof.
  refine (proj1 (proj2 (proj2 (frame_sent_only_if_wanted (quiet_tick 1000) started Pose _)))).
  vm_compute. set_solver.
Defined.

Lemma dispatch_to_stops env t d d' message :
  wanted t d = true → rejects env d = Some message → later d d' = true →
  d' ∉ dispatch_to env t dispatch_order.
Proof.
  intros Hw Hrej Hlater Hin. unfold dispatch_order, dispatch_to in Hin.
  destruct d, d'; try discriminate Hlater;
    repeat match type of Hin with
           | context [wanted t ?x] => destruct (wanted t x) eqn:?
           | context [rejects env ?x] => destruct (rejects env x) eqn:?
           end;
    try congruence;
    repeat (apply elem_of_cons in Hin as [Heq|Hin]; [ discriminate Heq | ]);
    inversion Hin.
Qed.

(** X7.  The three sends are awaited one after the other inside one [try]:
    when a detector that was sent the frame rejects it, the detectors that
    come later in the order pose, face, hands get no frame on that tick. *)
Theorem rejection_ends_dispatch (env : TickEnv) (w : World) (d d' : Detector)
    (error : Thrown) :
  wanted (this w) d = true → rejects env d = Some error →
  later d d' = true →
  Send d' ∉ effects (processFrame env w).
Proof.
  intros Hw Hrej Hlater Hsent.
  destruct (sent_in_dispatch env w d' Hsent) as (_ & _ & Hin & _).
  exact (dispatch_to_stops env (this w) d d' error Hw Hrej Hlater Hin).
Qed.

Lemma rejection_ends_dispatch_witness :
  Send Hands ∉
  effects (processFrame
             {| now := 1000; fpsNow := 1000;
                rejects := λ d, match d with
                                | Pose => Some (Exception "pose: not ready")
                                | _ => None
                                end |} started).
Proof.
  apply (rejection_ends_dispatch _ started Pose Hands
           (Exception "pose: not ready"));
    reflexivity.
Defined.

(** X8.  On an accepted tick with the video ready, a context and a canvas,
    the trace starts with the six canvas calls that paint the mirrored video
    at the video's resolution, then the frames sent, in the order pose,
    face, hands, to the detectors that exist and are switched on, up to the
    first that rejects.  When none rejects, or one rejects with a value that
    has a message, the tick returns normally: the warning, if any, and then
    the request for the next animation frame end the trace.  When one
    rejects with [null] or [undefined], the trace ends with the frame sent
    to it and the tick throws a [TypeError]. *)
Theorem accepted_tick_trace (env : TickEnv) (w : World) (video : Video)
    (cv : Canvas) :
  isTracking (this w) = true →
  lt (now env - lastFrameTime (this w)) (frameInterval (this w)) = false →
  videoElement (this w) = Some video → 2 ≤ readyState video →
  truthy (videoWidth video) = true → truthy (videoHeight video) = true →
  canvasElement (this w) = Some cv → canvasCtx (this w) = true →
  let sent := dispatch_to env (this w) dispatch_order in
  let painted := Paint <$> video_layer (videoWidth video) (videoHeight video) in
  let r := processFrame env w in
  match last sent ≫= rejects env with
  | None =>
      result r = Ok tt ∧
      effects r = painted ++ (Send <$> sent) ++ [RequestAnimationFrame]
  | Some (Exception message) =>
      result r = Ok tt ∧
      effects r =
        painted ++ (Send <$> sent) ++
        frame_warning (this w) (Some message) ++ [RequestAnimationFrame]
  | Some ThrownNull =>
      result r = Throw (Exception (null_read "message")) ∧
      effects r = painted ++ (Send <$> sent)
  | Some ThrownUndefined =>
      result r = Throw (Exception (undefined_read "message")) ∧
      effects r = painted ++ (Send <$> sent)
  end.
Proof.
  intros Htracking Hdue Hvideo Hready Hw Hh Hcv Hctx. cbv zeta.
  rewrite (processFrame_accepted env w Htracking Hdue). cbv zeta.
  rewrite frame_body_run. cbn [this videoElement set_lastFrameTime].
  rewrite Hvideo, bool_decide_true by exact Hready.
  set (w1 := {| this := set_lastFrameTime (now env) (this w);
                document := document w |}).
  destruct (renderFrame_ready (fpsNow env) w1 video cv Hvideo Hw Hh Hcv Hctx)
    as (Hres & Heff & _).
  pose proof (renderFrame_keeps showDebug (fpsNow env) w1
                ltac:(reflexivity) ltac:(reflexivity) ltac:(reflexivity)
                ltac:(reflexivity)) as Hdebug.
  unfold result, effects, world in *.
  destruct (renderFrame (fpsNow env) w1) as [[res w2] e2].
  cbn [fst snd] in *. subst res e2. cbv zeta.
  unfold frame_warning.
  destruct (last _ ≫= rejects env) as [[message| |]|]; cbn [fst snd];
    (split; [ reflexivity | ]).
  - rewrite Hdebug. cbn [this showDebug set_lastFrameTime].
    rewrite <- !app_assoc. reflexivity.
  - reflexivity.
  - reflexivity.
  - rewrite <- !app_assoc. reflexivity.
Qed.

Lemma accepted_tick_trace_witness :
  result (processFrame (quiet_tick 1000) started) = Ok tt ∧
  effects (processFrame (quiet_tick 1000) started) =
    (Paint <$> video_layer 640 480) ++
    (Send <$> [Pose; FaceMesh; Hands]) ++ [RequestAnimationFrame].
Proof.
  refine (accepted_tick_trace (quiet_tick 1000) started
            {| videoWidth := 640; videoHeight := 480; readyState := 4 |}
            {| width := 300; height := 150 |} _ _ _ _ _ _ _ _);
    first [ vm_compute; reflexivity | simpl; lia ].
Defined.

(** X9.  Without a 2D context the render throws before anything is painted,
    so an accepted tick with the video ready sends no frame to any detector:
    it only logs the warning and asks for the next animation frame. *)
Theorem render_failure_blocks_dispatch (env : TickEnv) (w : World)
    (video : Video) :
  isTracking (this w) = true →
  lt (now env - lastFrameTime (this w)) (frameInterval (this w)) = false →
  videoElement (this w) = Some video → 2 ≤ readyState video →
  truthy (videoWidth video) = true → canvasCtx (this w) = false →
  effects (processFrame env w) =
    frame_warning (this w) (Some (null_read "clearRect")) ++
    [RequestAnimationFrame].
Proof.
  intros Htracking Hdue Hvideo Hready Hw Hctx.
  rewrite (processFrame_accepted env w Htracking Hdue). cbv zeta.
  rewrite frame_body_run. cbn [this videoElement set_lastFrameTime].
  rewrite Hvideo, bool_decide_true by exact Hready.
  set (w1 := {| this := set_lastFrameTime (now env) (this w);
                document := document w |}).
  destruct (renderFrame_no_context (fpsNow env) w1 video Hvideo Hw Hctx)
    as (Hres & Heff & Hdebug).
  unfold result, effects, world in *.
  destruct (renderFrame (fpsNow env) w1) as [[res w2] e2].
  cbn [fst snd] in *. subst res e2. cbn [snd frame_warning].
  rewrite Hdebug. reflexivity.
Qed.

Lemma render_failure_blocks_dispatch_witness :
  let w := {| this := set_canvasCtx false (this started); document := page |} in
  effects (processFrame (quiet_tick 1000) w) =
  [Console LogWarning
     ("⚠️ Frame processing error: " +:+ null_read "clearRect");
   RequestAnimationFrame].
Proof.
  cbv zeta.
  refine (render_failure_blocks_dispatch (quiet_tick 1000) _
            {| videoWidth := 640; videoHeight := 480; readyState := 4 |}
            _ _ _ _ _ _);
    first [ vm_compute; reflexivity | simpl; lia ].
Defined.

(** ** The frame rate limit *)







(** With a clock that does not start at 0 the first tick is accepted. *)
Example ticks_from_one_second :
  accepted_ticks (quiet_tick <$> [1000; 1010; 1020; 1040]%float) started
  = [1000; 1040]%float.
Proof. vm_compute. reflexivity. Qed.

(** ** A loop that is not running *)

Lemma processFrame_stopped env w :
  isTracking (this w) = false → processFrame env w = (Ok tt, w, []).
Proof.
  intros Hoff. unfold processFrame. rewrite bind_run, getThis_run.
  cbv beta iota zeta. rewrite Hoff. reflexivity.
Qed.

(** X10.  Nothing but [startOptimizedTracking] turns tracking on: while the
    flag is off, no tick, completion, camera frame or button press sends a
    frame or asks for an animation frame, and the flag stays off. *)
Theorem stopped_loop_stays_stopped (w : World) (evs : list Event) :
  isTracking (this w) = false →
  isTracking (this (run evs w).1) = false ∧
  Forall (λ e, e ≠ RequestAnimationFrame ∧ is_send e = false) (run evs w).2.
Proof.
  apply (inv_run (λ t, isTracking t = false)
                 (λ e, e ≠ RequestAnimationFrame ∧ is_send e = false)).
  intros ev.
  assert (Hlog : may_log (λ e, e ≠ RequestAnimationFrame ∧ is_send e = false))
    by (intros ? ?; split; [ discriminate | reflexivity ]).
  assert (Hpaint : may_paint (λ e, e ≠ RequestAnimationFrame ∧ is_send e = false))
    by (intros ?; split; [ discriminate | reflexivity ]).
  destruct ev as [env|results now|results now|results now|video|d on]; simpl.
  - intros w' Hoff. rewrite processFrame_stopped by exact Hoff.
    split; [ exact Hoff | constructor ].
  - apply inv_onPoseResults; auto; intros v t Ht; exact Ht.
  - apply inv_onFaceResults; auto; intros v t Ht; exact Ht.
  - apply inv_onHandsResults; auto; intros v t Ht; exact Ht.
  - repeat first [ apply inv_assign; intros ? Hx; exact Hx | inv_step ].
  - apply inv_assign. intros t Ht. destruct d; exact Ht.
Qed.

Lemma stopped_loop_stays_stopped_witness :
  Forall (λ e, e ≠ RequestAnimationFrame ∧ is_send e = false)
         (run [Tick (quiet_tick 1000); PoseDone a_pose 1010]
              (new_page 0 page)).2.
Proof.
  apply (stopped_loop_stays_stopped (new_page 0 page)). reflexivity.
Defined.

(** ** The hands cache in a session *)

Lemma handsLandmarks_init_constant : init_constant handsLandmarks.
Proof. unfold init_constant, tick_constant. repeat split; reflexivity. Qed.

Lemma step_keeps_hands_array ev :
  inv (λ t, is_Some (handsLandmarks t)) (λ _, True) (step ev).
Proof.
  assert (Hlog : may_log (λ _ : Effect, True)) by (intros ? ?; exact I).
  assert (Hpaint : may_paint (λ _ : Effect, True)) by (intros ?; exact I).
  destruct ev as [env|results now|results now|results now|video|d on]; simpl.
  - apply inv_processFrame; auto; [ | intros v t Ht; exact Ht ].
    apply inv_frame_body; auto; intros v t Ht; exact Ht.
  - apply inv_onPoseResults; auto; intros v t Ht; exact Ht.
  - apply inv_onFaceResults; auto; intros v t Ht; exact Ht.
  - unfold onHandsResults.
    repeat first [ apply inv_assign; intros ? Hx;
                   first [ exact Hx | eexists; reflexivity ]
                 | apply inv_drawHandsLandmarks, Hpaint
                 | apply inv_hands_nonempty
                 | apply inv_logHandsData, Hlog
                 | inv_step ].
  - repeat first [ apply inv_assign; intros ? Hx; exact Hx | inv_step ].
  - apply inv_assign. intros t Ht. destruct d; exact Ht.
Qed.

(** X11.  Throughout a session the hands cache is an array, never [null]:
    the constructor sets it to the empty array and a hands completion
    replaces a missing payload by the empty array.  So reading its length
    never throws, and [updateTrackingStatus] always returns. *)
Theorem hands_cache_stays_an_array (w : World) :
  reachable w →
  is_Some (handsLandmarks (this w)) ∧
  result (updateTrackingStatus w) = Ok tt ∧
  ∃ some, result (hands_nonempty w) = Ok some.
Proof.
  intros (now0 & doc & env & evs & ->).
  assert (Harray : is_Some (handsLandmarks
            (this (run evs (world (init env (new_page now0 doc)))).1))).
  { apply (inv_run (λ t, is_Some (handsLandmarks t)) (λ _, True)
                   step_keeps_hands_array).
    rewrite (proj1 (inv_init handsLandmarks (Some []) handsLandmarks_init_constant
                      env (new_page now0 doc) eq_refl)).
    eexists. reflexivity. }
  destruct Harray as [hs Hhs]. split; [ eexists; exact Hhs | split ].
  - apply (updateTrackingStatus_returns _ hs Hhs).
  - unfold hands_nonempty. rewrite bind_run, getThis_run. cbv beta iota zeta.
    rewrite Hhs. eexists. reflexivity.
Qed.

Lemma hands_cache_stays_an_array_witness :
  result (updateTrackingStatus
            (run [HandsDone {| multiHandLandmarks := None |} 10] started).1) = Ok tt.
Proof.
  refine (proj1 (proj2 (hands_cache_stays_an_array _ _))).
  exists 0%float, page, (studio no_failure),
         [HandsDone {| multiHandLandmarks := None |} 10%float].
  reflexivity.
Defined.

(** ** A detector whose setup fails *)

(** What the call of [processFrame] made by [init] leaves as it was. *)
Lemma after_first_call_adapter d env w :
  adapter d (this (after_first_call env w)) = adapter d (this w).
Proof.
  rewrite (after_first_call_constant (adapter d));
    [ destruct d; reflexivity | ].
  unfold tick_constant. repeat split; intros; destruct d; reflexivity.
Qed.

Lemma after_first_call_show_flag d env w :
  show_flag d (this (after_first_call env w)) = show_flag d (this w).
Proof.
  rewrite (after_first_call_constant (show_flag d));
    [ destruct d; reflexivity | ].
  unfold tick_constant. repeat split; intros; destruct d; reflexivity.
Qed.

Lemma after_first_call_videoElement env w :
  videoElement (this (after_first_call env w)) = videoElement (this w).
Proof.
  rewrite (after_first_call_constant videoElement); [ reflexivity | ].
  unfold tick_constant. repeat split; reflexivity.
Qed.


Lemma after_first_call_isTracking env w :
  isTracking (this (after_first_call env w)) = true.
Proof.
  rewrite (after_first_call_constant isTracking); [ reflexivity | ].
  unfold tick_constant. repeat split; reflexivity.
Qed.


(** Bring [init env w] in the hypothesis [H] to the triple it computes; the
    call of [processFrame] it makes is kept as [after_first_call] and
    [first_call_effects]. *)
Ltac run_init_in H :=
  unfold init, setupMediaPipeSequentially, setupPose, setupFaceMesh,
    setupHands, startCamera in H;
  cbn [dom_complete setup_failure canvas context2d camera camera_failure
       first_tick] in H.

Ltac run_init_step_in H :=
  first [ rewrite startOptimizedTracking_run in H | run_rewrite_in H ];
  rewrite ?after_first_call_showDebug in H;
  run_reduce_in H.

(** After the pushes [init] makes, read the status of one module. *)
Ltac read_status :=
  let el := fresh "el" in
  let Hel := fresh "Hel" in
  intros [el Hel]; unfold status_of in *;
  cbn [document world fst snd status_name new_page] in *;
  rewrite ?after_first_call_document by discriminate;
  cbn [document];
  rewrite !lookup_push_status;
  repeat (case_decide; try discriminate); try congruence;
  destruct (_ !! _); [ reflexivity | discriminate ].













(** X25.  A setup that fails by throwing [null] or [undefined] is not
    isolated, whichever detector it is: the [catch] clause of its setup
    method throws on reading [error.message], before it disables the module
    or pushes a status.  So [init] stops there: the detectors that come
    later in the order pose, face, hands are never set up, the loop never
    starts, the failed module's flag stays on and its status is left as the
    page had it, and the error modal shows the engine's [TypeError]
    message. *)
Theorem setup_failure_without_message (env : InitEnv) (now0 : float)
    (doc : gmap string Element) (d : Detector) (stage : Stage)
    (error : Thrown) :
  is_Some (canvas env) →
  setup_failure env d = Some (stage, error) →
  (∀ d', later d' d = true → setup_failure env d' = None) →
  error = ThrownNull ∨ error = ThrownUndefined →
  let r := init env (new_page now0 doc) in
  result r = Ok tt ∧
  isTracking (this (world r)) = false ∧
  show_flag d (this (world r)) = true ∧
  status_of d (world r) = status_of d (new_page now0 doc) ∧
  (∀ d', later d d' = true → adapter d' (this (world r)) = None) ∧
  ErrorModal (match error with
              | ThrownUndefined => undefined_read "message"
              | _ => null_read "message"
              end) ∈ effects r.
Proof.
  intros [c Hc] Hfails Hearlier Herror. cbv zeta.
  destruct env as [dc cv ctx sf cf cam ft].
  simpl in Hc, Hfails, Hearlier. subst cv.
  set (r := init _ _).
  assert (Hr : init {| dom_complete := dc; canvas := Some c; context2d := ctx;
                       setup_failure := sf; camera_failure := cf;
                       camera := cam; first_tick := ft |}
                    (new_page now0 doc) = r) by reflexivity.
  clearbody r. run_init_in Hr.
  assert (Hstatus : ∀ doc',
            textContent <$> push_status "camera" "error" doc' !!
                            (status_name d +:+ "-status") =
            textContent <$> doc' !! (status_name d +:+ "-status")).
  { intros doc'. rewrite lookup_push_status.
    destruct d; (case_decide as Hid; [ discriminate Hid | reflexivity ]). }
  destruct d;
    repeat match goal with
           | |- _ => rewrite Hfails in Hr
           | |- _ => rewrite (Hearlier Pose eq_refl) in Hr
           | |- _ => rewrite (Hearlier FaceMesh eq_refl) in Hr
           end;
    destruct Herror as [-> | ->]; repeat run_init_step_in Hr; subst r;
    (split; [ reflexivity | ]);
    (split; [ reflexivity | ]);
    (split; [ reflexivity | ]);
    (split; [ unfold status_of; cbn [world fst snd document new_page];
              rewrite Hstatus; cbn [status_name];
              rewrite ?lookup_push_status;
              repeat (case_decide as Hid; [ discriminate Hid | ]);
              reflexivity | ]);
    (split; [ intros d' Hlater; destruct d'; try discriminate Hlater;
              reflexivity | ]);
    cbn [effects snd]; destruct dc; cbv beta iota fix delta [andb];
    repeat (apply elem_of_cons; first [ left; reflexivity | right ]).
Qed.

Lemma setup_failure_without_message_witness :
  isTracking
    (this (world (init (studio (λ d, match d with
                                     | FaceMesh => Some (AtNew, ThrownNull)
                                     | _ => None
                                     end))
                       (new_page 0 page)))) = false.
Proof.
  refine (proj1 (proj2 (setup_failure_without_message
                          (studio (λ d, match d with
                                        | FaceMesh => Some (AtNew, ThrownNull)
                                        | _ => None
                                        end))
                          0 page FaceMesh AtNew ThrownNull _ _ _ _))).
  - eexists. reflexivity.
  - reflexivity.
  - intros [] Hlater; first [ discriminate Hlater | reflexivity ].
  - left. reflexivity.
Defined.

(** ** How [init] ends *)

(** X12.  On a page without the [tracking-canvas] element, [init] stops
    before any setup: after its first line, and the line that it waits for
    the page when the document is not complete yet, it logs the failure,
    pushes [error] as the camera status and opens the error modal with the
    message; no detector is set up, no camera is asked for and the tracker
    is left as the constructor made it. *)
Theorem init_without_canvas (env : InitEnv) (now0 : float)
    (doc : gmap string Element) :
  canvas env = None →
  let message := "Canvas element " +:+ dquote +:+ "tracking-canvas" +:+ dquote
                 +:+ " not found. Please check HTML structure." in
  init env (new_page now0 doc) =
  (Ok tt,
   {| this := constructor now0; document := push_status "camera" "error" doc |},
   Console LogInfo "🚀 Initializing Full Body & Face Tracker..." ::
   (if dom_complete env then []
    else [Console LogInfo "⏳ Waiting for DOM to load..."]) ++
   [Console LogError ("❌ Initialization failed: " +:+ message);
    ErrorModal message]).
Proof.
  intros Hcanvas. cbv zeta. destruct env as [dc cv ctx sf cf cam ft].
  simpl in Hcanvas. subst cv.
  set (r := init _ _).
  assert (Hr : init {| dom_complete := dc; canvas := None; context2d := ctx;
                       setup_failure := sf; camera_failure := cf;
                       camera := cam; first_tick := ft |}
                    (new_page now0 doc) = r) by reflexivity.
  clearbody r. run_init_in Hr. destruct dc; repeat run_init_step_in Hr;
    subst r; reflexivity.
Qed.

Lemma init_without_canvas_witness :
  effects (init {| dom_complete := false; canvas := None; context2d := true;
                   setup_failure := no_failure; camera_failure := None;
                   camera := camera (studio no_failure);
                   first_tick := quiet_tick 0 |}
                (new_page 0 page)) =
  [Console LogInfo "🚀 Initializing Full Body & Face Tracker...";
   Console LogInfo "⏳ Waiting for DOM to load...";
   Console LogError
     ("❌ Initialization failed: " +:+
      "Canvas element " +:+ dquote +:+ "tracking-canvas" +:+ dquote
      +:+ " not found. Please check HTML structure.");
   ErrorModal
     ("Canvas element " +:+ dquote +:+ "tracking-canvas" +:+ dquote
      +:+ " not found. Please check HTML structure.")].
Proof.
  rewrite init_without_canvas by reflexivity. reflexivity.
Defined.

(** X13.  When the detectors are set up and the camera is refused, [init]
    keeps the three detectors but never starts the loop: the camera status
    reads [error], the reason is logged as an error, and the modal shows the
    fixed webcam message instead of the reason. *)
Theorem init_camera_refused (env : InitEnv) (now0 : float)
    (doc : gmap string Element) (reason : string) :
  is_Some (canvas env) → (∀ d, setup_failure env d = None) →
  camera_failure env = Some reason →
  let r := init env (new_page now0 doc) in
  result r = Ok tt ∧
  (∀ d, adapter d (this (world r)) = Some ready) ∧
  isTracking (this (world r)) = false ∧
  (is_Some (doc !! "camera-status") →
   textContent <$> document (world r) !! "camera-status" = Some "error") ∧
  Console LogError ("❌ Camera start failed: " +:+ reason) ∈ effects r ∧
  ErrorModal "Unable to access webcam. Please ensure it is connected and permissions are granted."
    ∈ effects r ∧
  FirstFrame ∉ effects r.
Proof.
  intros [c Hc] Hsetup Hcamera. cbv zeta.
  destruct env as [dc cv ctx sf cf cam ft].
  simpl in Hc, Hsetup, Hcamera. subst cv cf.
  set (r := init _ _).
  assert (Hr : init {| dom_complete := dc; canvas := Some c; context2d := ctx;
                       setup_failure := sf; camera_failure := Some reason;
                       camera := cam; first_tick := ft |}
                    (new_page now0 doc) = r) by reflexivity.
  clearbody r. run_init_in Hr. rewrite !Hsetup in Hr.
  repeat run_init_step_in Hr. subst r.
  split; [ reflexivity | split; [ intros []; reflexivity | ] ].
  split; [ reflexivity | split ].
  - intros [el Hel]. cbn [document world fst snd].
    rewrite !lookup_push_status.
    repeat (case_decide as Hid;
            [ try discriminate Hid | try (exfalso; apply Hid; reflexivity) ]).
    rewrite Hel. reflexivity.
  - cbn [effects snd]. destruct dc; cbv beta iota fix delta [andb];
      repeat split;
      first [ solve [ repeat (apply elem_of_cons;
                              first [ left; reflexivity | right ]) ]
            | intros Hin;
              repeat (apply elem_of_cons in Hin as [Heq|Hin];
                      [ discriminate Heq | ]);
              inversion Hin ].
Qed.

Lemma init_camera_refused_witness :
  isTracking
    (this (world (init {| dom_complete := false;
                          canvas := Some {| width := 300; height := 150 |};
                          context2d := true; setup_failure := no_failure;
                          camera_failure := Some "Permission denied";
                          camera := camera (studio no_failure);
                          first_tick := quiet_tick 0 |}
                       (new_page 0 page)))) = false.
Proof.
  refine (proj1 (proj2 (proj2 (init_camera_refused _ 0 page "Permission denied" _ _ _)))).
  - eexists. reflexivity.
  - intros d. reflexivity.
  - reflexivity.
Defined.

(** [renderFrame] when everything it needs is there, as an equation. *)
Lemma renderFrame_ready_run fpsNow w video cv :
  videoElement (this w) = Some video →
  truthy (videoWidth video) = true → truthy (videoHeight video) = true →
  canvasElement (this w) = Some cv → canvasCtx (this w) = true →
  renderFrame fpsNow w =
  (Ok tt,
   world (updateFPS fpsNow
            {| this := set_canvasElement
                         (Some {| width := videoWidth video;
                                  height := videoHeight video |}) (this w);
               document := document w |}),
   Paint <$> video_layer (videoWidth video) (videoHeight video)).
Proof.
  intros Hvideo Hw Hh Hcv Hctx.
  unfold renderFrame, resizeCanvas, canvas_size, require_ctx, when.
  rewrite bind_run, getThis_run. cbv beta iota zeta. rewrite Hvideo, Hw.
  cbv beta iota zeta delta [negb].
  rewrite bind_run, bind_run, getThis_run. cbv beta iota zeta.
  rewrite Hvideo, Hcv, Hw, Hh. cbv beta iota zeta delta [andb].
  rewrite assign_run. cbv beta iota zeta.
  rewrite bind_run, bind_run, getThis_run. cbv beta iota zeta.
  cbn [this canvasCtx set_canvasElement]. rewrite Hctx.
  rewrite ret_run. cbv beta iota zeta.
  rewrite bind_run, bind_run, getThis_run. cbv beta iota zeta.
  cbn [this canvasElement set_canvasElement]. rewrite ret_run.
  cbv beta iota zeta. rewrite bind_run. unfold paint. cbv beta iota zeta.
  rewrite updateFPS_run. cbn [world fst snd width height].
  rewrite app_nil_r. reflexivity.
Qed.

(** A call of [processFrame] that passes the rate limit with a video that
    can be painted and the pose detector on: up to its first [await] it
    moves [lastFrameTime], renders, and sends the frame to pose. *)
Lemma processFrame_start_ready env w video cv :
  isTracking (this w) = true →
  lt (now env - lastFrameTime (this w)) (frameInterval (this w)) = false →
  videoElement (this w) = Some video → 2 ≤ readyState video →
  truthy (videoWidth video) = true → truthy (videoHeight video) = true →
  canvasElement (this w) = Some cv → canvasCtx (this w) = true →
  wanted (this w) Pose = true →
  processFrame_start env w =
  (Ok (Some Pose),
   world (updateFPS (fpsNow env)
            {| this := set_canvasElement
                         (Some {| width := videoWidth video;
                                  height := videoHeight video |})
                         (set_lastFrameTime (now env) (this w));
               document := document w |}),
   (Paint <$> video_layer (videoWidth video) (videoHeight video)) ++
   [Send Pose]).
Proof.
  intros Htracking Hdue Hvideo Hready Hw Hh Hcv Hctx Hwanted.
  unfold processFrame_start. rewrite bind_run, getThis_run.
  cbv beta iota zeta. rewrite Htracking. change (negb true) with false.
  rewrite Hdue. cbv iota.
  rewrite bind_run, assign_run. cbv beta iota zeta.
  rewrite bind_run, try_catch_run.
  unfold frame_body_start. rewrite bind_run, getThis_run.
  cbv beta iota zeta. cbn [this videoElement set_lastFrameTime].
  rewrite Hvideo, bool_decide_true by exact Hready.
  rewrite bind_run.
  rewrite (renderFrame_ready_run (fpsNow env)
             {| this := set_lastFrameTime (now env) (this w);
                document := document w |} video cv Hvideo Hw Hh Hcv Hctx).
  cbv beta iota zeta. cbn [this document].
  unfold first_send. rewrite bind_run, getThis_run. cbv beta iota zeta.
  rewrite updateFPS_run. cbn [world fst snd this lastFpsTime set_canvasElement
                              set_lastFrameTime].
  unfold wanted in Hwanted. cbn [adapter show_flag] in Hwanted.
  destruct (ge _ _); cbn [this pose showPose set_lastFpsTime set_frameCount
                          set_fps set_canvasElement set_lastFrameTime];
    rewrite Hwanted; rewrite bind_run, emit_run; cbv beta iota zeta;
    rewrite ret_run; cbv beta iota zeta; rewrite ret_run; reflexivity.
Qed.

(** X14.  On a page with the canvas, when no setup fails and the camera is
    granted, [init] returns normally with the three detectors configured
    and listening, the three flags on, the camera's video in place and the
    loop started; the statuses the page has elements for all read [active],
    and the trace ends with the loading screen hidden and the line that
    tracking started.  Before that, [init] has made the first call of the
    loop.  When that call passes the rate limit and the camera's video can
    be painted, it has run up to its first [await] by the time [init] ends:
    [lastFrameTime] is its clock reading, the canvas has the video's
    resolution, the frame is counted, and the trace ends with the mirrored
    video painted, the frame sent to pose, and only then the loading screen
    hidden.  When the rate limit stops it, it has only asked for the next
    animation frame. *)
Theorem init_succeeds (env : InitEnv) (now0 : float)
    (doc : gmap string Element) :
  is_Some (canvas env) → (∀ d, setup_failure env d = None) →
  camera_failure env = None →
  let r := init env (new_page now0 doc) in
  let w' := world r in
  let tick := first_tick env in
  let video := camera env in
  let ending := [HideLoading; Console LogInfo "✅ Full body tracking started"] in
  result r = Ok tt ∧
  (∀ d, adapter d (this w') = Some ready ∧
        show_flag d (this w') = true ∧
        (is_Some (status_of d (new_page now0 doc)) →
         status_of d w' = Some "active")) ∧
  isTracking (this w') = true ∧
  videoElement (this w') = Some video ∧
  (is_Some (doc !! "camera-status") →
   textContent <$> document w' !! "camera-status" = Some "active") ∧
  ending `suffix_of` effects r ∧
  (lt (now tick - 0) (1000 / 30) = false →
   2 ≤ readyState video → truthy (videoWidth video) = true →
   truthy (videoHeight video) = true → context2d env = true →
   lastFrameTime (this w') = now tick ∧
   canvasElement (this w') =
     Some {| width := videoWidth video; height := videoHeight video |} ∧
   (frameCount (this w'), fps (this w')) =
     (if ge (fpsNow tick - now0) 1000 then (0, 1) else (1, 0))%N ∧
   (FirstFrame ::
    (Paint <$> video_layer (videoWidth video) (videoHeight video)) ++
    Send Pose :: ending) `suffix_of` effects r) ∧
  (lt (now tick - 0) (1000 / 30) = true →
   lastFrameTime (this w') = 0%float ∧
   canvasElement (this w') = canvas env ∧
   (FirstFrame :: RequestAnimationFrame :: ending) `suffix_of` effects r).
Proof.
  intros [c Hc] Hsetup Hcamera. cbv zeta.
  destruct env as [dc cv ctx sf cf cam ft].
  simpl in Hc, Hsetup, Hcamera. subst cv cf.
  set (r := init _ _).
  assert (Hr : init {| dom_complete := dc; canvas := Some c; context2d := ctx;
                       setup_failure := sf; camera_failure := None;
                       camera := cam; first_tick := ft |}
                    (new_page now0 doc) = r) by reflexivity.
  clearbody r. run_init_in Hr. rewrite !Hsetup in Hr.
  repeat run_init_step_in Hr. subst r.
  cbn [result world effects fst snd canvas context2d camera first_tick].
  split; [ reflexivity | split ].
  { intros d. split; [ rewrite after_first_call_adapter; destruct d; reflexivity | ].
    split; [ rewrite after_first_call_show_flag; destruct d; reflexivity | ].
    destruct d; read_status. }
  split; [ apply after_first_call_isTracking | ].
  split; [ rewrite after_first_call_videoElement; reflexivity | ].
  split.
  { intros [el Hel]. rewrite after_first_call_document by discriminate.
    cbn [document]. rewrite !lookup_push_status.
    repeat (case_decide as Hid;
            [ try discriminate Hid | try (exfalso; apply Hid; reflexivity) ]).
    rewrite Hel. reflexivity. }
  set (W := {| this := _; document := _ |}).
  set (ending := [HideLoading; Console LogInfo "✅ Full body tracking started"]).
  assert (Hending : ∀ es,
            es `suffix_of` FirstFrame :: first_call_effects ft W ++ ending →
            es `suffix_of`
               Console LogInfo "🚀 Initializing Full Body & Face Tracker..." ::
               (if negb dc && true
                then [Console LogInfo "⏳ Waiting for DOM to load..."]
                else []) ++
               [Console LogInfo "🔧 Setting up MediaPipe modules sequentially...";
                Console LogInfo "🔧 Setting up MediaPipe Pose...";
                Console LogInfo "✅ MediaPipe Pose initialized";
                Console LogInfo "🔧 Setting up MediaPipe FaceMesh...";
                Console LogInfo "✅ MediaPipe FaceMesh initialized";
                Console LogInfo "🔧 Setting up MediaPipe Hands...";
                Console LogInfo "✅ MediaPipe Hands initialized";
                Console LogInfo "✅ All MediaPipe modules initialized";
                Console LogInfo "📹 Starting camera...";
                Console LogInfo "Camera permissions granted";
                Console LogInfo "✅ Camera started successfully";
                Console LogInfo "🎯 Starting optimized tracking loop..."] ++
               FirstFrame :: first_call_effects ft W ++ ending).
  { intros es Hes.
    apply suffix_cons_r, suffix_app_r, suffix_app_r, Hes. }
  split; [ | split ].
  - apply Hending, suffix_cons_r, suffix_app_r. reflexivity.
  - intros Hdue Hready Hw Hh Hctx. subst ctx.
    assert (Hstart := processFrame_start_ready ft (tracking W) cam c
                        eq_refl Hdue eq_refl Hready Hw Hh eq_refl eq_refl
                        eq_refl).
    unfold after_first_call. rewrite Hstart, updateFPS_run.
    cbn [world effects fst snd this lastFpsTime tracking W set_isTracking
         set_canvasElement set_lastFrameTime].
    split; [ destruct (ge _ _); reflexivity | ].
    split; [ destruct (ge _ _); reflexivity | ].
    split; [ destruct (ge _ _); reflexivity | ].
    apply Hending. unfold first_call_effects. rewrite Hstart.
    cbn [effects snd]. rewrite <- app_assoc. reflexivity.
  - intros Hearly.
    assert (Hstart : processFrame_start ft (tracking W) =
                     (Ok None, tracking W, [RequestAnimationFrame])).
    { unfold processFrame_start. rewrite bind_run, getThis_run.
      cbv beta iota zeta. cbn [this tracking W isTracking set_isTracking
                               lastFrameTime frameInterval].
      change (negb true) with false. cbv iota. rewrite Hearly.
      rewrite bind_run, emit_run. reflexivity. }
    unfold after_first_call. rewrite Hstart.
    cbn [world effects fst snd].
    split; [ reflexivity | split; [ reflexivity | ] ].
    apply Hending. unfold first_call_effects. rewrite Hstart. reflexivity.
Qed.

Lemma init_succeeds_witness :
  let env := {| dom_complete := false;
                canvas := Some {| width := 300; height := 150 |};
                context2d := true; setup_failure := no_failure;
                camera_failure := None;
                camera := {| videoWidth := 640; videoHeight := 480;
                             readyState := 4 |};
                first_tick := quiet_tick 5000 |} in
  lastFrameTime (this (world (init env (new_page 4000 page)))) = 5000%float ∧
  canvasElement (this (world (init env (new_page 4000 page)))) =
    Some {| width := 640; height := 480 |}.
Proof.
  cbv zeta.
  destruct (init_succeeds
              {| dom_complete := false;
                 canvas := Some {| width := 300; height := 150 |};
                 context2d := true; setup_failure := no_failure;
                 camera_failure := None;
                 camera := {| videoWidth := 640; videoHeight := 480;
                              readyState := 4 |};
                 first_tick := quiet_tick 5000 |} 4000 page)
    as (_ & _ & _ & _ & _ & _ & Haccepted & _).
  - eexists. reflexivity.
  - intros d. reflexivity.
  - reflexivity.
  - destruct Haccepted as (Hlast & Hcanvas & _);
      [ vm_compute; reflexivity | simpl; lia | reflexivity | reflexivity
      | reflexivity | ].
    split; [ exact Hlast | exact Hcanvas ].
Defined.


(** ** How many dots an overlay paints *)

Lemma dots_app a b : dots (a ++ b) = dots a + dots b.
Proof. unfold dots. rewrite filter_app, length_app. reflexivity. Qed.

Lemma dots_segment W H a b : dots (segment W H a b) = 0.
Proof. reflexivity. Qed.

Lemma dots_dot W H p r : dots (dot W H p r) = 1.
Proof. reflexivity. Qed.

Lemma dots_label W H font offset restore p i :
  dots (label W H font offset restore p i) = 0.
Proof. reflexivity. Qed.

Lemma dots_mjoin_fmap {A} (f : A → list Ctx.op) l :
  (∀ x, dots (f x) = 0) → dots (mjoin (f <$> l)) = 0.
Proof.
  intros Hf. induction l as [|x l IH]; [ reflexivity | ].
  change (mjoin (f <$> x :: l)) with (f x ++ mjoin (f <$> l)).
  rewrite dots_app, Hf, IH. reflexivity.
Qed.

Lemma dots_mjoin_imap {A} (f : nat → A → list Ctx.op) (g : A → nat) l :
  (∀ i x, dots (f i x) = g x) → dots (mjoin (imap f l)) = sum_list (g <$> l).
Proof.
  revert f. induction l as [|x l IH]; intros f Hf; [ reflexivity | ].
  change (mjoin (imap f (x :: l))) with (f 0 x ++ mjoin (imap (f ∘ S) l)).
  rewrite dots_app, Hf, (IH (f ∘ S)); [ reflexivity | ].
  intros i y. apply Hf.
Qed.

Lemma dots_pose_connection W H landmarks c :
  dots (pose_connection W H landmarks c) = 0.
Proof.
  unfold pose_connection.
  destruct (landmarks !! c.1), (landmarks !! c.2); try reflexivity.
  destruct (visibility_gt _ _ && visibility_gt _ _); reflexivity.
Qed.

Lemma dots_plain_connection W H landmarks c :
  dots (plain_connection W H landmarks c) = 0.
Proof.
  unfold plain_connection.
  destruct (landmarks !! c.1), (landmarks !! c.2); reflexivity.
Qed.

Lemma dots_pose_point W H debug i lm :
  dots (pose_point W H debug i lm) = if visibility_gt lm 0.3 then 1 else 0.
Proof.
  unfold pose_point. destruct (visibility_gt lm 0.3); [ | reflexivity ].
  rewrite dots_app, dots_dot.
  destruct (debug && bool_decide (i ∈ [0; 11; 12; 23; 24])); reflexivity.
Qed.

Lemma sum_list_indicator {A} (p : A → bool) l :
  sum_list ((λ x, if p x then 1 else 0) <$> l) =
  length (filter (λ x, p x = true) l).
Proof.
  induction l as [|x l IH]; [ reflexivity | ].
  rewrite fmap_cons, filter_cons. simpl sum_list. rewrite IH.
  destruct (p x) eqn:Hp.
  - rewrite decide_True by reflexivity. reflexivity.
  - rewrite decide_False by discriminate. reflexivity.
Qed.

Lemma dots_pose_ops W H debug landmarks :
  dots (pose_ops W H debug landmarks) = visibleLandmarks landmarks.
Proof.
  unfold pose_ops, visibleLandmarks. rewrite !dots_app.
  rewrite (dots_mjoin_fmap _ _ (dots_pose_connection W H landmarks)).
  rewrite (dots_mjoin_imap _ (λ lm, if visibility_gt lm 0.3 then 1 else 0))
    by apply dots_pose_point.
  rewrite sum_list_indicator. reflexivity.
Qed.

Lemma logPoseData_run w landmarks :
  poseLandmarks (this w) = Some landmarks → showDebug (this w) = true →
  logPoseData w =
  (Ok tt, w,
   [Console LogInfo
      ("🏃 Pose: " +:+ pretty (visibleLandmarks landmarks) +:+ "/" +:+
       pretty (length landmarks) +:+ " landmarks visible")]).
Proof.
  intros Hpose Hdebug. unfold logPoseData.
  rewrite bind_run, getThis_run. cbv beta iota zeta.
  rewrite Hpose, Hdebug, log_run, Hdebug. reflexivity.
Qed.

(** X15.  The pose overlay paints one dot for each landmark whose visibility
    is above 0.3 and for no other, and that number of dots is the number
    [logPoseData] prints as visible. *)
Theorem pose_dots_are_the_visible_landmarks (w : World) (cv : Canvas)
    (landmarks : list Landmark) :
  poseLandmarks (this w) = Some landmarks → showPose (this w) = true →
  canvasElement (this w) = Some cv → canvasCtx (this w) = true →
  ∃ ops,
    effects (drawPoseLandmarks w) = Paint <$> ops ∧
    dots ops = length (filter (λ lm, visibility_gt lm 0.3 = true) landmarks) ∧
    (showDebug (this w) = true →
     effects (logPoseData w) =
     [Console LogInfo
        ("🏃 Pose: " +:+ pretty (dots ops) +:+ "/" +:+
         pretty (length landmarks) +:+ " landmarks visible")]).
Proof.
  intros Hpose Hshow Hcv Hctx.
  exists (pose_ops (width cv) (height cv) (showDebug (this w)) landmarks).
  rewrite (drawPoseLandmarks_run w cv Hshow Hcv Hctx), Hpose.
  split; [ reflexivity | split; [ apply dots_pose_ops | ] ].
  intros Hdebug. rewrite dots_pose_ops.
  rewrite (logPoseData_run w landmarks Hpose Hdebug). reflexivity.
Qed.

Lemma pose_dots_are_the_visible_landmarks_witness :
  ∃ ops,
    effects (drawPoseLandmarks (world (onPoseResults a_pose 10 started))) =
      Paint <$> ops ∧
    dots ops = 33.
Proof.
  destruct (pose_dots_are_the_visible_landmarks
              (world (onPoseResults a_pose 10 started))
              {| width := 300; height := 150 |}
              (replicate 33 sample_point))
    as (ops & Hops & Hdots & _); try (vm_compute; reflexivity).
  exists ops. split; [ exact Hops | ]. rewrite Hdots. vm_compute. reflexivity.
Defined.

(** *** Face *)

Lemma drawFaceLandmarks_run w cv landmarks :
  faceLandmarks (this w) = Some landmarks → showFace (this w) = true →
  canvasElement (this w) = Some cv → canvasCtx (this w) = true →
  drawFaceLandmarks w =
  (Ok tt, w, Paint <$> face_ops (width cv) (height cv) landmarks).
Proof.
  intros Hface Hshow Hcv Hctx.
  unfold drawFaceLandmarks, canvas_size, require_ctx, mbind, M_bind, getThis.
  simpl. rewrite Hface, Hshow; simpl. rewrite Hcv; simpl. rewrite Hctx; simpl.
  reflexivity.
Qed.

Lemma dots_face_points W H landmarks n :
  dots (mjoin (face_point W H landmarks <$> seq 0 n)) = min (length landmarks) n.
Proof.
  induction n as [|n IH]; [ rewrite Nat.min_0_r; reflexivity | ].
  rewrite seq_S, fmap_app, join_app, dots_app, IH.
  change (mjoin (face_point W H landmarks <$> [0 + n]))
    with (face_point W H landmarks n ++ []).
  unfold face_point. rewrite app_nil_r.
  destruct (landmarks !! n) as [lm|] eqn:Hn.
  - apply lookup_lt_Some in Hn. rewrite dots_dot. lia.
  - apply lookup_ge_None in Hn. change (dots []) with 0. lia.
Qed.

(** X16.  The face overlay paints one dot for each landmark of the face up
    to index 467 and none beyond: a face of [n] landmarks gets [min n 468]
    dots. *)
Theorem face_dots_stop_at_468 (w : World) (cv : Canvas)
    (landmarks : list Landmark) :
  faceLandmarks (this w) = Some landmarks → showFace (this w) = true →
  canvasElement (this w) = Some cv → canvasCtx (this w) = true →
  ∃ ops,
    effects (drawFaceLandmarks w) = Paint <$> ops ∧
    dots ops = min (length landmarks) 468.
Proof.
  intros Hface Hshow Hcv Hctx.
  exists (face_ops (width cv) (height cv) landmarks).
  rewrite (drawFaceLandmarks_run w cv landmarks Hface Hshow Hcv Hctx).
  split; [ reflexivity | ].
  unfold face_ops, keyLandmarks. rewrite !dots_app.
  rewrite (dots_mjoin_fmap _ _ (dots_plain_connection _ _ landmarks)).
  rewrite dots_face_points. reflexivity.
Qed.

Lemma face_dots_stop_at_468_witness :
  ∃ ops,
    effects (drawFaceLandmarks
               {| this := set_faceLandmarks (Some (replicate 478 sample_point))
                            (this started);
                  document := page |}) = Paint <$> ops ∧
    dots ops = 468.
Proof.
  destruct (face_dots_stop_at_468
              {| this := set_faceLandmarks (Some (replicate 478 sample_point))
                           (this started);
                 document := page |}
              {| width := 300; height := 150 |}
              (replicate 478 sample_point))
    as (ops & Hops & Hdots); try (vm_compute; reflexivity).
  exists ops. split; [ exact Hops | ]. rewrite Hdots. vm_compute. reflexivity.
Defined.

(** *** Hands *)

Lemma dots_hand_ops W H debug i hand :
  dots (hand_ops W H debug i hand) = length hand.
Proof.
  unfold hand_ops. cbv zeta. rewrite !dots_app.
  rewrite (dots_mjoin_fmap _ _ (dots_plain_connection _ _ hand)).
  rewrite (dots_mjoin_imap _ (λ _, 1)).
  - simpl. induction hand as [|p hand IH]; [ reflexivity | ].
    simpl. rewrite <- IH. reflexivity.
  - intros j p. unfold hand_point. rewrite dots_app, dots_dot.
    destruct (debug && bool_decide (j ∈ [0; 4; 8; 12; 16; 20])); reflexivity.
Qed.

(** X17.  The hands overlay paints one dot for every landmark of every hand
    in the cache.  With no hand in the cache it paints nothing and does not
    touch the context, so it returns normally even when there is none. *)
Theorem hands_dots_cover_every_landmark (w : World) (cv : Canvas)
    (found : list (list Landmark)) :
  handsLandmarks (this w) = Some found → showHands (this w) = true →
  canvasElement (this w) = Some cv →
  canvasCtx (this w) = true ∨ found = [] →
  ∃ ops,
    drawHandsLandmarks w = (Ok tt, w, Paint <$> ops) ∧
    dots ops = sum_list (length <$> found) ∧
    (found = [] → ops = []).
Proof.
  intros Hhands Hshow Hcv Hctx.
  exists (hands_ops (width cv) (height cv) (showDebug (this w)) found).
  split; [ | split ].
  - unfold drawHandsLandmarks, canvas_size, require_ctx, when, mbind, M_bind,
      getThis.
    simpl. rewrite Hhands, Hshow; simpl. rewrite Hcv; simpl.
    destruct found as [|hand rest]; [ reflexivity | ].
    destruct Hctx as [Hctx|Hnone]; [ | discriminate Hnone ].
    simpl. rewrite Hctx. reflexivity.
  - unfold hands_ops.
    apply (dots_mjoin_imap (hand_ops _ _ _) length). apply dots_hand_ops.
  - intros ->. reflexivity.
Qed.

Lemma hands_dots_cover_every_landmark_witness :
  let w := {| this := set_canvasCtx false (this started); document := page |} in
  drawHandsLandmarks w = (Ok tt, w, []).
Proof.
  cbv zeta.
  destruct (hands_dots_cover_every_landmark
              {| this := set_canvasCtx false (this started); document := page |}
              {| width := 300; height := 150 |} []
              ltac:(vm_compute; reflexivity) ltac:(vm_compute; reflexivity)
              ltac:(vm_compute; reflexivity) (or_intror eq_refl))
    as (ops & Hrun & _ & Hnone).
  rewrite Hrun, (Hnone eq_refl). reflexivity.
Defined.

(** ** Labels *)

Lemma no_text_mjoin_fmap {A} (f : A → list Ctx.op) l :
  (∀ x, Forall (λ o, is_text o = false) (f x)) →
  Forall (λ o, is_text o = false) (mjoin (f <$> l)).
Proof.
  intros Hf. induction l as [|x l IH]; [ constructor | ].
  change (mjoin (f <$> x :: l)) with (f x ++ mjoin (f <$> l)).
  apply Forall_app. split; [ apply Hf | exact IH ].
Qed.

Lemma no_text_mjoin_imap {A} (f : nat → A → list Ctx.op) l :
  (∀ i x, Forall (λ o, is_text o = false) (f i x)) →
  Forall (λ o, is_text o = false) (mjoin (imap f l)).
Proof.
  revert f. induction l as [|x l IH]; intros f Hf; [ constructor | ].
  change (mjoin (imap f (x :: l))) with (f 0 x ++ mjoin (imap (f ∘ S) l)).
  apply Forall_app. split; [ apply Hf | apply IH; intros i y; apply Hf ].
Qed.

Lemma no_text_pose_connection W H landmarks c :
  Forall (λ o, is_text o = false) (pose_connection W H landmarks c).
Proof.
  unfold pose_connection.
  destruct (landmarks !! c.1), (landmarks !! c.2); try constructor.
  destruct (visibility_gt _ _ && visibility_gt _ _); repeat constructor.
Qed.

Lemma no_text_plain_connection W H landmarks c :
  Forall (λ o, is_text o = false) (plain_connection W H landmarks c).
Proof.
  unfold plain_connection.
  destruct (landmarks !! c.1), (landmarks !! c.2); repeat constructor.
Qed.

Lemma no_text_pose_ops W H landmarks :
  Forall (λ o, is_text o = false) (pose_ops W H false landmarks).
Proof.
  unfold pose_ops. apply Forall_app; split; [ | apply Forall_app; split ].
  - repeat constructor.
  - apply no_text_mjoin_fmap, no_text_pose_connection.
  - apply no_text_mjoin_imap. intros i lm. unfold pose_point.
    destruct (visibility_gt lm 0.3); repeat constructor.
Qed.

Lemma no_text_hands_ops W H found :
  Forall (λ o, is_text o = false) (hands_ops W H false found).
Proof.
  unfold hands_ops. apply no_text_mjoin_imap. intros i hand.
  unfold hand_ops. cbv zeta. apply Forall_app; split; [ | apply Forall_app; split ].
  - repeat constructor.
  - apply no_text_mjoin_fmap, no_text_plain_connection.
  - apply no_text_mjoin_imap. intros j p. repeat constructor.
Qed.

Lemma no_text_face_ops W H landmarks :
  Forall (λ o, is_text o = false) (face_ops W H landmarks).
Proof.
  unfold face_ops. apply Forall_app; split; [ | apply Forall_app; split ].
  - repeat constructor.
  - apply no_text_mjoin_fmap, no_text_plain_connection.
  - apply no_text_mjoin_fmap. intros i. unfold face_point.
    destruct (landmarks !! i); repeat constructor.
Qed.

(** What the three draw methods paint, in any world. *)
Lemma draw_effects w :
  (effects (drawPoseLandmarks w) = [] ∨
   ∃ W H landmarks,
     effects (drawPoseLandmarks w) =
     Paint <$> pose_ops W H (showDebug (this w)) landmarks) ∧
  (effects (drawFaceLandmarks w) = [] ∨
   ∃ W H landmarks,
     effects (drawFaceLandmarks w) = Paint <$> face_ops W H landmarks) ∧
  (effects (drawHandsLandmarks w) = [] ∨
   ∃ W H found,
     effects (drawHandsLandmarks w) =
     Paint <$> hands_ops W H (showDebug (this w)) found).
Proof.
  unfold drawPoseLandmarks, drawFaceLandmarks, drawHandsLandmarks, canvas_size,
    require_ctx, when, mbind, M_bind, getThis, effects.
  cbn -[pose_ops face_ops hands_ops]. repeat split.
  - destruct (poseLandmarks (this w)); [ | left; reflexivity ].
    destruct (showPose (this w)); [ | left; reflexivity ].
    destruct (canvasElement (this w)) as [cv|]; [ | left; reflexivity ].
    cbn -[pose_ops]. destruct (canvasCtx (this w)); [ | left; reflexivity ].
    right. eexists _, _, _. reflexivity.
  - destruct (faceLandmarks (this w)); [ | left; reflexivity ].
    destruct (showFace (this w)); [ | left; reflexivity ].
    destruct (canvasElement (this w)) as [cv|]; [ | left; reflexivity ].
    cbn -[face_ops]. destruct (canvasCtx (this w)); [ | left; reflexivity ].
    right. eexists _, _, _. reflexivity.
  - destruct (handsLandmarks (this w)) as [found|]; [ | left; reflexivity ].
    destruct (showHands (this w)); [ | left; reflexivity ].
    destruct (canvasElement (this w)) as [cv|]; [ | left; reflexivity ].
    cbn -[hands_ops]. destruct found as [|hand rest]; [ left; reflexivity | ].
    rewrite bool_decide_true by (simpl; lia).
    cbn -[hands_ops]. destruct (canvasCtx (this w)); [ | left; reflexivity ].
    right. eexists _, _, _. reflexivity.
Qed.

(** X18.  Index labels are a debug aid: with [showDebug] off neither the
    pose nor the hands overlay writes text on the canvas or sets a font, and
    the face overlay never does. *)
Theorem no_labels_without_debug (w : World) :
  (showDebug (this w) = false →
   Forall (λ e, is_label e = false)
          (effects (drawPoseLandmarks w) ++ effects (drawHandsLandmarks w))) ∧
  Forall (λ e, is_label e = false) (effects (drawFaceLandmarks w)).
Proof.
  destruct (draw_effects w) as (Hpose & Hface & Hhands).
  assert (Hin : ∀ ops, Forall (λ o, is_text o = false) ops →
                       Forall (λ e, is_label e = false) (Paint <$> ops)).
  { intros ops Hall. apply Forall_fmap. exact Hall. }
  split.
  - intros Hoff. apply Forall_app. split.
    + destruct Hpose as [Hnone|(W & H & lms & Hops)];
        [ rewrite Hnone; constructor | ].
      rewrite Hops, Hoff. apply Hin, no_text_pose_ops.
    + destruct Hhands as [Hnone|(W & H & found & Hops)];
        [ rewrite Hnone; constructor | ].
      rewrite Hops, Hoff. apply Hin, no_text_hands_ops.
  - destruct Hface as [Hnone|(W & H & lms & Hops)];
      [ rewrite Hnone; constructor | ].
    rewrite Hops. apply Hin, no_text_face_ops.
Qed.

Lemma no_labels_without_debug_witness :
  Forall (λ e, is_label e = false)
         (effects (drawPoseLandmarks
                     {| this := set_showDebug false
                                  (set_poseLandmarks (Some [sample_point])
                                                     (this started));
                        document := page |}) ++
          effects (drawHandsLandmarks
                     {| this := set_showDebug false
                                  (set_poseLandmarks (Some [sample_point])
                                                     (this started));
                        document := page |})).
Proof.
  apply (proj1 (no_labels_without_debug
                  {| this := set_showDebug false
                               (set_poseLandmarks (Some [sample_point])
                                                  (this started));
                     document := page |})).
  vm_compute. reflexivity.
Defined.

(** ** The error modal *)

(** X19.  The modal keeps the message it was created with: whatever errors
    are reported and however often the user closes it afterwards, it exists
    and shows the first message; a later report, whatever its message, only
    makes it visible again, closing it hides it, and closing a modal that
    does not exist does nothing. *)
Theorem modal_keeps_first_message (first : string) (ops : list ModalOp) :
  modal_message <$> foldl modal_step (showErrorModal first None) ops
    = Some first ∧
  (∀ message,
     foldl modal_step (showErrorModal first None) (ops ++ [Report message]) =
     Some {| display := "flex"; modal_message := first |}) ∧
  foldl modal_step (showErrorModal first None) (ops ++ [Dismiss]) =
    Some {| display := "none"; modal_message := first |} ∧
  closeErrorModal None = None.
Proof.
  assert (Hkeep : ∀ m,
            modal_message <$> m = Some first →
            modal_message <$> foldl modal_step m ops = Some first).
  { induction ops as [|o rest IH]; intros m Hm; [ exact Hm | ].
    simpl. apply IH. destruct m as [m|]; [ | discriminate Hm ].
    destruct o; exact Hm. }
  pose proof (Hkeep (showErrorModal first None) eq_refl) as Hlast.
  split; [ exact Hlast | ].
  destruct (foldl modal_step (showErrorModal first None) ops) as [m|] eqn:Hm;
    [ | discriminate Hlast ].
  injection Hlast as Hmessage.
  split; [ intros message | split; [ | reflexivity ] ];
    rewrite foldl_app, Hm; cbn; rewrite Hmessage; reflexivity.
Qed.

(** ** The log clock the three listeners share *)

Section Post.
Context (P R : Tracker → Prop).

Lemma post_bind {A B} (m : M A) (k : A → M B) :
  inv P (λ _, True) m → (∀ a, post P R (k a)) → post P R (m ≫= k).
Proof.
  intros Hm Hk w Hw b. destruct (Hm w Hw) as [Hw1 _].
  rewrite bind_run. unfold result, world in *.
  destruct (m w) as [[[a|message] w1] e1]; cbn [fst snd] in *;
    [ | discriminate ].
  specialize (Hk a w1 Hw1 b). unfold result, world in Hk.
  destruct (k a w1) as [[r w2] e2]; cbn [fst snd] in *. exact Hk.
Qed.

Lemma post_getThis {B} (k : Tracker → M B) :
  (∀ t, P t → post P R (k t)) → post P R (getThis ≫= k).
Proof.
  intros Hk w Hw b. specialize (Hk (this w) Hw w Hw b).
  rewrite bind_run, getThis_run. cbv beta iota zeta.
  unfold result, world in *.
  destruct (k (this w) w) as [[r w2] e2]; cbn [fst snd] in *. exact Hk.
Qed.

Lemma post_assign f : (∀ t, P t → R (f t)) → post P R (assign f).
Proof. intros Hf w Hw a _. apply Hf, Hw. Qed.

Lemma post_ret {A} (a : A) : (∀ t, P t → R t) → post P R (mret a).
Proof. intros Hpr w Hw b _. apply Hpr, Hw. Qed.

Lemma post_assign_bind {B} (P' : Tracker → Prop) f (k : M B) :
  (∀ t, P t → P' (f t)) → post P' R k → post P R (assign f;; k).
Proof.
  intros Hf Hk w Hw b. rewrite bind_run, assign_run.
  specialize (Hk {| this := f (this w); document := document w |}
                 (Hf _ Hw) b).
  unfold result, world in *.
  destruct (k _) as [[r w2] e2]; cbn [fst snd] in *. exact Hk.
Qed.

Lemma post_hands_nonempty {B} (k : bool → M B) :
  (∀ t hs, P t → handsLandmarks t = Some hs →
           post P R (k (bool_decide (0 < length hs)))) →
  post P R (hands_nonempty ≫= k).
Proof.
  intros Hk w Hw b. unfold hands_nonempty.
  rewrite bind_run, bind_run, getThis_run. cbv beta iota zeta.
  destruct (handsLandmarks (this w)) as [hs|] eqn:Hhs.
  - rewrite ret_run. specialize (Hk (this w) hs Hw Hhs w Hw b).
    unfold result, world in *.
    destruct (k _ w) as [[r w2] e2]; cbn [fst snd] in *. exact Hk.
  - rewrite throw_run. discriminate.
Qed.
End Post.

Section LogClock.
Context (last interval : float).
Local Abbreviation P := (log_clock last interval).

Lemma log_clock_stable f :
  (∀ t, lastLogTime (f t) = lastLogTime t) →
  (∀ t, logInterval (f t) = logInterval t) →
  ∀ t, P t → P (f t).
Proof. intros H1 H2 t [Ha Hb]. split; [ rewrite H1 | rewrite H2 ]; assumption. Qed.

(** A listener that comes before the interval has passed. *)
Lemma listeners_wait (now : float) :
  ge (now - last) interval = false →
  ∀ ev, match ev with
        | PoseDone _ n | FaceDone _ n | HandsDone _ n => n = now
        | _ => False
        end →
        inv P (λ e, is_console e = false) (step ev).
Proof.
  intros Hearly ev Hev.
  assert (Hpaint : may_paint (λ e, is_console e = false)) by (intros ?; reflexivity).
  assert (Hskip : ∀ t (b : bool) m, P t →
            inv P (λ e, is_console e = false)
                (when (ge (now - lastLogTime t) (logInterval t) && b) m)).
  { intros t b m [-> ->]. rewrite Hearly. apply inv_ret. }
  destruct ev as [env|results n|results n|results n|video|d on];
    try contradiction; subst n; simpl.
  - unfold onPoseResults.
    apply inv_bind; [ apply inv_assign, log_clock_stable; reflexivity | intros _ ].
    apply inv_bind; [ apply inv_assign, log_clock_stable; reflexivity | intros _ ].
    apply inv_getThis; intros t0 _.
    apply inv_bind; [ apply inv_when, inv_drawPoseLandmarks, Hpaint | intros _ ].
    apply inv_bind; [ apply inv_updateTrackingStatus | intros _ ].
    apply inv_getThis; intros t [Ha Hb]. rewrite Ha, Hb, Hearly. apply inv_ret.
  - unfold onFaceResults.
    apply inv_bind; [ apply inv_assign, log_clock_stable; reflexivity | intros _ ].
    apply inv_getThis; intros t0 _.
    apply inv_bind; [ apply inv_when, inv_drawFaceLandmarks, Hpaint | intros _ ].
    apply inv_getThis; intros t Ht. apply Hskip, Ht.
  - unfold onHandsResults.
    apply inv_bind; [ apply inv_assign, log_clock_stable; reflexivity | intros _ ].
    apply inv_getThis; intros t0 _.
    apply inv_bind; [ destruct (showHands t0);
                      [ apply inv_hands_nonempty | apply inv_ret ] | intros some ].
    apply inv_bind; [ apply inv_when, inv_drawHandsLandmarks, Hpaint | intros _ ].
    apply inv_getThis; intros t [Ha Hb]. rewrite Ha, Hb, Hearly.
    apply inv_ret_bind. apply inv_ret.
Qed.

Lemma pose_moves_clock results now :
  ge (now - last) interval = true →
  post P (λ t, lastLogTime t = now) (onPoseResults results now).
Proof.
  intros Hdue. unfold onPoseResults.
  apply post_bind; [ apply inv_assign, log_clock_stable; reflexivity | intros _ ].
  apply post_bind; [ apply inv_assign, log_clock_stable; reflexivity | intros _ ].
  apply post_getThis; intros t0 _.
  apply post_bind;
    [ apply inv_when, inv_drawPoseLandmarks; intros ?; exact I | intros _ ].
  apply post_bind; [ apply inv_updateTrackingStatus | intros _ ].
  apply post_getThis; intros t [Ha Hb]. rewrite Ha, Hb, Hdue. unfold when.
  apply post_bind; [ apply inv_logPoseData; intros ? ?; exact I | intros _ ].
  apply post_assign. reflexivity.
Qed.

Lemma face_moves_clock results now :
  ge (now - last) interval = true →
  post P (λ t, lastLogTime t =
               if present (first_face results) then now else last)
       (onFaceResults results now).
Proof.
  intros Hdue. unfold onFaceResults.
  apply (post_assign_bind _ _
           (λ t, P t ∧ faceLandmarks t = first_face results));
    [ intros t [Ha Hb]; repeat split; assumption | ].
  apply post_getThis; intros t0 _.
  apply post_bind;
    [ apply inv_when, inv_drawFaceLandmarks; intros ?; exact I | intros _ ].
  apply post_getThis; intros t [[Ha Hb] Hface]. rewrite Ha, Hb, Hdue, Hface.
  destruct (first_face results) as [face|]; simpl andb; unfold when.
  - apply post_bind; [ apply inv_logFaceData; intros ? ?; exact I | intros _ ].
    apply post_assign. reflexivity.
  - apply post_ret. intros t' [[Ha' _] _]. exact Ha'.
Qed.

Lemma hands_move_clock results now :
  ge (now - last) interval = true →
  post P (λ t, lastLogTime t =
               match multiHandLandmarks results with
               | Some (_ :: _) => now
               | _ => last
               end)
       (onHandsResults results now).
Proof.
  intros Hdue. unfold onHandsResults.
  apply (post_assign_bind _ _
           (λ t, P t ∧ handsLandmarks t =
                       Some (default [] (multiHandLandmarks results))));
    [ intros t [Ha Hb]; repeat split; assumption | ].
  apply post_getThis; intros t0 _.
  apply post_bind;
    [ destruct (showHands t0); [ apply inv_hands_nonempty | apply inv_ret ]
    | intros some ].
  apply post_bind;
    [ apply inv_when, inv_drawHandsLandmarks; intros ?; exact I | intros _ ].
  apply post_getThis; intros t [[Ha Hb] _]. rewrite Ha, Hb, Hdue.
  apply post_hands_nonempty. intros t' hs [[Ha' _] Hhands] Hhs.
  rewrite Hhands in Hhs. injection Hhs as <-.
  destruct (multiHandLandmarks results) as [[|hand hands]|]; simpl default.
  - apply post_ret. intros t'' [[Hlast _] _]. exact Hlast.
  - rewrite bool_decide_true by (simpl; lia). unfold when.
    apply post_bind; [ apply inv_logHandsData; intros ? ?; exact I | intros _ ].
    apply post_assign. reflexivity.
  - apply post_ret. intros t'' [[Hlast _] _]. exact Hlast.
Qed.
End LogClock.

(** X20.  The three listeners share one log clock: a completion of any
    module that comes less than [logInterval] after the last logged one
    prints nothing and leaves the clock where it was. *)
Theorem listeners_share_log_clock (w : World) (ev : Event) (now : float) :
  ge (now - lastLogTime (this w)) (logInterval (this w)) = false →
  match ev with
  | PoseDone _ n | FaceDone _ n | HandsDone _ n => n = now
  | _ => False
  end →
  Forall (λ e, is_console e = false) (effects (step ev w)) ∧
  lastLogTime (this (world (step ev w))) = lastLogTime (this w).
Proof.
  intros Hearly Hev.
  destruct (listeners_wait (lastLogTime (this w)) (logInterval (this w)) now
              Hearly ev Hev w (conj eq_refl eq_refl)) as [[Hlast _] Hquiet].
  split; assumption.
Qed.

Lemma listeners_share_log_clock_witness :
  Forall (λ e, is_console e = false)
         (effects (step (FaceDone one_face 5500)
                        (world (onPoseResults no_pose 5000 started)))) ∧
  lastLogTime (this (world (step (FaceDone one_face 5500)
                                 (world (onPoseResults no_pose 5000 started))))) =
  lastLogTime (this (world (onPoseResults no_pose 5000 started))).
Proof.
  apply (listeners_share_log_clock
           (world (onPoseResults no_pose 5000 started))
           (FaceDone one_face 5500) 5500).
  - vm_compute. reflexivity.
  - reflexivity.
Defined.

(** X21.  When the interval has passed, a pose completion that returns
    always moves the log clock to its own clock reading, pose or no pose;
    a face completion moves it only when it carries a face, and a hands
    completion only when it carries a hand.  So a pose completion without a
    pose silences the next face and hands logs. *)
Theorem due_completion_moves_log_clock (w : World) (now : float) :
  ge (now - lastLogTime (this w)) (logInterval (this w)) = true →
  (∀ results,
     result (onPoseResults results now w) = Ok tt →
     lastLogTime (this (world (onPoseResults results now w))) = now) ∧
  (∀ results,
     result (onFaceResults results now w) = Ok tt →
     lastLogTime (this (world (onFaceResults results now w))) =
     if present (first_face results) then now else lastLogTime (this w)) ∧
  (∀ results,
     result (onHandsResults results now w) = Ok tt →
     lastLogTime (this (world (onHandsResults results now w))) =
     match multiHandLandmarks results with
     | Some (_ :: _) => now
     | _ => lastLogTime (this w)
     end).
Proof.
  intros Hdue. repeat split; intros results Hok.
  - exact (pose_moves_clock _ _ results now Hdue w (conj eq_refl eq_refl) tt Hok).
  - exact (face_moves_clock _ _ results now Hdue w (conj eq_refl eq_refl) tt Hok).
  - exact (hands_move_clock _ _ results now Hdue w (conj eq_refl eq_refl) tt Hok).
Qed.

Lemma due_completion_moves_log_clock_witness :
  lastLogTime (this (world (onPoseResults no_pose 5000 started))) = 5000%float.
Proof.
  apply (proj1 (due_completion_moves_log_clock started 5000
                  ltac:(vm_compute; reflexivity)) no_pose).
  vm_compute. reflexivity.
Defined.
